(** * Polymarket insider tracker (blockchain edition): the surveillance core

    A shallow embedding of [src/server.js] (the on-chain version: the block
    scanner [processBlockchainEvents], the wallet-age estimator
    [checkWalletAge], the composite dedup key and the bounded alerted set),
    followed by the properties of the specification that concern them.

    Conventions of the embedding.
    - Block heights, millisecond timestamps and counts are [Z]; the [uint256]
      event fields are [N].
    - A dollar amount ([parseFloat (formatUnits (x, 6))]) is the exact
      rational [x / 10^6] in [Q], and a rounded amount is printed in plain
      decimal digits (as JS does below 10^21).  The source holds the amount
      in an IEEE double: [rounding] says what the statements use of its
      rounding, and for fills below 800 million USDC ([modest_amount]) the
      bucket of the dedup key is the exact one under every such rounding
      ([bucket_exact_under_rounding]); the statements about keys of
      different events are made for such fills.
    - The JS [Set] [alertedTrades] is the list of its keys in insertion order
      (the order [values ()] iterates in); the [Map] [walletFirstSeen] is a
      [gmap].
    - Every call that leaves the process (JSON-RPC provider, Gamma HTTP API,
      Discord webhook, the clock, the pacing timer) asks an environment
      [Env], whose answers may depend on everything that happened before,
      and is recorded in the state's [trace] (most recent call first).
    - An [async] function run to completion is a function of the state
      (the monad [M]), and [ticks] runs one tick after the other.
      [setInterval] does not wait for a tick to return: module [Async] holds
      the tick in resumable form, stopping at each [await], and runs any
      schedule of starts and resumptions; the schedules in which no tick is
      started while another is in flight are those of [ticks].
    - The body of the loop over the events returns, as a ghost value, the
      exit it took ([Outcome]); a tick returns how it ended
      ([TickOutcome]). *)

From Stdlib Require Import ZArith QArith Qround Lia List String Ascii SpecFloat.
From stdpp Require Import base strings gmap pretty list.

Local Open Scope Z_scope.

(** ** Results of fallible calls *)

(** A promise that resolves to a value, or rejects (an exception is thrown). *)
Inductive result (A : Type) : Type :=
| Ok (a : A)
| Err.
Arguments Ok {A} a.
Arguments Err {A}.

(** ** Data model *)

(** The decoded arguments of an [OrderFilled] log the loop body reads. *)
Record OrderFilledArgs := {
  orderHash : string;
  maker : string;
  makerAssetId : N;
  makerAmountFilled : N
}.

(** [queryFilter] yields decoded logs ([EventLog], with [args]) and logs it
    could not decode ([Log], whose [args] is undefined). *)
Inductive Event :=
| EventLog (args : OrderFilledArgs)
| Log.

(** A market object of the Gamma API.  A string field that is absent is the
    empty string (falsy, like [undefined]); [closed] and [active] are [None]
    when they are absent or not booleans. *)
Record Market := {
  question : string;
  title : string;
  slug : string;
  closed : option bool;
  active : option bool
}.

(** The [description] string of a wallet-age record, by the template that
    builds it. *)
Inductive Description :=
| BrandNew                      (* '🆕 Brand New - First Trade Today!' *)
| DaysOld (ageInDays : Z)       (* `🆕 ${ageInDays} days old` *)
| LowTransactionCount           (* '🆕 New Wallet (Low Transaction Count)' *)
| Established (txCount : Z)     (* `Established wallet (${txCount} transactions)` *)
| UnknownAge.                   (* '🆕 Unknown Age (Error checking blockchain)' *)

Record WalletInfo := {
  isNew : bool;
  ageInDays : Z;
  description : Description
}.

Inductive Position := YES | NO.

Record TradeData := {
  wallet : string;
  amount : Q;
  outcome : Position;
  tradeOrderHash : string
}.

(** The fields of the Discord embed that vary from alert to alert. *)
Record Embed := {
  embedMarket : string;
  embedAmount : Q;
  embedPosition : Position;
  embedWalletAge : Description;
  embedWallet : string;
  embedMarketUrl : string;
  embedTimestamp : string
}.

(** ** Configuration and constants *)

Record Config := {
  DISCORD_WEBHOOK : string;
  MIN_BET_AMOUNT : Q;
  NEW_ACCOUNT_DAYS : Z
}.

(** The values [CONFIG] takes when the environment variables are unset. *)
Definition default_config : Config :=
  {| DISCORD_WEBHOOK := ""; MIN_BET_AMOUNT := 10000 # 1; NEW_ACCOUNT_DAYS := 7 |}.

Definition MAX_STORED_ALERTS : Z := 5000.

(** [1000 * 60 * 60 * 24]: the milliseconds of a day. *)
Definition DAY_MS : Z := 1000 * 60 * 60 * 24.

(** ** The environment and the trace of calls *)

Inductive IO :=
| GetBlockNumber (r : result Z)
| GetTransactionCount (address : string) (r : result Z)
| GetBalance (address : string) (block : Z) (r : result Z)
| GetBlock (block : Z) (r : result (option Z))
| QueryFilter (fromBlock toBlock : Z) (r : result (list Event))
| MarketsGet (conditionId : string) (r : result (list Market))
| WebhookPost (url : string) (e : Embed) (r : result unit)
| DateNow (ms : Z)
| DateIso (iso : string)
| Sleep (ms : Z).

(** What the outside world answers, given the calls made so far (most
    recent first).  [rpc_getBlock] answers the block's [timestamp] in
    seconds, or [None] for the [null] of an unknown block. *)
Record Env := {
  rpc_getBlockNumber : list IO -> result Z;
  rpc_getTransactionCount : list IO -> string -> result Z;
  rpc_getBalance : list IO -> string -> Z -> result Z;
  rpc_getBlock : list IO -> Z -> result (option Z);
  rpc_queryFilter : list IO -> Z -> Z -> result (list Event);
  gamma_markets : list IO -> string -> result (list Market);
  discord_post : list IO -> string -> Embed -> result unit;
  date_now : list IO -> Z;
  date_iso : list IO -> string
}.

(** ** Program state: the module-level stores *)

Record State := {
  alertedTrades : list string;
  walletFirstSeen : gmap string Z;
  lastProcessedBlock : Z;
  trace : list IO
}.

Definition initial_state (startBlock : Z) : State :=
  {| alertedTrades := []; walletFirstSeen := ∅;
     lastProcessedBlock := startBlock; trace := [] |}.

(** ** A state-and-exception monad for the async code *)

Definition M (A : Type) : Type := State -> result A * State.

Definition ret {A} (a : A) : M A := fun s => (Ok a, s).

Definition bind {A B} (m : M A) (k : A -> M B) : M B :=
  fun s => match m s with
           | (Ok a, s') => k a s'
           | (Err, s') => (Err, s')
           end.

Definition throw {A} : M A := fun s => (Err, s).

(** [try { m } catch (e) { h }] *)
Definition try_catch {A} (m : M A) (h : M A) : M A :=
  fun s => match m s with
           | (Ok a, s') => (Ok a, s')
           | (Err, s') => h s'
           end.

Notation "x <- m ;; k" := (bind m (fun x => k))
  (at level 100, m at next level, right associativity).
Notation "m ;;; k" := (bind m (fun _ => k))
  (at level 100, right associativity).

Definition record (e : IO) (s : State) : State :=
  {| alertedTrades := alertedTrades s; walletFirstSeen := walletFirstSeen s;
     lastProcessedBlock := lastProcessedBlock s; trace := e :: trace s |}.

(** [await] of a call that may reject. *)
Definition await {A} (ask : list IO -> result A) (ev : result A -> IO) : M A :=
  fun s => let r := ask (trace s) in (r, record (ev r) s).

(** A call that cannot fail. *)
Definition read {A} (ask : list IO -> A) (ev : A -> IO) : M A :=
  fun s => let a := ask (trace s) in (Ok a, record (ev a) s).

(** ** String helpers: the JS string methods the key is built with *)

Definition lower_ascii (c : ascii) : ascii :=
  let n := N_of_ascii c in
  if ((65 <=? n) && (n <=? 90))%N then ascii_of_N (n + 32) else c.

(** [s.toLowerCase ()], on ASCII. *)
Fixpoint toLowerCase (s : string) : string :=
  match s with
  | EmptyString => EmptyString
  | String c r => String (lower_ascii c) (toLowerCase r)
  end.

(** [s.slice (-n)]: the last [n] characters, or all of [s] when shorter. *)
Definition slice_last (n : nat) (s : string) : string :=
  String.substring (String.length s - n) n s.

(** [s.slice (0, n)] *)
Definition slice_first (n : nat) (s : string) : string :=
  String.substring 0 n s.

(** [s.split ('T') [0]]: what precedes the first ['T']. *)
Fixpoint before_T (s : string) : string :=
  match s with
  | EmptyString => EmptyString
  | String c r => if Ascii.eqb c "T" then EmptyString else String c (before_T r)
  end.

(** [a || b] on strings. *)
Definition or_str (a b : string) : string :=
  if String.eqb a "" then b else a.

(** ** Amounts *)

Definition Qlt_bool (x y : Q) : bool := negb (Qle_bool y x).

(** [parseFloat (ethers.formatUnits (makerAmountFilled, 6))] *)
Definition tradeAmountOf (makerAmountFilled : N) : Q :=
  Z.of_N makerAmountFilled # 1000000.

(** [Math.floor (tradeAmount / 100) * 100] *)
Definition roundedAmountOf (tradeAmount : Q) : Z :=
  Qfloor (tradeAmount / (100 # 1)) * 100.

(** The composite key
    [`${maker.toLowerCase()}-${roundedAmount}-${makerAssetId.toString().slice(-8)}-${today}`]. *)
Definition alertKeyOf (args : OrderFilledArgs) (today : string) : string :=
  toLowerCase (maker args) +:+ "-" +:+
  pretty (roundedAmountOf (tradeAmountOf (makerAmountFilled args))) +:+ "-" +:+
  slice_last 8 (pretty (makerAssetId args)) +:+ "-" +:+ today.

(** [getOutcomeFromAssetId]: parity of the last decimal digit. *)
Definition getOutcomeFromAssetId (assetId : N) : Position :=
  let lastDigit := (assetId mod 10)%N in
  if (lastDigit mod 2 =? 0)%N then NO else YES.

(** ** The alerted set *)

(** [set.has (key)] *)
Definition set_has (key : string) (s : list string) : bool :=
  existsb (String.eqb key) s.

(** [set.add (key)]: a new key goes last in iteration order, a key already
    there keeps its place. *)
Definition set_add (key : string) (s : list string) : list string :=
  if set_has key s then s else s ++ [key].

(** [set.delete (key)] *)
Definition set_delete (key : string) (s : list string) : list string :=
  filter (fun k => k ≠ key) s.

(** [if (set.size > MAX_STORED_ALERTS) set.delete (set.values ().next ().value)] *)
Definition evictOldest (s : list string) : list string :=
  if Z.of_nat (length s) >? MAX_STORED_ALERTS then
    match s with
    | firstItem :: _ => set_delete firstItem s
    | [] => s
    end
  else s.

(** Lines 636-642 of the loop body: mark as alerted, then keep the set
    bounded. *)
Definition markAlerted (key : string) (s : list string) : list string :=
  evictOldest (set_add key s).

(** ** The program *)

Section Program.

Variable cfg : Config.
Variable env : Env.

(** *** Calls to the outside *)

Definition getBlockNumber : M Z :=
  await (rpc_getBlockNumber env) GetBlockNumber.

Definition getTransactionCount (address : string) : M Z :=
  await (fun t => rpc_getTransactionCount env t address)
        (GetTransactionCount address).

Definition getBalance (address : string) (block : Z) : M Z :=
  await (fun t => rpc_getBalance env t address block) (GetBalance address block).

Definition getBlock (block : Z) : M (option Z) :=
  await (fun t => rpc_getBlock env t block) (GetBlock block).

Definition queryFilter (fromBlock toBlock : Z) : M (list Event) :=
  await (fun t => rpc_queryFilter env t fromBlock toBlock)
        (QueryFilter fromBlock toBlock).

Definition axios_get_markets (conditionId : string) : M (list Market) :=
  await (fun t => gamma_markets env t conditionId) (MarketsGet conditionId).

Definition axios_post (url : string) (e : Embed) : M unit :=
  await (fun t => discord_post env t url e) (WebhookPost url e).

(** [Date.now ()] *)
Definition dateNow : M Z := read (date_now env) DateNow.

(** [new Date ().toISOString ()] *)
Definition dateIso : M string := read (date_iso env) DateIso.

(** [await new Promise (resolve => setTimeout (resolve, ms))] *)
Definition sleep (ms : Z) : M unit := fun s => (Ok tt, record (Sleep ms) s).

(** *** Access to the stores *)

Definition walletFirstSeen_get (address : string) : M (option Z) :=
  fun s => (Ok (walletFirstSeen s !! address), s).

Definition walletFirstSeen_set (address : string) (t : Z) : M unit :=
  fun s => (Ok tt,
            {| alertedTrades := alertedTrades s;
               walletFirstSeen := <[address := t]> (walletFirstSeen s);
               lastProcessedBlock := lastProcessedBlock s;
               trace := trace s |}).

Definition alertedTrades_has (key : string) : M bool :=
  fun s => (Ok (set_has key (alertedTrades s)), s).

Definition alertedTrades_update (f : list string -> list string) : M unit :=
  fun s => (Ok tt,
            {| alertedTrades := f (alertedTrades s);
               walletFirstSeen := walletFirstSeen s;
               lastProcessedBlock := lastProcessedBlock s;
               trace := trace s |}).

Definition get_lastProcessedBlock : M Z :=
  fun s => (Ok (lastProcessedBlock s), s).

Definition set_lastProcessedBlock (b : Z) : M unit :=
  fun s => (Ok tt,
            {| alertedTrades := alertedTrades s;
               walletFirstSeen := walletFirstSeen s;
               lastProcessedBlock := b;
               trace := trace s |}).

(** *** [checkWalletAge] *)

(** The record both the cached and the searched path return. *)
Definition ageRecord (ageInDays : Z) : WalletInfo :=
  {| isNew := ageInDays <=? NEW_ACCOUNT_DAYS cfg;
     ageInDays := ageInDays;
     description := if ageInDays =? 0 then BrandNew else DaysOld ageInDays |}.

Definition lowTxRecord : WalletInfo :=
  {| isNew := true; ageInDays := 0; description := LowTransactionCount |}.

Definition establishedRecord (txCount : Z) : WalletInfo :=
  {| isNew := false; ageInDays := 999; description := Established txCount |}.

Definition unknownAgeRecord : WalletInfo :=
  {| isNew := true; ageInDays := 0; description := UnknownAge |}.

(** The midpoint the loop probes. *)
Definition midBlockOf (currentBlock blocksToSearch firstTxBlock : Z) : Z :=
  (currentBlock - blocksToSearch + firstTxBlock) / 2.

(** [for (let i = 0; i < 5; i++) { ... }], with [n] iterations left. *)
Fixpoint searchLoop (n : nat) (address : string)
    (currentBlock blocksToSearch firstTxBlock : Z) : M Z :=
  match n with
  | O => ret firstTxBlock
  | S n' =>
      let midBlock := midBlockOf currentBlock blocksToSearch firstTxBlock in
      balance <- getBalance address midBlock ;;
      searchLoop n' address currentBlock blocksToSearch
        (if balance >? 0 then midBlock else firstTxBlock)
  end.

(** The inner [try] block: the search for the first appearance. *)
Definition searchWalletAge (address : string) : M WalletInfo :=
  currentBlock <- getBlockNumber ;;
  let blocksToSearch := Z.min 10000 currentBlock in
  firstTxBlock <- searchLoop 5 address currentBlock blocksToSearch currentBlock ;;
  block <- getBlock firstTxBlock ;;
  match block with
  | None => throw                       (* [block.timestamp] of [null] *)
  | Some timestamp =>
      let firstSeenTimestamp := timestamp * 1000 in
      now <- dateNow ;;
      let ageInMs := now - firstSeenTimestamp in
      let ageInDays := ageInMs / DAY_MS in
      walletFirstSeen_set address firstSeenTimestamp ;;;
      ret (ageRecord ageInDays)
  end.

Definition checkWalletAge (address : string) : M WalletInfo :=
  try_catch
    (cached <- walletFirstSeen_get address ;;
     match cached with
     | Some firstSeenTime =>
         now <- dateNow ;;
         ret (ageRecord ((now - firstSeenTime) / DAY_MS))
     | None =>
         txCount <- getTransactionCount address ;;
         if txCount <=? 10
         then try_catch (searchWalletAge address) (ret lowTxRecord)
         else ret (establishedRecord txCount)
     end)
    (ret unknownAgeRecord).

(** *** [getMarketByConditionId] *)

Definition getMarketByConditionId (conditionId : string) : M (option Market) :=
  try_catch
    (data <- axios_get_markets conditionId ;;
     ret (head data))
    (ret None).

(** *** [sendDiscordAlert] *)

Definition sendDiscordAlert (tradeData : TradeData) (walletInfo : WalletInfo)
    (market : option Market) : M unit :=
  if String.eqb (DISCORD_WEBHOOK cfg) "" then ret tt
  else
    try_catch
      (let marketUrl :=
         match market with
         | Some m => if String.eqb (slug m) "" then "https://polymarket.com"
                     else "https://polymarket.com/event/" +:+ slug m
         | None => "https://polymarket.com"
         end in
       let marketTitle :=
         match market with
         | Some m => or_str (question m) (or_str (title m) "Unknown Market")
         | None => "Unknown Market (Check Polymarket)"
         end in
       iso <- dateIso ;;
       axios_post (DISCORD_WEBHOOK cfg)
         {| embedMarket := marketTitle;
            embedAmount := amount tradeData;
            embedPosition := outcome tradeData;
            embedWalletAge := description walletInfo;
            embedWallet := wallet tradeData;
            embedMarketUrl := marketUrl;
            embedTimestamp := iso |})
      (ret tt).

(** *** [processBlockchainEvents] *)

(** Where the body of the loop over the events leaves an event: one of the
    [continue]s, the end of the body, or the [catch] of the body. *)
Inductive Outcome :=
| FilteredByAmount
| FilteredByDedup (alertKey : string)
| FilteredByAge (alertKey : string)
| FilteredByMarket (alertKey : string)
| Alerted (alertKey : string)
| Failed.

(** [const { maker, ... } = event.args] throws on a log without [args]. *)
Definition event_args (event : Event) : M OrderFilledArgs :=
  match event with
  | EventLog args => ret args
  | Log => throw
  end.

(** [market.closed === true || market.active === false] *)
Definition closedOrInactive (market : Market) : bool :=
  match closed market, active market with
  | Some true, _ => true
  | _, Some false => true
  | _, _ => false
  end.

(** The body of [for (const event of events)], with its [try]/[catch]. *)
Definition processEvent (event : Event) : M Outcome :=
  try_catch
    (args <- event_args event ;;
     let tradeAmount := tradeAmountOf (makerAmountFilled args) in
     if Qlt_bool tradeAmount (MIN_BET_AMOUNT cfg) then ret FilteredByAmount
     else
       iso <- dateIso ;;
       let today := before_T iso in
       let alertKey := alertKeyOf args today in
       seen <- alertedTrades_has alertKey ;;
       if seen then ret (FilteredByDedup alertKey)
       else
         walletInfo <- checkWalletAge (maker args) ;;
         if negb (isNew walletInfo) then ret (FilteredByAge alertKey)
         else
           let conditionId := slice_first 66 (pretty (makerAssetId args)) in
           market <- getMarketByConditionId conditionId ;;
           match market with
           | None => ret (FilteredByMarket alertKey)
           | Some m =>
               if closedOrInactive m then ret (FilteredByMarket alertKey)
               else
                 let tradeData :=
                   {| wallet := maker args;
                      amount := tradeAmount;
                      outcome := getOutcomeFromAssetId (makerAssetId args);
                      tradeOrderHash := orderHash args |} in
                 sendDiscordAlert tradeData walletInfo (Some m) ;;;
                 alertedTrades_update (set_add alertKey) ;;;
                 alertedTrades_update evictOldest ;;;
                 sleep 2000 ;;;
                 ret (Alerted alertKey)
           end)
    (ret Failed).

(** [for (const event of events) { ... }] *)
Fixpoint processEvents (events : list Event) : M (list Outcome) :=
  match events with
  | [] => ret []
  | event :: rest =>
      o <- processEvent event ;;
      os <- processEvents rest ;;
      ret (o :: os)
  end.

(** How a tick ends: the early [return], the end of the [try] block, or its
    [catch]. *)
Inductive TickOutcome :=
| NoNewBlocks
| ScanComplete (fromBlock toBlock : Z) (outcomes : list Outcome)
| ScanError.

Definition maxBlockRange : Z := 50.

Definition processBlockchainEvents : M TickOutcome :=
  try_catch
    (currentBlock <- getBlockNumber ;;
     lastProcessed <- get_lastProcessedBlock ;;
     if currentBlock <=? lastProcessed then ret NoNewBlocks
     else
       let toBlock := Z.min currentBlock (lastProcessed + maxBlockRange) in
       events <- queryFilter (lastProcessed + 1) toBlock ;;
       outcomes <- processEvents events ;;
       set_lastProcessedBlock toBlock ;;;
       ret (ScanComplete (lastProcessed + 1) toBlock outcomes))
    (ret ScanError).

(** [n] ticks of [setInterval (processBlockchainEvents, CHECK_INTERVAL)],
    each run to completion before the next is started; for ticks started
    while another waits, see [Async] below. *)
Fixpoint ticks (n : nat) : M (list TickOutcome) :=
  match n with
  | O => ret []
  | S n' =>
      o <- processBlockchainEvents ;;
      os <- ticks n' ;;
      ret (o :: os)
  end.

End Program.

(** ** Vocabulary for the statements *)

(** The state after the calls [new] (most recent first) were recorded. *)
Definition records (new : list IO) (s : State) : State :=
  foldr record s new.

(** The state after [walletFirstSeen.set (address, t)]. *)
Definition cached (address : string) (t : Z) (s : State) : State :=
  {| alertedTrades := alertedTrades s;
     walletFirstSeen := <[address := t]> (walletFirstSeen s);
     lastProcessedBlock := lastProcessedBlock s;
     trace := trace s |}.

(** The calls made on the way from state [s] to state [s'], in the order
    they were made. *)
Definition calls_during (s s' : State) : list IO :=
  rev (take (length (trace s') - length (trace s)) (trace s')).

(** A call on which the caller throws: a rejected promise, or the [null]
    block whose [timestamp] is read. *)
Definition raised (e : IO) : bool :=
  match e with
  | GetBlockNumber Err
  | GetTransactionCount _ Err
  | GetBalance _ _ Err
  | GetBlock _ Err
  | GetBlock _ (Ok None)
  | QueryFilter _ _ Err
  | MarketsGet _ Err
  | WebhookPost _ _ Err => true
  | _ => false
  end.

Definition is_query (e : IO) : bool :=
  match e with
  | QueryFilter _ _ _ => true
  | _ => false
  end.

(** The candidate first block after the search loop saw the balances [bs]
    at its successive probes. *)
Fixpoint narrowed (currentBlock blocksToSearch firstTxBlock : Z) (bs : list Z) : Z :=
  match bs with
  | [] => firstTxBlock
  | b :: bs' =>
      narrowed currentBlock blocksToSearch
        (if b >? 0 then midBlockOf currentBlock blocksToSearch firstTxBlock
         else firstTxBlock) bs'
  end.

(** The balance probes of the search loop, in the order they are made, when
    they are answered by the balances [bs]. *)
Fixpoint probes (address : string) (currentBlock blocksToSearch firstTxBlock : Z)
    (bs : list Z) : list IO :=
  match bs with
  | [] => []
  | b :: bs' =>
      GetBalance address (midBlockOf currentBlock blocksToSearch firstTxBlock) (Ok b)
      :: probes address currentBlock blocksToSearch
           (if b >? 0 then midBlockOf currentBlock blocksToSearch firstTxBlock
            else firstTxBlock) bs'
  end.

(** Marking the keys [ks] one after the other, starting from the set [s]. *)
Definition markAll (s ks : list string) : list string :=
  foldl (fun acc key => markAlerted key acc) s ks.

(** The five ways a call of [checkWalletAge] can go, with the answer it
    returns and the state it leaves: the cached path, the rejected
    transaction-count query (outer [catch]), the established wallet, the
    search that throws (inner [catch]) and the search that completes. *)
Inductive wallet_age_run (cfg : Config) (env : Env) (address : string) (s : State) :
    WalletInfo -> State -> Prop :=
| run_cached firstSeenTime :
    walletFirstSeen s !! address = Some firstSeenTime ->
    let now := date_now env (trace s) in
    wallet_age_run cfg env address s
      (ageRecord cfg ((now - firstSeenTime) / DAY_MS))
      (record (DateNow now) s)
| run_count_failed :
    walletFirstSeen s !! address = None ->
    wallet_age_run cfg env address s unknownAgeRecord
      (record (GetTransactionCount address Err) s)
| run_established txCount :
    walletFirstSeen s !! address = None ->
    10 < txCount ->
    wallet_age_run cfg env address s (establishedRecord txCount)
      (record (GetTransactionCount address (Ok txCount)) s)
| run_search_failed txCount new :
    walletFirstSeen s !! address = None ->
    txCount <= 10 ->
    existsb raised new = true ->
    existsb is_query new = false ->
    wallet_age_run cfg env address s lowTxRecord
      (records (new ++ [GetTransactionCount address (Ok txCount)]) s)
| run_searched txCount currentBlock bs timestamp now :
    walletFirstSeen s !! address = None ->
    txCount <= 10 ->
    length bs = 5%nat ->
    let blocksToSearch := Z.min 10000 currentBlock in
    let firstTxBlock := narrowed currentBlock blocksToSearch currentBlock bs in
    wallet_age_run cfg env address s
      (ageRecord cfg ((now - timestamp * 1000) / DAY_MS))
      (cached address (timestamp * 1000)
         (records
            (DateNow now :: GetBlock firstTxBlock (Ok (Some timestamp))
             :: rev (probes address currentBlock blocksToSearch currentBlock bs)
             ++ [GetBlockNumber (Ok currentBlock);
                 GetTransactionCount address (Ok txCount)]) s)).

(** What the processing of events may do to the state besides the alerted
    set: the cursor stays, cached first-seen times stay, and the calls that
    are added to the trace are not log queries. *)
Record evolves (s s' : State) : Prop := {
  evolves_cursor : lastProcessedBlock s' = lastProcessedBlock s;
  evolves_wallets : forall a t,
    walletFirstSeen s !! a = Some t -> walletFirstSeen s' !! a = Some t;
  evolves_trace : exists new,
    trace s' = new ++ trace s /\ existsb is_query new = false
}.

(** The state after [lastProcessedBlock = toBlock]. *)
Definition advanced (toBlock : Z) (s : State) : State :=
  {| alertedTrades := alertedTrades s;
     walletFirstSeen := walletFirstSeen s;
     lastProcessedBlock := toBlock;
     trace := trace s |}.

(** The four ways a tick can go. *)
Inductive tick_run (cfg : Config) (env : Env) (s : State) :
    TickOutcome -> State -> Prop :=
| tick_height_failed :
    rpc_getBlockNumber env (trace s) = Err ->
    tick_run cfg env s ScanError (record (GetBlockNumber Err) s)
| tick_no_new_blocks currentBlock :
    rpc_getBlockNumber env (trace s) = Ok currentBlock ->
    currentBlock <= lastProcessedBlock s ->
    tick_run cfg env s NoNewBlocks (record (GetBlockNumber (Ok currentBlock)) s)
| tick_fetch_failed currentBlock :
    rpc_getBlockNumber env (trace s) = Ok currentBlock ->
    lastProcessedBlock s < currentBlock ->
    let fromBlock := lastProcessedBlock s + 1 in
    let toBlock := Z.min currentBlock (lastProcessedBlock s + maxBlockRange) in
    rpc_queryFilter env (GetBlockNumber (Ok currentBlock) :: trace s)
      fromBlock toBlock = Err ->
    tick_run cfg env s ScanError
      (records [QueryFilter fromBlock toBlock Err;
                GetBlockNumber (Ok currentBlock)] s)
| tick_scanned currentBlock events outcomes s' :
    rpc_getBlockNumber env (trace s) = Ok currentBlock ->
    lastProcessedBlock s < currentBlock ->
    let fromBlock := lastProcessedBlock s + 1 in
    let toBlock := Z.min currentBlock (lastProcessedBlock s + maxBlockRange) in
    let s1 := records [QueryFilter fromBlock toBlock (Ok events);
                       GetBlockNumber (Ok currentBlock)] s in
    rpc_queryFilter env (GetBlockNumber (Ok currentBlock) :: trace s)
      fromBlock toBlock = Ok events ->
    processEvents cfg env events s1 = (Ok outcomes, s') ->
    length outcomes = length events ->
    evolves s1 s' ->
    tick_run cfg env s (ScanComplete fromBlock toBlock outcomes)
      (advanced toBlock s').

(** The environment [env] with another notifier. *)
Definition with_notifier (post : list IO -> string -> Embed -> result unit)
    (env : Env) : Env :=
  {| rpc_getBlockNumber := rpc_getBlockNumber env;
     rpc_getTransactionCount := rpc_getTransactionCount env;
     rpc_getBalance := rpc_getBalance env;
     rpc_getBlock := rpc_getBlock env;
     rpc_queryFilter := rpc_queryFilter env;
     gamma_markets := gamma_markets env;
     discord_post := post;
     date_now := date_now env;
     date_iso := date_iso env |}.

Definition is_alerted (o : Outcome) : bool :=
  match o with
  | Alerted _ => true
  | _ => false
  end.

(** The number of events of a run of the loop that ended in an alert. *)
Definition alert_count (r : result (list Outcome)) : Z :=
  match r with
  | Ok outcomes => Z.of_nat (length (List.filter is_alerted outcomes))
  | Err => 0
  end.

(** The key [key] is in the set, behind none of its own copies, and at most
    [j] keys were added after it. *)
Definition kept (key : string) (j : Z) (s : list string) : Prop :=
  exists before after,
    s = before ++ key :: after /\ (key ∉ before) /\ Z.of_nat (length after) <= j.

(** The block ranges of the log queries that were answered, in the order
    of the calls. *)
Fixpoint scanned_ranges (calls : list IO) : list (Z * Z) :=
  match calls with
  | [] => []
  | QueryFilter fromBlock toBlock (Ok _) :: rest =>
      (fromBlock, toBlock) :: scanned_ranges rest
  | _ :: rest => scanned_ranges rest
  end.

(** Ranges that lie above block [b], one strictly above the other. *)
Fixpoint ascending_from (b : Z) (ranges : list (Z * Z)) : Prop :=
  match ranges with
  | [] => True
  | (fromBlock, toBlock) :: rest =>
      b < fromBlock /\ fromBlock <= toBlock /\ ascending_from toBlock rest
  end.

(** A log query, if [e] is one, spans at most [maxBlockRange] blocks. *)
Definition chunked (e : IO) : Prop :=
  match e with
  | QueryFilter fromBlock toBlock _ => toBlock - fromBlock <= maxBlockRange
  | _ => True
  end.

(** Where an event ends, and what it did to the alerted set. *)
Definition outcome_effect (env : Env) (o : Outcome) (s s' : State) : Prop :=
  match o with
  | FilteredByAmount | Failed => s' = s
  | FilteredByDedup key =>
      set_has key (alertedTrades s) = true /\
      s' = record (DateIso (date_iso env (trace s))) s
  | FilteredByAge key | FilteredByMarket key =>
      set_has key (alertedTrades s) = false /\
      alertedTrades s' = alertedTrades s
  | Alerted key =>
      set_has key (alertedTrades s) = false /\
      alertedTrades s' = markAlerted key (alertedTrades s)
  end.

(** The transaction count, if [e] answers one, is at most 10. *)
Definition low_count (e : IO) : bool :=
  match e with
  | GetTransactionCount _ (Ok txCount) => txCount <=? 10
  | _ => true
  end.

(** The balance, if [e] answers one, is zero. *)
Definition zero_balance (e : IO) : bool :=
  match e with
  | GetBalance _ _ (Ok balance) => balance =? 0
  | _ => true
  end.

(** ** Concrete environments and inputs *)

Definition active_market : Market :=
  {| question := "Will it rain tomorrow?"; title := "";
     slug := "will-it-rain-tomorrow";
     closed := Some false; active := Some true |}.

(** A chain at height 1000 where every call succeeds: wallets have 2
    transactions and no balance, block timestamps are 5 seconds behind the
    clock, there are no logs, and the market is active. *)
Definition quiet_env : Env :=
  {| rpc_getBlockNumber := fun _ => Ok 1000;
     rpc_getTransactionCount := fun _ _ => Ok 2;
     rpc_getBalance := fun _ _ _ => Ok 0;
     rpc_getBlock := fun _ _ => Ok (Some 1700000000);
     rpc_queryFilter := fun _ _ _ => Ok [];
     gamma_markets := fun _ _ => Ok [active_market];
     discord_post := fun _ _ _ => Ok tt;
     date_now := fun _ => 1700000005000;
     date_iso := fun _ => "2023-11-14T22:13:25.000Z" |}.

(** The first height query answers 103 and the log query that follows is
    rejected; from then on the height is 118 and log queries are answered. *)
Definition flaky_env : Env :=
  {| rpc_getBlockNumber :=
       fun t => match t with [] => Ok 103 | _ => Ok 118 end;
     rpc_getTransactionCount := rpc_getTransactionCount quiet_env;
     rpc_getBalance := rpc_getBalance quiet_env;
     rpc_getBlock := rpc_getBlock quiet_env;
     rpc_queryFilter :=
       fun t _ _ => match t with [_] => Err | _ => Ok [] end;
     gamma_markets := gamma_markets quiet_env;
     discord_post := discord_post quiet_env;
     date_now := date_now quiet_env;
     date_iso := date_iso quiet_env |}.

(** Every log query answers a log that cannot be decoded and a fill of
    $9,999. *)
Definition noisy_env : Env :=
  {| rpc_getBlockNumber := rpc_getBlockNumber quiet_env;
     rpc_getTransactionCount := rpc_getTransactionCount quiet_env;
     rpc_getBalance := rpc_getBalance quiet_env;
     rpc_getBlock := rpc_getBlock quiet_env;
     rpc_queryFilter :=
       fun _ _ _ =>
         Ok [Log;
             EventLog {| orderHash := "0x00";
                         maker := "0x71C7656EC7ab88b098defB751B7401B5f6d8976F";
                         makerAssetId := 123456789012;
                         makerAmountFilled := 9999000000 |}];
     gamma_markets := gamma_markets quiet_env;
     discord_post := discord_post quiet_env;
     date_now := date_now quiet_env;
     date_iso := date_iso quiet_env |}.

(** Balance queries are rejected. *)
Definition failing_env : Env :=
  {| rpc_getBlockNumber := rpc_getBlockNumber quiet_env;
     rpc_getTransactionCount := rpc_getTransactionCount quiet_env;
     rpc_getBalance := fun _ _ _ => Err;
     rpc_getBlock := rpc_getBlock quiet_env;
     rpc_queryFilter := rpc_queryFilter quiet_env;
     gamma_markets := gamma_markets quiet_env;
     discord_post := discord_post quiet_env;
     date_now := date_now quiet_env;
     date_iso := date_iso quiet_env |}.

(** A clock that starts 0.9 day after 1700000000000 and moves on by 0.2 day
    with every call that is made. *)
Definition ticking_env : Env :=
  {| rpc_getBlockNumber := rpc_getBlockNumber quiet_env;
     rpc_getTransactionCount := rpc_getTransactionCount quiet_env;
     rpc_getBalance := rpc_getBalance quiet_env;
     rpc_getBlock := rpc_getBlock quiet_env;
     rpc_queryFilter := rpc_queryFilter quiet_env;
     gamma_markets := gamma_markets quiet_env;
     discord_post := discord_post quiet_env;
     date_now := fun t => 1700077760000 + 17280000 * Z.of_nat (length t);
     date_iso := date_iso quiet_env |}.

Definition webhook_config : Config :=
  {| DISCORD_WEBHOOK := "https://discord.example/api/webhooks/1";
     MIN_BET_AMOUNT := 10000 # 1;
     NEW_ACCOUNT_DAYS := 7 |}.

Definition whale : string := "0x71C7656EC7ab88b098defB751B7401B5f6d8976F".

(** A state in which [whale] was first seen at 1700000000000. *)
Definition whale_cached : State :=
  {| alertedTrades := [];
     walletFirstSeen := {[ whale := 1700000000000 ]};
     lastProcessedBlock := 100;
     trace := [] |}.

(** The arguments of a fill of [dollars] USDC by [whale]. *)
Definition fill_args (dollars : N) : OrderFilledArgs :=
  {| orderHash := "0x00";
     maker := whale;
     makerAssetId := 123456789012;
     makerAmountFilled := dollars * 1000000 |}.

Definition fill (dollars : N) : Event := EventLog (fill_args dollars).

(** The key of a fill of [dollars] on 2023-11-14. *)
Definition fill_key (dollars : N) : string :=
  alertKeyOf (fill_args dollars) "2023-11-14".

(** 10000, 10100, 10200, ... *)
Definition rising (i : nat) : N := 10000 + 100 * N.of_nat i.

(** A fill of $10,000, then [MAX_STORED_ALERTS] fills of rising amounts,
    then the fill of $10,000 again. *)
Definition storm_amounts : list N :=
  rising 0 :: (rising <$> seq 1 (Z.to_nat MAX_STORED_ALERTS)) ++ [rising 0].

Definition storm : list Event := fill <$> storm_amounts.

Definition first_outcome (r : result (list Outcome)) : option Outcome :=
  match r with
  | Ok outcomes => head outcomes
  | Err => None
  end.

Definition last_outcome (r : result (list Outcome)) : option Outcome :=
  match r with
  | Ok outcomes => last outcomes
  | Err => None
  end.

(** ** Further code of the blockchain edition: start-up and health *)

Section Startup.

Variable cfg : Config.
Variable env : Env.

(** [initBlockchain].  Constructing the provider and the contract objects
    makes no call; the first call is the height query. *)
Definition initBlockchain : M bool :=
  try_catch
    (currentBlock <- getBlockNumber env ;;
     set_lastProcessedBlock currentBlock ;;;
     ret true)
    (ret false).


End Startup.

(** The body of the [/health] response, without [uptime]. *)
Record Health := {
  status : string;
  lastBlock : Z;
  minBetAmount : Q;
  newAccountDays : Z;
  discordEnabled : bool;
  alertsSent : nat;
  walletsTracked : nat
}.

Definition health (cfg : Config) (s : State) : Health :=
  {| status := "healthy";
     lastBlock := lastProcessedBlock s;
     minBetAmount := MIN_BET_AMOUNT cfg;
     newAccountDays := NEW_ACCOUNT_DAYS cfg;
     discordEnabled := negb (String.eqb (DISCORD_WEBHOOK cfg) "");
     alertsSent := length (alertedTrades s);
     walletsTracked := size (walletFirstSeen s) |}.

(** A call [checkWalletAge] may make for [address]. *)
Definition wallet_call (address : string) (e : IO) : bool :=
  match e with
  | GetTransactionCount a _ | GetBalance a _ _ => String.eqb a address
  | GetBlockNumber _ | GetBlock _ _ | DateNow _ => true
  | _ => false
  end.

Definition is_post (e : IO) : bool :=
  match e with
  | WebhookPost _ _ _ => true
  | _ => false
  end.

Definition is_sleep (e : IO) : bool :=
  match e with
  | Sleep _ => true
  | _ => false
  end.

(** The number of calls of [calls] that satisfy [p]. *)
Definition count_calls (p : IO -> bool) (calls : list IO) : nat :=
  length (List.filter p calls).

(** Whether the answer of the market lookup stops an alert: the request was
    rejected, no market came back, or the first one is closed or
    inactive. *)
Definition market_rejects (answer : result (list Market)) : bool :=
  match answer with
  | Err => true
  | Ok [] => true
  | Ok (market :: _) => closedOrInactive market
  end.

(** The embed that [sendDiscordAlert] posts, given the ISO time it reads. *)
Definition alert_embed (tradeData : TradeData) (walletInfo : WalletInfo)
    (market : option Market) (iso : string) : Embed :=
  {| embedMarket :=
       match market with
       | Some m => or_str (question m) (or_str (title m) "Unknown Market")
       | None => "Unknown Market (Check Polymarket)"
       end;
     embedAmount := amount tradeData;
     embedPosition := outcome tradeData;
     embedWalletAge := description walletInfo;
     embedWallet := wallet tradeData;
     embedMarketUrl :=
       match market with
       | Some m => if String.eqb (slug m) "" then "https://polymarket.com"
                   else "https://polymarket.com/event/" +:+ slug m
       | None => "https://polymarket.com"
       end;
     embedTimestamp := iso |}.

(** The trade data the loop body hands to [sendDiscordAlert]. *)
Definition tradeDataOf (args : OrderFilledArgs) : TradeData :=
  {| wallet := maker args;
     amount := tradeAmountOf (makerAmountFilled args);
     outcome := getOutcomeFromAssetId (makerAssetId args);
     tradeOrderHash := orderHash args |}.

(** Neither a webhook post nor a pause. *)
Definition quiet (e : IO) : bool := negb (is_post e || is_sleep e).

(** The number of alerts of a tick. *)
Definition tick_alerts (o : TickOutcome) : nat :=
  match o with
  | ScanComplete _ _ outcomes => length (List.filter is_alerted outcomes)
  | _ => 0%nat
  end.

(** The calls an alert ends with: the post, if a webhook is configured,
    and the pause. *)
Definition alert_calls (cfg : Config) (args : OrderFilledArgs) (post : list IO) :
    Prop :=
  exists w market iso answer,
    post =
      Sleep 2000
      :: (if String.eqb (DISCORD_WEBHOOK cfg) "" then []
          else [WebhookPost (DISCORD_WEBHOOK cfg)
                  (alert_embed (tradeDataOf args) w market iso) answer;
                DateIso iso]).

(** The quiet chain, but no market can be looked up. *)
Definition marketless_env : Env :=
  {| rpc_getBlockNumber := rpc_getBlockNumber quiet_env;
     rpc_getTransactionCount := rpc_getTransactionCount quiet_env;
     rpc_getBalance := rpc_getBalance quiet_env;
     rpc_getBlock := rpc_getBlock quiet_env;
     rpc_queryFilter := rpc_queryFilter quiet_env;
     gamma_markets := fun _ _ => Err;
     discord_post := discord_post quiet_env;
     date_now := date_now quiet_env;
     date_iso := date_iso quiet_env |}.

(** A state in which [whale] was first seen at 1600000000000, more than
    three years before the clock of [quiet_env]. *)
Definition whale_long_cached : State :=
  {| alertedTrades := [];
     walletFirstSeen := {[ whale := 1600000000000 ]};
     lastProcessedBlock := 100;
     trace := [] |}.

(** ** Events across ticks *)

(** The exits of the events of a tick, in the order the events were met. *)
Definition exits (o : TickOutcome) : list Outcome :=
  match o with
  | ScanComplete _ _ outcomes => outcomes
  | _ => []
  end.

(** The exits of the events of a run of ticks, in the order the events were
    met. *)
Definition tick_outcomes (r : result (list TickOutcome)) : list Outcome :=
  match r with
  | Ok os => concat (exits <$> os)
  | Err => []
  end.

(** The key an event reached the dedup check with. *)
Definition key_of (o : Outcome) : option string :=
  match o with
  | FilteredByDedup key | FilteredByAge key | FilteredByMarket key
  | Alerted key => Some key
  | FilteredByAmount | Failed => None
  end.

(** The number of alerts among the exits [os]. *)
Definition alerts_in (os : list Outcome) : Z :=
  Z.of_nat (length (List.filter is_alerted os)).

(** What an exit says of the alerted set before and after the event. *)
Definition set_effect (o : Outcome) (a a' : list string) : Prop :=
  match o with
  | FilteredByAmount | Failed => a' = a
  | FilteredByDedup key => set_has key a = true /\ a' = a
  | FilteredByAge key | FilteredByMarket key => set_has key a = false /\ a' = a
  | Alerted key => set_has key a = false /\ a' = markAlerted key a
  end.

(** The alerted set is [a] before the events with the exits [os] and [a']
    after them. *)
Fixpoint set_history (a : list string) (os : list Outcome) (a' : list string) :
    Prop :=
  match os with
  | [] => a' = a
  | o :: rest => exists a1, set_effect o a a1 /\ set_history a1 rest a'
  end.

(** Amounts for which the arithmetic of the key is exact in the doubles of
    the source: fills below 800 million USDC.  [makerAmountFilled] counts
    millionths. *)
Definition modest_amount (makerAmountFilled : N) : Prop :=
  (makerAmountFilled < 800000000000000)%N.

Definition modest (event : Event) : Prop :=
  match event with
  | EventLog args => modest_amount (makerAmountFilled args)
  | Log => True
  end.

(** A rational that a double holds: an integer of at most 53 bits, times or
    over a power of two of moderate exponent. *)
Definition is_double (q : Q) : Prop :=
  exists m e : Z,
    Z.abs m < 2 ^ 53 /\ 0 <= e <= 64 /\
    (q == inject_Z (m * 2 ^ e) \/ q == inject_Z m / inject_Z (2 ^ e))%Q.

(** What the statements use of the rounding of the arithmetic of the source
    (round to nearest): it is monotone, and a result that a double holds is
    not changed. *)
Record rounding (rnd : Q -> Q) : Prop := {
  rnd_mono : forall x y, (x <= y)%Q -> (rnd x <= rnd y)%Q;
  rnd_exact : forall x, is_double x -> (rnd x == x)%Q
}.

(** [parseFloat (ethers.formatUnits (makerAmountFilled, 6))] in doubles: the
    decimal number is read with one rounding. *)
Definition tradeAmount_rounded (rnd : Q -> Q) (makerAmountFilled : N) : Q :=
  rnd (Z.of_N makerAmountFilled # 1000000).

(** [Math.floor (tradeAmount / 100) * 100] in doubles: the quotient and the
    product are rounded, the floor is exact. *)
Definition roundedAmount_rounded (rnd : Q -> Q) (tradeAmount : Q) : Q :=
  rnd (inject_Z (Qfloor (rnd (tradeAmount / (100 # 1))%Q)) * (100 # 1))%Q.

(** The chain carries no fill of 800 million USDC or more. *)
Definition modest_fills (env : Env) : Prop :=
  forall t fromBlock toBlock events,
    rpc_queryFilter env t fromBlock toBlock = Ok events -> Forall modest events.

(** ** Ticks that overlap

    [setInterval] starts a tick every [CHECK_INTERVAL] whether or not the
    one before has returned, and a tick gives up control at each of its
    [await]s.  The code between two [await]s runs without interruption: it
    is a function of the stores as they are when the awaited answer
    arrives.  [Async] holds the code of the tick once more, in this
    resumable form; the synchronous steps are those of the program above
    ([sync]), and run to completion it is the program above
    ([Async.processBlockchainEvents] completes as [processBlockchainEvents],
    proved below). *)

Module Async.

#[local] Set Warnings "-register-all".

(** A computation that has ended, or is suspended at an [await] and goes on
    from the stores it finds when it is resumed. *)
Inductive Susp (A : Type) : Type :=
| Done (r : result A)
| Await (k : State -> Susp A * State).
Arguments Done {A} r.
Arguments Await {A} k.

(** Code that runs from the present stores to its end or its first
    [await]. *)
Definition C (A : Type) : Type := State -> Susp A * State.

Definition ret {A} (a : A) : C A := fun s => (Done (Ok a), s).

Definition throw {A} : C A := fun s => (Done Err, s).

(** A step that does not wait: a read or write of a store, or the clock. *)
Definition sync {A} (m : M A) : C A :=
  fun s => let (r, s') := m s in (Done r, s').

(** [await] of a call to the outside: the answer, which may depend on all
    that has happened by then, is there when the code is resumed. *)
Definition await {A} (ask : list IO -> result A) (ev : result A -> IO) : C A :=
  fun s =>
    (Await (fun s' => let r := ask (trace s') in (Done r, record (ev r) s')), s).

Fixpoint bind_susp {A B} (x : Susp A) (f : A -> C B) (s : State) :
    Susp B * State :=
  match x with
  | Done (Ok a) => f a s
  | Done Err => (Done Err, s)
  | Await k =>
      (Await (fun s' => let (x', s'') := k s' in bind_susp x' f s''), s)
  end.

Definition bind {A B} (m : C A) (f : A -> C B) : C B :=
  fun s => let (x, s') := m s in bind_susp x f s'.

Fixpoint catch_susp {A} (x : Susp A) (h : C A) (s : State) : Susp A * State :=
  match x with
  | Done (Ok a) => (Done (Ok a), s)
  | Done Err => h s
  | Await k =>
      (Await (fun s' => let (x', s'') := k s' in catch_susp x' h s''), s)
  end.

(** [try { m } catch (e) { h }] *)
Definition try_catch {A} (m : C A) (h : C A) : C A :=
  fun s => let (x, s') := m s in catch_susp x h s'.

Declare Scope async_scope.
Notation "x <- m ;; k" := (bind m (fun x => k))
  (at level 100, m at next level, right associativity) : async_scope.
Notation "m ;;; k" := (bind m (fun _ => k))
  (at level 100, right associativity) : async_scope.
#[local] Open Scope async_scope.

Section Program.

Variable cfg : Config.
Variable env : Env.

(** *** Calls to the outside *)

Definition getBlockNumber : C Z :=
  await (rpc_getBlockNumber env) GetBlockNumber.

Definition getTransactionCount (address : string) : C Z :=
  await (fun t => rpc_getTransactionCount env t address)
        (GetTransactionCount address).

Definition getBalance (address : string) (block : Z) : C Z :=
  await (fun t => rpc_getBalance env t address block) (GetBalance address block).

Definition getBlock (block : Z) : C (option Z) :=
  await (fun t => rpc_getBlock env t block) (GetBlock block).

Definition queryFilter (fromBlock toBlock : Z) : C (list Event) :=
  await (fun t => rpc_queryFilter env t fromBlock toBlock)
        (QueryFilter fromBlock toBlock).

Definition axios_get_markets (conditionId : string) : C (list Market) :=
  await (fun t => gamma_markets env t conditionId) (MarketsGet conditionId).

Definition axios_post (url : string) (e : Embed) : C unit :=
  await (fun t => discord_post env t url e) (WebhookPost url e).

(** [await new Promise (resolve => setTimeout (resolve, ms))] *)
Definition sleep (ms : Z) : C unit :=
  fun s => (Await (fun s' => (Done (Ok tt), record (Sleep ms) s')), s).

(** *** [checkWalletAge] *)

Fixpoint searchLoop (n : nat) (address : string)
    (currentBlock blocksToSearch firstTxBlock : Z) : C Z :=
  match n with
  | O => ret firstTxBlock
  | S n' =>
      let midBlock := midBlockOf currentBlock blocksToSearch firstTxBlock in
      balance <- getBalance address midBlock ;;
      searchLoop n' address currentBlock blocksToSearch
        (if balance >? 0 then midBlock else firstTxBlock)
  end.

Definition searchWalletAge (address : string) : C WalletInfo :=
  currentBlock <- getBlockNumber ;;
  let blocksToSearch := Z.min 10000 currentBlock in
  firstTxBlock <- searchLoop 5 address currentBlock blocksToSearch currentBlock ;;
  block <- getBlock firstTxBlock ;;
  match block with
  | None => throw
  | Some timestamp =>
      let firstSeenTimestamp := timestamp * 1000 in
      now <- sync (dateNow env) ;;
      let ageInMs := now - firstSeenTimestamp in
      let ageInDays := ageInMs / DAY_MS in
      sync (walletFirstSeen_set address firstSeenTimestamp) ;;;
      ret (ageRecord cfg ageInDays)
  end.

Definition checkWalletAge (address : string) : C WalletInfo :=
  try_catch
    (cached <- sync (walletFirstSeen_get address) ;;
     match cached with
     | Some firstSeenTime =>
         now <- sync (dateNow env) ;;
         ret (ageRecord cfg ((now - firstSeenTime) / DAY_MS))
     | None =>
         txCount <- getTransactionCount address ;;
         if txCount <=? 10
         then try_catch (searchWalletAge address) (ret lowTxRecord)
         else ret (establishedRecord txCount)
     end)
    (ret unknownAgeRecord).

(** *** [getMarketByConditionId] *)

Definition getMarketByConditionId (conditionId : string) : C (option Market) :=
  try_catch
    (data <- axios_get_markets conditionId ;;
     ret (head data))
    (ret None).

(** *** [sendDiscordAlert] *)

Definition sendDiscordAlert (tradeData : TradeData) (walletInfo : WalletInfo)
    (market : option Market) : C unit :=
  if String.eqb (DISCORD_WEBHOOK cfg) "" then ret tt
  else
    try_catch
      (let marketUrl :=
         match market with
         | Some m => if String.eqb (slug m) "" then "https://polymarket.com"
                     else "https://polymarket.com/event/" +:+ slug m
         | None => "https://polymarket.com"
         end in
       let marketTitle :=
         match market with
         | Some m => or_str (question m) (or_str (title m) "Unknown Market")
         | None => "Unknown Market (Check Polymarket)"
         end in
       iso <- sync (dateIso env) ;;
       axios_post (DISCORD_WEBHOOK cfg)
         {| embedMarket := marketTitle;
            embedAmount := amount tradeData;
            embedPosition := outcome tradeData;
            embedWalletAge := description walletInfo;
            embedWallet := wallet tradeData;
            embedMarketUrl := marketUrl;
            embedTimestamp := iso |})
      (ret tt).

(** *** [processBlockchainEvents] *)

Definition processEvent (event : Event) : C Outcome :=
  try_catch
    (args <- sync (event_args event) ;;
     let tradeAmount := tradeAmountOf (makerAmountFilled args) in
     if Qlt_bool tradeAmount (MIN_BET_AMOUNT cfg) then ret FilteredByAmount
     else
       iso <- sync (dateIso env) ;;
       let today := before_T iso in
       let alertKey := alertKeyOf args today in
       seen <- sync (alertedTrades_has alertKey) ;;
       if seen then ret (FilteredByDedup alertKey)
       else
         walletInfo <- checkWalletAge (maker args) ;;
         if negb (isNew walletInfo) then ret (FilteredByAge alertKey)
         else
           let conditionId := slice_first 66 (pretty (makerAssetId args)) in
           market <- getMarketByConditionId conditionId ;;
           match market with
           | None => ret (FilteredByMarket alertKey)
           | Some m =>
               if closedOrInactive m then ret (FilteredByMarket alertKey)
               else
                 let tradeData :=
                   {| wallet := maker args;
                      amount := tradeAmount;
                      outcome := getOutcomeFromAssetId (makerAssetId args);
                      tradeOrderHash := orderHash args |} in
                 sendDiscordAlert tradeData walletInfo (Some m) ;;;
                 sync (alertedTrades_update (set_add alertKey)) ;;;
                 sync (alertedTrades_update evictOldest) ;;;
                 sleep 2000 ;;;
                 ret (Alerted alertKey)
           end)
    (ret Failed).

Fixpoint processEvents (events : list Event) : C (list Outcome) :=
  match events with
  | [] => ret []
  | event :: rest =>
      o <- processEvent event ;;
      os <- processEvents rest ;;
      ret (o :: os)
  end.

Definition processBlockchainEvents : C TickOutcome :=
  try_catch
    (currentBlock <- getBlockNumber ;;
     lastProcessed <- sync get_lastProcessedBlock ;;
     if currentBlock <=? lastProcessed then ret NoNewBlocks
     else
       let toBlock := Z.min currentBlock (lastProcessed + maxBlockRange) in
       events <- queryFilter (lastProcessed + 1) toBlock ;;
       outcomes <- processEvents events ;;
       sync (set_lastProcessedBlock toBlock) ;;;
       ret (ScanComplete (lastProcessed + 1) toBlock outcomes))
    (ret ScanError).

(** *** The ticks in flight *)

(** The stores, and the ticks started so far, in the order they were
    started. *)
Record World := {
  store : State;
  tasks : list (Susp TickOutcome)
}.

Definition idle (s : State) : World := {| store := s; tasks := [] |}.

(** What can happen next: the interval fires and starts a tick, or the
    answer that tick [i] waits for arrives. *)
Inductive Action :=
| Fire
| Resume (i : nat).

Definition act (a : Action) (w : World) : World :=
  match a with
  | Fire =>
      let (x, s') := processBlockchainEvents (store w) in
      {| store := s'; tasks := tasks w ++ [x] |}
  | Resume i =>
      match tasks w !! i with
      | Some (Await k) =>
          let (x, s') := k (store w) in
          {| store := s'; tasks := <[i := x]> (tasks w) |}
      | _ => w
      end
  end.

Definition run (schedule : list Action) (w : World) : World :=
  foldl (fun w a => act a w) w schedule.

End Program.

Definition ended {A} (x : Susp A) : bool :=
  match x with
  | Done _ => true
  | Await _ => false
  end.

(** No tick is in flight. *)
Definition quiescent (w : World) : bool := forallb ended (tasks w).

(** The schedules in which the interval only fires when no tick is in
    flight. *)
Fixpoint no_overlap (cfg : Config) (env : Env) (schedule : list Action)
    (w : World) : bool :=
  match schedule with
  | [] => true
  | a :: rest =>
      match a with
      | Fire => quiescent w
      | Resume _ => true
      end && no_overlap cfg env rest (act cfg env a w)
  end.

Definition fires (schedule : list Action) : nat :=
  length (List.filter (fun a => match a with Fire => true | _ => false end)
            schedule).

(** How the ticks that have ended ended. *)
Definition endings (w : World) : list (result TickOutcome) :=
  omap (fun x => match x with Done r => Some r | Await _ => None end) (tasks w).

(** A tick that has returned. *)
Definition returned (o : TickOutcome) : Susp TickOutcome := Done (Ok o).

(** Running a suspended computation on, with nothing in between, until it
    ends. *)
Inductive finishes {A} : Susp A -> State -> result A -> State -> Prop :=
| finishes_done r s : finishes (Done r) s r s
| finishes_await k s x s1 r s2 :
    k s = (x, s1) -> finishes x s1 r s2 -> finishes (Await k) s r s2.

(** [c] run to completion is [m]. *)
Definition completes {A} (c : C A) (m : M A) : Prop :=
  forall s, finishes (c s).1 (c s).2 (m s).1 (m s).2.

End Async.

(** The worlds that schedules without overlap go through, from the stores
    [s0]: [n] ticks have been started, and either all have returned, or the
    last one is in flight and will end as the tick of the program does. *)
Inductive sequential_world (cfg : Config) (env : Env) (s0 : State) :
    Async.World -> nat -> Prop :=
| world_idle n os sn :
    ticks cfg env n s0 = (Ok os, sn) ->
    sequential_world cfg env s0
      {| Async.store := sn; Async.tasks := Async.returned <$> os |} n
| world_pending n os sn o s' k st :
    ticks cfg env n s0 = (Ok os, sn) ->
    processBlockchainEvents cfg env sn = (Ok o, s') ->
    Async.finishes (Async.Await k) st (Ok o) s' ->
    sequential_world cfg env s0
      {| Async.store := st;
         Async.tasks := (Async.returned <$> os) ++ [Async.Await k] |} (S n).

(** The exits of the events of the ticks that have ended, tick by tick in
    the order the ticks were started. *)
Definition world_outcomes (w : Async.World) : list Outcome :=
  concat ((fun r => match r with Ok o => exits o | Err => [] end)
            <$> Async.endings w).

(** The height queries answered so far. *)
Definition heights_read (t : list IO) : nat :=
  length (List.filter (fun e => match e with GetBlockNumber _ => true | _ => false end) t).


(** A tick that is started and then resumed until it has returned: at the
    height, at the logs. *)
Definition one_tick (i : nat) : list Async.Action :=
  [Async.Fire; Async.Resume i; Async.Resume i].

(** A tick that is started and then resumed [n] times. *)
Definition long_tick (i n : nat) : list Async.Action :=
  Async.Fire :: replicate n (Async.Resume i).


(** A chain that grows by a block with every height query; every log query
    answers the same fill of $50,000 by [whale]; wallets are new and the
    market is active. *)
Definition busy_env : Env :=
  {| rpc_getBlockNumber := fun t => Ok (1001 + Z.of_nat (heights_read t));
     rpc_getTransactionCount := rpc_getTransactionCount quiet_env;
     rpc_getBalance := rpc_getBalance quiet_env;
     rpc_getBlock := rpc_getBlock quiet_env;
     rpc_queryFilter := fun _ _ _ => Ok [fill 50000];
     gamma_markets := gamma_markets quiet_env;
     discord_post := discord_post quiet_env;
     date_now := date_now quiet_env;
     date_iso := date_iso quiet_env |}.

(** Two ticks are started one after the other and both get as far as the
    wallet check of the fill (the dedup check lies behind them) before
    either goes on; then the first runs to its end, then the second. *)
Definition both_in_flight : list Async.Action :=
  [Async.Fire; Async.Resume 0; Async.Resume 0;
   Async.Fire; Async.Resume 1; Async.Resume 1]
  ++ replicate 11 (Async.Resume 0) ++ replicate 11 (Async.Resume 1).

(** The busy chain, with blocks stamped one second apart. *)
Definition dated_env : Env :=
  {| rpc_getBlockNumber := rpc_getBlockNumber busy_env;
     rpc_getTransactionCount := rpc_getTransactionCount busy_env;
     rpc_getBalance := rpc_getBalance busy_env;
     rpc_getBlock := fun _ blockNumber => Ok (Some (1699990000 + blockNumber));
     rpc_queryFilter := rpc_queryFilter busy_env;
     gamma_markets := gamma_markets busy_env;
     discord_post := discord_post busy_env;
     date_now := date_now busy_env;
     date_iso := date_iso busy_env |}.

(** The quiet chain, but the timestamp of its blocks is 2 seconds ahead of
    the clock of the server. *)
Definition ahead_env : Env :=
  {| rpc_getBlockNumber := rpc_getBlockNumber quiet_env;
     rpc_getTransactionCount := rpc_getTransactionCount quiet_env;
     rpc_getBalance := rpc_getBalance quiet_env;
     rpc_getBlock := fun _ _ => Ok (Some 1700000007);
     rpc_queryFilter := rpc_queryFilter quiet_env;
     gamma_markets := gamma_markets quiet_env;
     discord_post := discord_post quiet_env;
     date_now := date_now quiet_env;
     date_iso := date_iso quiet_env |}.

(** The quiet chain, but the node lags: the block it calls current was
    stamped more than two days before the clock of the server. *)
Definition lagging_env : Env :=
  {| rpc_getBlockNumber := rpc_getBlockNumber quiet_env;
     rpc_getTransactionCount := rpc_getTransactionCount quiet_env;
     rpc_getBalance := rpc_getBalance quiet_env;
     rpc_getBlock := fun _ _ => Ok (Some 1699800000);
     rpc_queryFilter := rpc_queryFilter quiet_env;
     gamma_markets := gamma_markets quiet_env;
     discord_post := discord_post quiet_env;
     date_now := date_now quiet_env;
     date_iso := date_iso quiet_env |}.

(** [NEW_ACCOUNT_DAYS=-1] in the environment of the server. *)
Definition strict_config : Config :=
  {| DISCORD_WEBHOOK := ""; MIN_BET_AMOUNT := 10000 # 1;
     NEW_ACCOUNT_DAYS := -1 |}.

(** ** The first edition of the server: polling the Polymarket API

    [src/server.js] holds two editions of the server.  The first one (its
    first 298 lines) polls the Gamma and CLOB HTTP APIs instead of the
    chain.  It has its own stores and calls, and is embedded here in a
    module of its own, with the same conventions: [result], [Config], the
    list model of a JS [Set] and a trace of the calls.  A JSON string field
    that is absent is the empty string; [price] and [size] hold the double
    that [parseFloat (field || 0)] makes of the field, and their product is
    the product of doubles (binary64 of the Standard Library's [SpecFloat]);
    [createdAt] is a JSON integer, a text that does not read as a number
    (an ISO date, say), or absent; the days of an age are exact integers:
    the quotients taken there are far below the size at which a double
    would round them to the next integer.  The body of a reply that should
    be a list is an array, whose elements are objects or [null], or
    something that is no array; the fields of the objects have the types
    above.  A scan is run to completion. *)

Module Api.

(** A JS number: a double, which may be NaN or infinite. *)
Definition Num : Type := spec_float.

(** [a * b] *)
Definition mul (a b : Num) : Num := SFmul 53 1024 a b.

(** The rational that a finite double holds. *)
Definition valueOf (s : bool) (m : positive) (e : Z) : Q :=
  (inject_Z (cond_Zopp s (Z.pos m)) * (2 # 1) ^ e)%Q.

(** [a < b] for a double [a] and a finite number [b]; it is false when [a]
    is NaN. *)
Definition lt (a : Num) (b : Q) : bool :=
  match a with
  | S754_zero _ => Qlt_bool 0 b
  | S754_infinity s => s
  | S754_nan => false
  | S754_finite s m e => Qlt_bool (valueOf s m e) b
  end.

(** The double nearest to [m * 2 ^ e]. *)
Definition double (m e : Z) : Num := binary_normalize 53 1024 m e false.

(** The body of a reply that should be a list: a JSON array, whose elements
    are objects ([Some]) or [null] ([None]), or a value that is no array
    (an object, a number, [true]), which has no [slice] and cannot be
    iterated.  A body that is [null], [false], 0 or empty gives way to [[]]
    by [response.data || []], and is the empty array here.  A string read
    as a list, or an element that is a number, a string or a boolean, has
    none of the fields that are read, like an object without fields. *)
Inductive Reply (A : Type) : Type :=
| Items (l : list (option A))
| NotArray.
Arguments Items {A} l.
Arguments NotArray {A}.

Record Trade := {
  id : string;
  trade_id : string;
  price : Num;
  size : Num;
  maker_address : string;
  maker : string;
  user : string;
  outcome : string;
  asset_id : string
}.

Record Market := {
  condition_id : string;
  conditionId : string;
  question : string;
  title : string;
  slug : string;
  market_slug : string
}.

Inductive CreatedAt :=
| CreatedMissing
| CreatedNumber (n : Z)
| CreatedText.

Record UserData := {
  createdAt : CreatedAt
}.

(** [!!createdAt] *)
Definition truthy (c : CreatedAt) : bool :=
  match c with
  | CreatedMissing => false
  | CreatedNumber n => negb (n =? 0)
  | CreatedText => true
  end.

(** The [description] of an account age, by the template that builds it;
    [AccountAgeDays None] is `Account age: NaN days`. *)
Inductive AgeDescription :=
| NoCreationDate                (* 'Unknown (No creation date)' *)
| CreatedToday                  (* '🆕 Brand New Account - Created Today!' *)
| CreatedYesterday              (* '🆕 New Account - Created Yesterday' *)
| NewAccountDays (ageInDays : Z)   (* `🆕 New Account - ${ageInDays} days old` *)
| AccountAgeDays (ageInDays : option Z)  (* `Account age: ${ageInDays} days` *)
| ErrorParsingDate.             (* 'Unknown (Error parsing date)' *)

Record AccountAge := {
  isNew : bool;
  description : AgeDescription
}.

Inductive Position := YES | NO | UNKNOWN.

Record Embed := {
  embedMarket : string;
  embedAmount : Num;
  embedPosition : Position;
  embedAccountAge : AgeDescription;
  embedMarketUrl : string;
  embedTimestamp : string
}.

Definition MAX_STORED_ALERTS : Z := 10000.

Inductive IO :=
| MarketsGet (r : result (Reply Market))
| TradesGet (conditionId : string) (r : result (Reply Trade))
| UserGet (address : string) (r : result (option UserData))
| WebhookPost (url : string) (e : Embed) (r : result unit)
| DateNow (ms : Z)
| DateIso (iso : string)
| Sleep (ms : Z).

Record Env := {
  gamma_markets : list IO -> result (Reply Market);
  clob_trades : list IO -> string -> result (Reply Trade);
  gamma_user : list IO -> string -> result (option UserData);
  discord_post : list IO -> string -> Embed -> result unit;
  date_now : list IO -> Z;
  date_iso : list IO -> string
}.

Record State := {
  alertedOrders : list string;
  trace : list IO
}.

Definition initial_state : State := {| alertedOrders := []; trace := [] |}.

Definition M (A : Type) : Type := State -> result A * State.

Definition ret {A} (a : A) : M A := fun s => (Ok a, s).

Definition throw {A} : M A := fun s => (Err, s).

Definition bind {A B} (m : M A) (k : A -> M B) : M B :=
  fun s => match m s with
           | (Ok a, s') => k a s'
           | (Err, s') => (Err, s')
           end.

Definition try_catch {A} (m : M A) (h : M A) : M A :=
  fun s => match m s with
           | (Ok a, s') => (Ok a, s')
           | (Err, s') => h s'
           end.

Definition record (e : IO) (s : State) : State :=
  {| alertedOrders := alertedOrders s; trace := e :: trace s |}.

Definition await {A} (ask : list IO -> result A) (ev : result A -> IO) : M A :=
  fun s => let r := ask (trace s) in (r, record (ev r) s).

Definition read {A} (ask : list IO -> A) (ev : A -> IO) : M A :=
  fun s => let a := ask (trace s) in (Ok a, record (ev a) s).

Definition sleep (ms : Z) : M unit := fun s => (Ok tt, record (Sleep ms) s).

Definition alertedOrders_update (f : list string -> list string) : M unit :=
  fun s => (Ok tt, {| alertedOrders := f (alertedOrders s); trace := trace s |}).

(** [s.includes (pat)] *)
Fixpoint includes (pat s : string) : bool :=
  if String.prefix pat s then true
  else match s with
       | EmptyString => false
       | String _ r => includes pat r
       end.

(** A [Date] holds a time within 8.64e15 ms of the epoch, or is invalid. *)
Definition timeClip (t : Z) : option Z :=
  if Z.abs t <=? 8640000000000000 then Some t else None.

(** [if (set.size > MAX_STORED_ALERTS) set.delete (set.values ().next ().value)] *)
Definition evictOldest (s : list string) : list string :=
  if Z.of_nat (length s) >? MAX_STORED_ALERTS then
    match s with
    | firstItem :: _ => set_delete firstItem s
    | [] => s
    end
  else s.

Section Program.

Variable cfg : Config.
Variable env : Env.

(** [getActiveMarkets] *)
Definition getActiveMarkets : M (Reply Market) :=
  try_catch (await (gamma_markets env) MarketsGet) (ret (Items [])).

(** [getMarketTrades] *)
Definition getMarketTrades (conditionId : string) : M (Reply Trade) :=
  try_catch
    (await (fun t => clob_trades env t conditionId) (TradesGet conditionId))
    (ret (Items [])).

(** [getUserInfo] *)
Definition getUserInfo (address : string) : M (option UserData) :=
  try_catch
    (await (fun t => gamma_user env t address) (UserGet address))
    (ret None).

(** [new Date (createdAt > 10000000000 ? createdAt : createdAt * 1000)];
    what is not a number compares false and multiplies to NaN. *)
Definition createdDateOf (createdAt : CreatedAt) : option Z :=
  match createdAt with
  | CreatedNumber c =>
      timeClip (if c >? 10000000000 then c else c * 1000)
  | CreatedMissing | CreatedText => None
  end.

(** The [try] block of [checkAccountAge], with the clock read. *)
Definition accountAgeAt (now : Z) (createdAt : CreatedAt) : AccountAge :=
  match createdDateOf createdAt with
  | None =>
      (* the date is invalid, [ageInDays] is NaN and [NaN <= n] is false *)
      {| isNew := false; description := AccountAgeDays None |}
  | Some createdDate =>
      let ageInDays := (now - createdDate) / DAY_MS in
      if ageInDays <=? NEW_ACCOUNT_DAYS cfg then
        if ageInDays =? 0 then
          {| isNew := true; description := CreatedToday |}
        else if ageInDays =? 1 then
          {| isNew := true; description := CreatedYesterday |}
        else {| isNew := true; description := NewAccountDays ageInDays |}
      else {| isNew := false; description := AccountAgeDays (Some ageInDays) |}
  end.

(** [checkAccountAge]; nothing in its [try] block throws on a number. *)
Definition checkAccountAge (userData : option UserData) : M AccountAge :=
  match userData with
  | None => ret {| isNew := true; description := NoCreationDate |}
  | Some u =>
      if negb (truthy (createdAt u))
      then ret {| isNew := true; description := NoCreationDate |}
      else
        bind (read (date_now env) DateNow) (fun now =>
        ret (accountAgeAt now (createdAt u)))
  end.

(** The position shown in the alert. *)
Definition positionOf (trade : Trade) : Position :=
  let o := or_str (outcome trade) (asset_id trade) in
  if includes "yes" (toLowerCase o) || String.eqb o "1" then YES
  else if includes "no" (toLowerCase o) || String.eqb o "0" then NO
  else UNKNOWN.

(** The embed built by [sendDiscordAlert]. *)
Definition embedOf (market : Market) (trade : Trade)
    (accountAgeDesc : AgeDescription) (iso : string) : Embed :=
  let position := positionOf trade in
  let betAmount := mul (price trade) (size trade) in
  let marketSlug := or_str (slug market) (market_slug market) in
  let marketUrl :=
    if String.eqb marketSlug "" then "N/A"
    else "https://polymarket.com/event/" +:+ marketSlug in
  {| embedMarket :=
       or_str (question market) (or_str (title market) "Unknown Market");
     embedAmount := betAmount;
     embedPosition := position;
     embedAccountAge := accountAgeDesc;
     embedMarketUrl := marketUrl;
     embedTimestamp := iso |}.

(** [sendDiscordAlert] *)
Definition sendDiscordAlert (market : Market) (trade : Trade)
    (accountAgeDesc : AgeDescription) : M unit :=
  if String.eqb (DISCORD_WEBHOOK cfg) "" then ret tt
  else
    try_catch
      (bind (read (date_iso env) DateIso) (fun iso =>
       let embed := embedOf market trade accountAgeDesc iso in
       await (fun t => discord_post env t (DISCORD_WEBHOOK cfg) embed)
             (WebhookPost (DISCORD_WEBHOOK cfg) embed)))
      (ret tt).

(** Where the body of the loop over the trades leaves a trade. *)
Inductive Outcome :=
| SkippedById          (* no id, or an id that was alerted *)
| SkippedByAmount
| SkippedNoUser
| NotNew
| Alerted (tradeId : string).

(** The body of [for (const trade of trades)]. *)
Definition processTrade (market : Market) (trade : Trade) : M Outcome :=
  let tradeId := or_str (id trade) (trade_id trade) in
  fun s =>
    if String.eqb tradeId "" || set_has tradeId (alertedOrders s)
    then (Ok SkippedById, s)
    else
      let tradeAmount := mul (price trade) (size trade) in
      if lt tradeAmount (MIN_BET_AMOUNT cfg) then (Ok SkippedByAmount, s)
      else
        let userAddress :=
          or_str (maker_address trade) (or_str (maker trade) (user trade)) in
        if String.eqb userAddress "" then (Ok SkippedNoUser, s)
        else
          bind (getUserInfo userAddress) (fun userData =>
          bind (checkAccountAge userData) (fun accountAge =>
          if isNew accountAge then
            bind (sendDiscordAlert market trade (description accountAge)) (fun _ =>
            bind (alertedOrders_update (set_add tradeId)) (fun _ =>
            bind (alertedOrders_update evictOldest) (fun _ =>
            bind (sleep 100) (fun _ =>
            ret (Alerted tradeId)))))
          else
            bind (sleep 100) (fun _ => ret NotNew))) s.

(** [for (const trade of trades) { ... }]; reading [trade.id] of [null]
    throws. *)
Fixpoint processTrades (market : Market) (trades : list (option Trade)) :
    M (list Outcome) :=
  match trades with
  | [] => ret []
  | None :: _ => throw
  | Some trade :: rest =>
      bind (processTrade market trade) (fun o =>
      bind (processTrades market rest) (fun os =>
      ret (o :: os)))
  end.

(** Where the body of the loop over the markets leaves a market. *)
Inductive MarketOutcome :=
| NoConditionId
| Scanned (outs : list Outcome)
| MarketError.

(** The body of [for (const market of markets.slice (0, 20))], with its
    [try]/[catch]: reading [market.condition_id] of [null] throws, and so
    does the loop over trades that cannot be iterated. *)
Definition processMarket (market : option Market) : M MarketOutcome :=
  try_catch
    (match market with
     | None => throw
     | Some market =>
         let conditionId := or_str (condition_id market) (conditionId market) in
         if String.eqb conditionId "" then ret NoConditionId
         else
           bind (getMarketTrades conditionId) (fun trades =>
           match trades with
           | NotArray => throw
           | Items trades =>
               bind (processTrades market trades) (fun os =>
               bind (sleep 500) (fun _ =>
               ret (Scanned os)))
           end)
     end)
    (ret MarketError).

Fixpoint processMarkets (markets : list (option Market)) :
    M (list MarketOutcome) :=
  match markets with
  | [] => ret []
  | market :: rest =>
      bind (processMarket market) (fun o =>
      bind (processMarkets rest) (fun os =>
      ret (o :: os)))
  end.

(** [monitorMarkets]; [markets.slice] of what is no array throws, outside
    every [try]. *)
Definition monitorMarkets : M (list MarketOutcome) :=
  bind getActiveMarkets (fun markets =>
  match markets with
  | NotArray => throw
  | Items markets => processMarkets (take 20 markets)
  end).

(** What [/health] and [/status] report of the store. *)
Definition alertsTracked (s : State) : Z := Z.of_nat (length (alertedOrders s)).

End Program.

(** *** Vocabulary of the statements about the first edition *)

(** The calls made on the way from [s] to [s'], in the order they were
    made. *)
Definition calls_during (s s' : State) : list IO :=
  rev (take (length (trace s') - length (trace s)) (trace s')).

(** [s] after the calls [l], made in this order. *)
Definition records (l : list IO) (s : State) : State :=
  {| alertedOrders := alertedOrders s; trace := rev l ++ trace s |}.

(** The markets whose trades were asked for, in the order of the calls. *)
Definition queried (l : list IO) : list string :=
  omap (fun e => match e with TradesGet c _ => Some c | _ => None end) l.

(** The addresses whose user record was asked for. *)
Definition looked_up (l : list IO) : list string :=
  omap (fun e => match e with UserGet a _ => Some a | _ => None end) l.

(** The embeds posted to the webhook. *)
Definition posted (l : list IO) : list Embed :=
  omap (fun e => match e with WebhookPost _ e _ => Some e | _ => None end) l.

(** The pauses taken, in milliseconds. *)
Definition pauses (l : list IO) : list Z :=
  omap (fun e => match e with Sleep ms => Some ms | _ => None end) l.

Definition tradeIdOf (trade : Trade) : string :=
  or_str (id trade) (trade_id trade).

Definition userAddressOf (trade : Trade) : string :=
  or_str (maker_address trade) (or_str (maker trade) (user trade)).

Definition conditionIdOf (market : Market) : string :=
  or_str (condition_id market) (conditionId market).

(** The trades that get past the three [continue]s of the loop when the
    store holds [orders]. *)
Definition reaches_lookup (cfg : Config) (orders : list string)
    (trade : Trade) : bool :=
  negb (String.eqb (tradeIdOf trade) "")
  && negb (set_has (tradeIdOf trade) orders)
  && negb (lt (mul (price trade) (size trade)) (MIN_BET_AMOUNT cfg))
  && negb (String.eqb (userAddressOf trade) "").

(** A trade large enough for an alert, whatever the store holds. *)
Definition large (cfg : Config) (trade : Trade) : bool :=
  negb (String.eqb (tradeIdOf trade) "")
  && negb (lt (mul (price trade) (size trade)) (MIN_BET_AMOUNT cfg))
  && negb (String.eqb (userAddressOf trade) "").

(** The answer [getUserInfo] makes of the reply to its request. *)
Definition userDataOf (r : result (option UserData)) : option UserData :=
  match r with
  | Ok u => u
  | Err => None
  end.

(** What the helpers make of the reply to a request for a list: a failed
    request counts as the empty array. *)
Definition replyOf {A} (r : result (Reply A)) : Reply A :=
  match r with
  | Ok reply => reply
  | Err => Items []
  end.

(** The elements of a reply, none when it is no array. *)
Definition itemsOf {A} (reply : Reply A) : list (option A) :=
  match reply with
  | Items l => l
  | NotArray => []
  end.

(** The objects among the elements [l]. *)
Definition objects {A} (l : list (option A)) : list A :=
  omap (fun x => x) l.

(** The objects in front of the first [null] of [l]. *)
Fixpoint before_null {A} (l : list (option A)) : list A :=
  match l with
  | Some a :: rest => a :: before_null rest
  | _ => []
  end.

(** Whether one of the elements [l] is [null]. *)
Definition has_null {A} (l : list (option A)) : bool :=
  existsb (fun x => match x with None => true | Some _ => false end) l.

(** A reply that cannot be read as a list of objects: it is no array, or
    one of its elements is [null]. *)
Definition unreadable {A} (reply : Reply A) : bool :=
  match reply with
  | Items l => has_null l
  | NotArray => true
  end.

(** Whether [checkAccountAge] gets as far as reading the clock. *)
Definition reads_clock (userData : option UserData) : bool :=
  match userData with
  | None => false
  | Some u => truthy (createdAt u)
  end.

(** The age [checkAccountAge] finds when the clock shows [now]. *)
Definition accountAgeOf (cfg : Config) (now : Z)
    (userData : option UserData) : AccountAge :=
  match userData with
  | None => {| isNew := true; description := NoCreationDate |}
  | Some u =>
      if truthy (createdAt u) then accountAgeAt cfg now (createdAt u)
      else {| isNew := true; description := NoCreationDate |}
  end.

(** The calls of [checkAccountAge] after the calls [t]. *)
Definition age_calls (env : Env) (t : list IO)
    (userData : option UserData) : list IO :=
  if reads_clock userData then [DateNow (date_now env t)] else [].

(** The calls of [sendDiscordAlert] after the calls [t]. *)
Definition post_calls (cfg : Config) (env : Env) (t : list IO)
    (market : Market) (trade : Trade) (desc : AgeDescription) : list IO :=
  if String.eqb (DISCORD_WEBHOOK cfg) "" then []
  else
    let iso := date_iso env t in
    let embed := embedOf market trade desc iso in
    [DateIso iso;
     WebhookPost (DISCORD_WEBHOOK cfg) embed
       (discord_post env (DateIso iso :: t) (DISCORD_WEBHOOK cfg) embed)].

(** The calls of the loop body for a trade that gets past the three
    [continue]s, after the calls [t], and the age it finds. *)
Definition lookup_of (env : Env) (t : list IO) (trade : Trade) :
    result (option UserData) :=
  gamma_user env t (userAddressOf trade).

Definition age_of (cfg : Config) (env : Env) (t : list IO) (trade : Trade) :
    AccountAge :=
  let r := lookup_of env t trade in
  accountAgeOf cfg (date_now env (UserGet (userAddressOf trade) r :: t))
    (userDataOf r).

Definition trade_calls (cfg : Config) (env : Env) (t : list IO)
    (market : Market) (trade : Trade) : list IO :=
  let r := lookup_of env t trade in
  let t1 := UserGet (userAddressOf trade) r :: t in
  let c := age_calls env t1 (userDataOf r) in
  let age := age_of cfg env t trade in
  UserGet (userAddressOf trade) r :: c
    ++ (if isNew age
        then post_calls cfg env (rev c ++ t1) market trade (description age)
        else [])
    ++ [Sleep 100].

(** The store is within its bound and holds no id twice. *)
Definition orders_ok (s : State) : Prop :=
  Z.of_nat (length (alertedOrders s)) <= MAX_STORED_ALERTS /\
  NoDup (alertedOrders s).

(** The strings of decimal digits, as a token id is written. *)
Definition is_digit (c : ascii) : bool :=
  (48 <=? nat_of_ascii c)%nat && (nat_of_ascii c <=? 57)%nat.

Fixpoint all_digits (s : string) : bool :=
  match s with
  | EmptyString => true
  | String c r => is_digit c && all_digits r
  end.

(** The milliseconds [checkAccountAge] takes a number for. *)
Definition millisOf (c : Z) : Z :=
  if c >? 10000000000 then c else c * 1000.

(** Concrete inputs. *)
Definition big_trade : Trade :=
  {| id := "t1"; trade_id := ""; price := double 1 (-1);
     size := double 40000 0; maker_address := "0xabc"; maker := "";
     user := ""; outcome := "Yes"; asset_id := "" |}.

(** A trade at the price 0.066357 for the size 150700.001507, as doubles:
    the product of the decimal numbers is below 10000, the product of the
    doubles is 10000. *)
Definition edge_trade : Trade :=
  {| id := "t3"; trade_id := ""; price := double 4781525767574784 (-56);
     size := double 5178012623837726 (-35); maker_address := "0xabc";
     maker := ""; user := ""; outcome := "No"; asset_id := "" |}.

Definition some_market : Market :=
  {| condition_id := "0xc1"; conditionId := ""; question := "Q?";
     title := ""; slug := "q"; market_slug := "" |}.

(** A trade that names its outcome by the token id only. *)
Definition token_trade : Trade :=
  {| id := "t2"; trade_id := ""; price := double 1 (-1);
     size := double 40000 0; maker_address := "0xabc"; maker := "";
     user := ""; outcome := "";
     asset_id := "21742633143463906290569050155826241533067272736897614950488156847949938836455" |}.

(** One market with one trade of $20,000; the user request fails. *)
Definition unknown_user_env : Env :=
  {| gamma_markets := fun _ => Ok (Items [Some some_market]);
     clob_trades := fun _ _ => Ok (Items [Some big_trade]);
     gamma_user := fun _ _ => Err;
     discord_post := fun _ _ _ => Ok tt;
     date_now := fun _ => 1700000000000;
     date_iso := fun _ => "2023-11-14T22:13:20.000Z" |}.

(** The same, with an account created in September 2020. *)
Definition old_user_env : Env :=
  {| gamma_markets := fun _ => Ok (Items [Some some_market]);
     clob_trades := fun _ _ => Ok (Items [Some big_trade]);
     gamma_user := fun _ _ =>
       Ok (Some {| createdAt := CreatedNumber 1600000000 |});
     discord_post := fun _ _ _ => Ok tt;
     date_now := fun _ => 1700000000000;
     date_iso := fun _ => "2023-11-14T22:13:20.000Z" |}.

Definition webhook_cfg : Config :=
  {| DISCORD_WEBHOOK := "https://discord.example/hook";
     MIN_BET_AMOUNT := 10000 # 1; NEW_ACCOUNT_DAYS := 7 |}.

(** The listing answers a [null], a market without condition id and
    [some_market]; the trades of a market are [edge_trade], a [null] and
    [big_trade]; the user request fails. *)
Definition ragged_env : Env :=
  {| gamma_markets := fun _ =>
       Ok (Items [None;
                  Some {| condition_id := ""; conditionId := "";
                          question := ""; title := ""; slug := "";
                          market_slug := "" |};
                  Some some_market]);
     clob_trades := fun _ _ =>
       Ok (Items [Some edge_trade; None; Some big_trade]);
     gamma_user := fun _ _ => Err;
     discord_post := fun _ _ _ => Ok tt;
     date_now := fun _ => 1700000000000;
     date_iso := fun _ => "2023-11-14T22:13:20.000Z" |}.

(** The listing answers an object that is no array. *)
Definition broken_env : Env :=
  {| gamma_markets := fun _ => Ok NotArray;
     clob_trades := fun _ _ => Ok NotArray;
     gamma_user := fun _ _ => Err;
     discord_post := fun _ _ _ => Ok tt;
     date_now := fun _ => 1700000000000;
     date_iso := fun _ => "2023-11-14T22:13:20.000Z" |}.

End Api.

(** * Properties *)

(** ** The alerted set *)

Section AlertedSet.

Implicit Types (key k : string) (s ks : list string).

Lemma set_has_true key s : set_has key s = true <-> key ∈ s.
Proof.
  unfold set_has. rewrite existsb_exists. split.
  - intros (x & Hin & Heq). apply String.eqb_eq in Heq. subst x.
    by apply list_elem_of_In.
  - intros Hin. exists key. split; [by apply list_elem_of_In|].
    apply String.eqb_refl.
Qed.

Lemma set_has_false key s : set_has key s = false <-> key ∉ s.
Proof.
  rewrite <- set_has_true. destruct (set_has key s); split; congruence.
Qed.

Lemma set_add_fresh key s : key ∉ s -> set_add key s = s ++ [key].
Proof. intros H. unfold set_add. apply set_has_false in H. by rewrite H. Qed.

Lemma set_add_present key s : key ∈ s -> set_add key s = s.
Proof. intros H. unfold set_add. apply set_has_true in H. by rewrite H. Qed.

Lemma length_set_add key s : (length (set_add key s) <= S (length s))%nat.
Proof.
  unfold set_add. destruct (set_has key s); [lia|].
  rewrite length_app. simpl. lia.
Qed.

Lemma set_delete_head key s : key ∉ s -> set_delete key (key :: s) = s.
Proof.
  intros Hnotin. unfold set_delete.
  rewrite filter_cons_False by (intros H; by apply H).
  induction s as [|x s IH]; [done|].
  apply not_elem_of_cons in Hnotin as [Hne Hnotin].
  rewrite filter_cons_True by congruence.
  f_equal. by apply IH.
Qed.

Lemma length_set_delete_head key s :
  (length (set_delete key (key :: s)) <= length s)%nat.
Proof.
  unfold set_delete. rewrite filter_cons_False by (intros H; by apply H).
  apply length_filter.
Qed.

Lemma evictOldest_small s :
  Z.of_nat (length s) <= MAX_STORED_ALERTS -> evictOldest s = s.
Proof.
  intros H. unfold evictOldest.
  destruct (Z.gtb_spec (Z.of_nat (length s)) MAX_STORED_ALERTS); [lia|done].
Qed.

Lemma evictOldest_full first rest :
  first ∉ rest ->
  MAX_STORED_ALERTS < Z.of_nat (length (first :: rest)) ->
  evictOldest (first :: rest) = rest.
Proof.
  intros Hnotin H. unfold evictOldest.
  destruct (Z.gtb_spec (Z.of_nat (length (first :: rest))) MAX_STORED_ALERTS);
    [|lia].
  by apply set_delete_head.
Qed.

Lemma length_evictOldest s :
  Z.of_nat (length s) <= MAX_STORED_ALERTS + 1 ->
  Z.of_nat (length (evictOldest s)) <= MAX_STORED_ALERTS.
Proof.
  intros H. unfold evictOldest.
  destruct (Z.gtb_spec (Z.of_nat (length s)) MAX_STORED_ALERTS); [|lia].
  destruct s as [|first rest]; [unfold MAX_STORED_ALERTS in *; simpl in *; lia|].
  pose proof (length_set_delete_head first rest). simpl in H. lia.
Qed.

Lemma length_markAlerted key s :
  Z.of_nat (length s) <= MAX_STORED_ALERTS ->
  Z.of_nat (length (markAlerted key s)) <= MAX_STORED_ALERTS.
Proof.
  intros H. unfold markAlerted. apply length_evictOldest.
  pose proof (length_set_add key s). lia.
Qed.

Lemma markAll_snoc s ks key :
  markAll s (ks ++ [key]) = markAlerted key (markAll s ks).
Proof. unfold markAll. by rewrite foldl_snoc. Qed.

(** Below the capacity nothing is evicted: the set is the keys in the order
    they were marked. *)
Lemma markAll_below_capacity ks :
  NoDup ks ->
  Z.of_nat (length ks) <= MAX_STORED_ALERTS ->
  markAll [] ks = ks.
Proof.
  induction ks as [|key ks IH] using rev_ind; [done|].
  intros Hnd Hlen. rewrite length_app in Hlen. simpl in Hlen.
  apply NoDup_app in Hnd as (Hnd & Hdisj & _).
  rewrite markAll_snoc, IH by (done || lia).
  unfold markAlerted. rewrite set_add_fresh.
  - apply evictOldest_small. rewrite length_app. simpl. lia.
  - intros Hin. apply (Hdisj key Hin). by apply list_elem_of_singleton.
Qed.

(** One key more than the capacity: the first one marked is evicted. *)
Lemma markAll_over_capacity first rest :
  NoDup (first :: rest) ->
  Z.of_nat (length rest) = MAX_STORED_ALERTS ->
  markAll [] (first :: rest) = rest.
Proof.
  intros Hnd Hlen.
  destruct rest as [|x rest0] using rev_ind;
    [unfold MAX_STORED_ALERTS in Hlen; simpl in Hlen; lia|].
  clear IHrest0. rewrite length_app in Hlen. simpl in Hlen.
  rewrite app_comm_cons, markAll_snoc.
  rewrite app_comm_cons in Hnd.
  pose proof Hnd as Hnd'.
  apply NoDup_app in Hnd' as (Hnd1 & Hdisj & _).
  rewrite markAll_below_capacity by (done || simpl; lia).
  unfold markAlerted. rewrite set_add_fresh.
  - simpl. apply evictOldest_full.
    + rewrite <- app_comm_cons in Hnd. by apply NoDup_cons in Hnd as [? _].
    + rewrite length_cons, length_app. simpl. lia.
  - intros Hin. apply (Hdisj x Hin). by apply list_elem_of_singleton.
Qed.

(** Whatever keys are marked, starting from the empty set, the set stays
    within the capacity. *)
Lemma length_markAll ks :
  Z.of_nat (length (markAll [] ks)) <= MAX_STORED_ALERTS.
Proof.
  induction ks as [|key ks IH] using rev_ind.
  - unfold MAX_STORED_ALERTS. simpl. lia.
  - rewrite markAll_snoc. by apply length_markAlerted.
Qed.

End AlertedSet.

(** C3.  Marking a key as alerted never leaves more than
    [MAX_STORED_ALERTS] keys in the set: whatever keys were marked since the
    set was empty, and from any set within the capacity.  And after
    [MAX_STORED_ALERTS + 1] distinct keys were marked, starting from the
    empty set, the set holds exactly the keys marked after the first, in
    the order they were marked: the first key is gone, every other key is
    still there. *)
Theorem alerted_set_bounded_fifo (s : list string) (key first : string)
    (rest : list string) :
  Z.of_nat (length s) <= MAX_STORED_ALERTS ->
  NoDup (first :: rest) ->
  Z.of_nat (length (first :: rest)) = MAX_STORED_ALERTS + 1 ->
  Z.of_nat (length (markAlerted key s)) <= MAX_STORED_ALERTS /\
  (forall ks, Z.of_nat (length (markAll [] ks)) <= MAX_STORED_ALERTS) /\
  markAll [] (first :: rest) = rest /\
  set_has first (markAll [] (first :: rest)) = false /\
  (forall k, k ∈ rest -> set_has k (markAll [] (first :: rest)) = true).
Proof.
  intros Hs Hnd Hlen.
  assert (Hrest : markAll [] (first :: rest) = rest).
  { apply markAll_over_capacity; [done|]. simpl in Hlen. lia. }
  split; [by apply length_markAlerted|].
  split; [apply length_markAll|].
  split; [done|]. rewrite Hrest. split.
  - apply set_has_false. by apply NoDup_cons in Hnd as [? _].
  - intros k Hk. by apply set_has_true.
Qed.

(** ** Recorded calls *)

Section Records.

Implicit Types (s : State) (new : list IO).

Lemma trace_records new s : trace (records new s) = new ++ trace s.
Proof. induction new as [|e new IH]; simpl; [done|]. by rewrite IH. Qed.

Lemma alertedTrades_records new s :
  alertedTrades (records new s) = alertedTrades s.
Proof. induction new; simpl; done. Qed.

Lemma walletFirstSeen_records new s :
  walletFirstSeen (records new s) = walletFirstSeen s.
Proof. induction new; simpl; done. Qed.

Lemma lastProcessedBlock_records new s :
  lastProcessedBlock (records new s) = lastProcessedBlock s.
Proof. induction new; simpl; done. Qed.

Lemma records_app new1 new2 s :
  records (new1 ++ new2) s = records new1 (records new2 s).
Proof. unfold records. apply foldr_app. Qed.

Lemma records_snoc new e s : records (new ++ [e]) s = records new (record e s).
Proof. by rewrite records_app. Qed.

Lemma calls_during_extends new s s' :
  trace s' = new ++ trace s -> calls_during s s' = rev new.
Proof.
  intros H. unfold calls_during. rewrite H, length_app.
  replace (length new + length (trace s) - length (trace s))%nat
    with (length new) by lia.
  by rewrite take_app_length.
Qed.

Lemma calls_during_records new s : calls_during s (records new s) = rev new.
Proof. apply calls_during_extends, trace_records. Qed.

Lemma calls_during_record e s : calls_during s (record e s) = [e].
Proof. apply (calls_during_records [e]). Qed.

Lemma calls_during_cached a t new s :
  calls_during s (cached a t (records new s)) = rev new.
Proof. apply calls_during_extends. simpl. apply trace_records. Qed.

Lemma existsb_rev {A} (f : A -> bool) (l : list A) :
  existsb f (rev l) = existsb f l.
Proof.
  induction l as [|x l IH]; [done|].
  simpl. rewrite existsb_app, IH. simpl. destruct (f x), (existsb f l); done.
Qed.

End Records.

(** ** The wallet-age estimator *)

Section WalletAge.

Variable cfg : Config.
Variable env : Env.

Lemma raised_probes a cur blocks first bs :
  existsb raised (probes a cur blocks first bs) = false.
Proof. revert first. induction bs as [|b bs IH]; intros first; simpl; auto. Qed.

Lemma is_query_probes a cur blocks first bs :
  existsb is_query (probes a cur blocks first bs) = false.
Proof. revert first. induction bs as [|b bs IH]; intros first; simpl; auto. Qed.

(** The loop either sees [n] balances, or stops at a probe that is
    rejected. *)
Lemma searchLoop_run n a cur blocks first s :
  (exists bs, length bs = n /\
     searchLoop env n a cur blocks first s =
       (Ok (narrowed cur blocks first bs),
        records (rev (probes a cur blocks first bs)) s)) \/
  (exists bs, (length bs < n)%nat /\
     searchLoop env n a cur blocks first s =
       (Err,
        records (GetBalance a (midBlockOf cur blocks (narrowed cur blocks first bs)) Err
                 :: rev (probes a cur blocks first bs)) s)).
Proof.
  revert first s. induction n as [|n IH]; intros first s.
  - left. exists []. done.
  - simpl. unfold bind, getBalance, await.
    destruct (rpc_getBalance env (trace s) a (midBlockOf cur blocks first))
      as [b|] eqn:Hb.
    + set (first' := if b >? 0 then midBlockOf cur blocks first else first).
      set (s1 := record (GetBalance a (midBlockOf cur blocks first) (Ok b)) s).
      destruct (IH first' s1) as [(bs & Hlen & Hrun)|(bs & Hlen & Hrun)].
      * left. exists (b :: bs). split; [simpl; lia|].
        rewrite Hrun. simpl. by rewrite records_snoc.
      * right. exists (b :: bs). split; [simpl; lia|].
        rewrite Hrun. simpl. by rewrite records_snoc.
    + right. exists []. split; [simpl; lia|]. done.
Qed.

(** Every call of [checkWalletAge] returns a record, along one of the five
    paths. *)
Lemma checkWalletAge_run a s :
  exists w s',
    checkWalletAge cfg env a s = (Ok w, s') /\ wallet_age_run cfg env a s w s'.
Proof.
  unfold checkWalletAge, try_catch, bind, walletFirstSeen_get.
  destruct (walletFirstSeen s !! a) as [f|] eqn:Hcache.
  { eexists _, _. split; [reflexivity|]. by apply run_cached. }
  unfold getTransactionCount, await.
  destruct (rpc_getTransactionCount env (trace s) a) as [txCount|] eqn:Htx.
  2: { eexists _, _. split; [reflexivity|]. by apply run_count_failed. }
  set (s1 := record (GetTransactionCount a (Ok txCount)) s).
  destruct (Z.leb_spec txCount 10) as [Hle|Hgt].
  2: { eexists _, _. split; [reflexivity|]. by apply run_established. }
  unfold searchWalletAge, bind, getBlockNumber, await.
  destruct (rpc_getBlockNumber env (trace s1)) as [cur|] eqn:Hcur.
  2: { eexists _, _. split; [reflexivity|].
       apply (run_search_failed cfg env a s txCount [GetBlockNumber Err]); done. }
  set (s2 := record (GetBlockNumber (Ok cur)) s1).
  destruct (searchLoop_run 5 a cur (Z.min 10000 cur) cur s2)
    as [(bs & Hlen & Hrun)|(bs & Hlen & Hrun)]; rewrite Hrun.
  2: { eexists _, _. split; [reflexivity|].
       set (e := GetBalance _ _ Err).
       set (ps := probes a cur (Z.min 10000 cur) cur bs).
       replace (records (e :: rev ps) s2)
         with (records ((e :: rev ps ++ [GetBlockNumber (Ok cur)])
                        ++ [GetTransactionCount a (Ok txCount)]) s)
         by (by rewrite !app_comm_cons, !records_snoc).
       apply run_search_failed; [done|done|done|].
       simpl. rewrite existsb_app, existsb_rev. unfold ps.
       by rewrite is_query_probes. }
  set (ps := probes a cur (Z.min 10000 cur) cur bs).
  set (first := narrowed cur (Z.min 10000 cur) cur bs).
  set (s3 := records (rev ps) s2).
  unfold getBlock, await.
  assert (Hfail : forall r, raised (GetBlock first r) = true ->
    wallet_age_run cfg env a s lowTxRecord (record (GetBlock first r) s3)).
  { intros r Hr.
    replace (record (GetBlock first r) s3)
      with (records ((GetBlock first r :: rev ps ++ [GetBlockNumber (Ok cur)])
                     ++ [GetTransactionCount a (Ok txCount)]) s)
      by (by rewrite !app_comm_cons, !records_snoc).
    apply run_search_failed; [done|done|cbn [app existsb]; by rewrite Hr|].
    simpl. rewrite existsb_app, existsb_rev. unfold ps.
    by rewrite is_query_probes. }
  destruct (rpc_getBlock env (trace s3) first) as [[ts|]|] eqn:Hblock.
  2,3: eexists _, _; split; [reflexivity|]; by apply Hfail.
  unfold dateNow, read, walletFirstSeen_set, ret. simpl.
  eexists _, _. split; [reflexivity|].
  set (now := date_now env _).
  pose proof (run_searched cfg env a s txCount cur bs ts now Hcache Hle Hlen)
    as Hrun'.
  cbv zeta in Hrun'. fold ps first in Hrun'.
  assert (Heq :
    records (DateNow now :: GetBlock first (Ok (Some ts)) :: rev ps ++
             [GetBlockNumber (Ok cur); GetTransactionCount a (Ok txCount)]) s
    = record (DateNow now) (record (GetBlock first (Ok (Some ts))) s3)).
  { change (records (?e1 :: ?e2 :: ?l) s)
      with (record e1 (record e2 (records l s))).
    by rewrite records_app. }
  rewrite Heq in Hrun'. exact Hrun'.
Qed.

Lemma searched_calls (e1 e2 e3 e4 : IO) (ps : list IO) s a t :
  calls_during s (cached a t (records (e4 :: e3 :: rev ps ++ [e2; e1]) s)) =
  e1 :: e2 :: ps ++ [e3; e4].
Proof.
  rewrite calls_during_cached. simpl.
  rewrite rev_app_distr, rev_involutive. simpl. by rewrite <- app_assoc.
Qed.

Lemma narrowed_in_window cur blocks first bs :
  cur - blocks <= first ->
  cur - blocks <= narrowed cur blocks first bs <= first.
Proof.
  revert first. induction bs as [|b bs IH]; intros first Hlo; simpl; [lia|].
  destruct (b >? 0).
  - assert (cur - blocks <= midBlockOf cur blocks first <= first) as Hmid.
    { unfold midBlockOf. split.
      - apply Z.div_le_lower_bound; lia.
      - apply Z.div_le_upper_bound; lia. }
    specialize (IH _ (proj1 Hmid)). lia.
  - by apply IH.
Qed.

(** C7, as amended.  For an address with a cached first-seen timestamp the
    estimator reads the clock, returns [ageInDays] = the floor of
    (now - firstSeenTimestamp) in days and [isNew] = (ageInDays <=
    NEW_ACCOUNT_DAYS), and leaves the cache alone; for two such calls whose
    clock readings are [delta] apart, the two values of [ageInDays] differ
    by floor (delta / 1 day) or by floor (delta / 1 day) + 1, and by exactly
    floor (delta / 1 day) when [delta] is a whole number of days. *)
Theorem cached_age_recomputed (a : string) (firstSeen : Z) (s1 s2 : State) :
  walletFirstSeen s1 !! a = Some firstSeen ->
  walletFirstSeen s2 !! a = Some firstSeen ->
  let now1 := date_now env (trace s1) in
  let now2 := date_now env (trace s2) in
  let age1 := (now1 - firstSeen) / DAY_MS in
  let age2 := (now2 - firstSeen) / DAY_MS in
  let delta := now2 - now1 in
  checkWalletAge cfg env a s1 = (Ok (ageRecord cfg age1), record (DateNow now1) s1) /\
  checkWalletAge cfg env a s2 = (Ok (ageRecord cfg age2), record (DateNow now2) s2) /\
  ageInDays (ageRecord cfg age1) = age1 /\
  isNew (ageRecord cfg age1) = (age1 <=? NEW_ACCOUNT_DAYS cfg) /\
  (age2 - age1 = delta / DAY_MS \/ age2 - age1 = delta / DAY_MS + 1) /\
  (delta mod DAY_MS = 0 -> age2 - age1 = delta / DAY_MS).
Proof.
  intros H1 H2 now1 now2 age1 age2 delta.
  assert (Hrun : forall s, walletFirstSeen s !! a = Some firstSeen ->
    checkWalletAge cfg env a s =
      (Ok (ageRecord cfg ((date_now env (trace s) - firstSeen) / DAY_MS)),
       record (DateNow (date_now env (trace s))) s)).
  { intros s Hs.
    unfold checkWalletAge, try_catch, bind, walletFirstSeen_get.
    by rewrite Hs. }
  split; [by apply Hrun|]. split; [by apply Hrun|].
  split; [done|]. split; [done|].
  assert (HD : DAY_MS = 86400000) by reflexivity.
  subst age1 age2 delta. rewrite HD.
  replace (now2 - firstSeen) with ((now1 - firstSeen) + (now2 - now1)) by lia.
  generalize (now1 - firstSeen) (now2 - now1). intros x d.
  Z.div_mod_to_equations. lia.
Qed.

(** C6.  Whenever a call made by the estimator fails (the transaction-count
    query, the height query, a balance probe, or the resolution of the
    block's timestamp), the estimator still returns a record, with
    [isNew = true] and [ageInDays = 0] and a description that gives no age
    (that of the outer or of the inner [catch]), and caches nothing. *)
Theorem wallet_age_fails_open (a : string) (s : State) :
  let r := checkWalletAge cfg env a s in
  existsb raised (calls_during s r.2) = true ->
  exists w,
    r.1 = Ok w /\
    isNew w = true /\
    ageInDays w = 0 /\
    (description w = UnknownAge \/ description w = LowTransactionCount) /\
    walletFirstSeen r.2 = walletFirstSeen s /\
    alertedTrades r.2 = alertedTrades s.
Proof.
  intros r. subst r.
  destruct (checkWalletAge_run a s) as (w & s' & -> & Hrun). simpl.
  intros Hraised. exists w. split; [done|].
  destruct Hrun as [f Hc now|Hc|tx Hc Hgt|tx new Hc Hle Hr Hq|tx cur bs ts now Hc Hle Hlen].
  - rewrite calls_during_record in Hraised. discriminate Hraised.
  - simpl. auto 10.
  - rewrite calls_during_record in Hraised. discriminate Hraised.
  - rewrite walletFirstSeen_records, alertedTrades_records. auto 10.
  - exfalso. revert Hraised. cbv zeta. rewrite searched_calls. simpl.
    rewrite existsb_app, raised_probes. done.
Qed.


End WalletAge.

(** ** The loop over the events *)

Section Evolves.

Implicit Types (s : State).

Lemma evolves_refl s : evolves s s.
Proof. split; [done|done|]. exists []. done. Qed.

Lemma evolves_trans s1 s2 s3 : evolves s1 s2 -> evolves s2 s3 -> evolves s1 s3.
Proof.
  intros [Hc1 Hw1 (n1 & Ht1 & Hq1)] [Hc2 Hw2 (n2 & Ht2 & Hq2)].
  split; [congruence|auto|].
  exists (n2 ++ n1). split.
  - by rewrite Ht2, Ht1, app_assoc.
  - by rewrite existsb_app, Hq1, Hq2.
Qed.

Lemma evolves_records new s :
  existsb is_query new = false -> evolves s (records new s).
Proof.
  intros Hq. split.
  - apply lastProcessedBlock_records.
  - intros a t. by rewrite walletFirstSeen_records.
  - exists new. split; [apply trace_records|done].
Qed.

Lemma evolves_record e s : is_query e = false -> evolves s (record e s).
Proof. intros Hq. apply (evolves_records [e]). simpl. by rewrite Hq. Qed.

Lemma evolves_cached a t s :
  walletFirstSeen s !! a = None -> evolves s (cached a t s).
Proof.
  intros Hnone. split; [done| |exists []; done].
  intros a' t' Hsome. simpl.
  rewrite lookup_insert_ne; [done|congruence].
Qed.

Lemma evolves_alerted f s :
  evolves s {| alertedTrades := f (alertedTrades s);
               walletFirstSeen := walletFirstSeen s;
               lastProcessedBlock := lastProcessedBlock s;
               trace := trace s |}.
Proof. split; [done|done|]. exists []. done. Qed.

End Evolves.

Section Pipeline.

Variable cfg : Config.
Variable env : Env.

Lemma wallet_age_run_evolves a s w s' :
  wallet_age_run cfg env a s w s' ->
  evolves s s' /\ alertedTrades s' = alertedTrades s.
Proof.
  intros [f Hc now|Hc|tx Hc Hgt|tx new Hc Hle Hr Hq|tx cur bs ts now Hc Hle Hlen].
  - split; [by apply evolves_record|done].
  - split; [by apply evolves_record|done].
  - split; [by apply evolves_record|done].
  - split; [|apply alertedTrades_records].
    apply evolves_records. rewrite existsb_app, Hq. done.
  - cbv zeta. split; [|simpl; apply alertedTrades_records].
    eapply evolves_trans; [apply evolves_records|apply evolves_cached].
    + simpl. rewrite existsb_app, existsb_rev, is_query_probes. done.
    + by rewrite walletFirstSeen_records.
Qed.

Lemma getMarketByConditionId_run conditionId s :
  exists market,
    getMarketByConditionId env conditionId s =
      (Ok market,
       record (MarketsGet conditionId (gamma_markets env (trace s) conditionId)) s).
Proof.
  unfold getMarketByConditionId, try_catch, bind, axios_get_markets, await, ret.
  destruct (gamma_markets env (trace s) conditionId); eauto.
Qed.

Lemma sendDiscordAlert_run tradeData walletInfo market s :
  exists new,
    sendDiscordAlert cfg env tradeData walletInfo market s = (Ok tt, records new s) /\
    existsb is_query new = false.
Proof.
  unfold sendDiscordAlert.
  destruct (String.eqb (DISCORD_WEBHOOK cfg) "").
  { exists []. done. }
  unfold try_catch, bind, dateIso, read, axios_post, await, ret.
  cbv beta iota zeta.
  match goal with
  | |- context [discord_post env ?t ?u ?e] =>
      destruct (discord_post env t u e) as [[]|] eqn:Hpost
  end.
  - eexists [WebhookPost _ _ (Ok tt); DateIso _]. split; [reflexivity|done].
  - eexists [WebhookPost _ _ Err; DateIso _]. split; [reflexivity|done].
Qed.

Lemma processEvent_run event s :
  exists o s',
    processEvent cfg env event s = (Ok o, s') /\
    evolves s s' /\ outcome_effect env o s s'.
Proof.
  unfold processEvent, try_catch, bind.
  destruct event as [args|]; cbn [event_args]; unfold ret, throw.
  2: { exists Failed, s. split; [done|]. split; [apply evolves_refl|done]. }
  destruct (Qlt_bool _ _).
  { exists FilteredByAmount, s. split; [done|]. split; [apply evolves_refl|done]. }
  unfold dateIso, read, alertedTrades_has. cbv beta iota zeta.
  set (iso := date_iso env (trace s)).
  set (key := alertKeyOf args (before_T iso)).
  set (s1 := record (DateIso iso) s).
  assert (Hs1 : evolves s s1) by (by apply evolves_record).
  change (alertedTrades s1) with (alertedTrades s).
  destruct (set_has key (alertedTrades s)) eqn:Hseen.
  { exists (FilteredByDedup key), s1. done. }
  destruct (checkWalletAge_run cfg env (maker args) s1) as (w & s2 & Hw & Hrun).
  rewrite Hw. apply wallet_age_run_evolves in Hrun as [Hs2 Ha2].
  assert (Hs02 : evolves s s2) by (by eapply evolves_trans).
  destruct (isNew w); cbn [negb].
  2: { exists (FilteredByAge key), s2. done. }
  set (conditionId := slice_first 66 (pretty (makerAssetId args))).
  destruct (getMarketByConditionId_run conditionId s2) as (market & Hm).
  rewrite Hm.
  set (s3 := record (MarketsGet conditionId _) s2).
  assert (Hs03 : evolves s s3).
  { eapply evolves_trans; [exact Hs02|]. by apply evolves_record. }
  destruct market as [m|].
  2: { exists (FilteredByMarket key), s3. done. }
  destruct (closedOrInactive m).
  { exists (FilteredByMarket key), s3. done. }
  match goal with
  | |- context [sendDiscordAlert cfg env ?td w (Some m) s3] =>
      destruct (sendDiscordAlert_run td w (Some m) s3) as (new & Hsend & Hq)
  end.
  rewrite Hsend. unfold alertedTrades_update, sleep. cbv beta iota zeta.
  eexists (Alerted key), _. split; [reflexivity|]. split.
  - eapply evolves_trans; [exact Hs03|].
    eapply evolves_trans; [by apply evolves_records|].
    eapply evolves_trans; [apply (evolves_alerted (fun x => evictOldest (set_add key x)))|].
    by apply evolves_record.
  - split; [done|]. simpl. rewrite alertedTrades_records.
    change (alertedTrades s3) with (alertedTrades s2). by rewrite Ha2.
Qed.

Lemma processEvents_run events s :
  exists outcomes s',
    processEvents cfg env events s = (Ok outcomes, s') /\
    length outcomes = length events /\
    evolves s s'.
Proof.
  revert s. induction events as [|event events IH]; intros s.
  - exists [], s. split; [done|]. split; [done|apply evolves_refl].
  - simpl. unfold bind.
    destruct (processEvent_run event s) as (o & s1 & Ho & Hs1 & _).
    rewrite Ho.
    destruct (IH s1) as (os & s2 & Hos & Hlen & Hs2). rewrite Hos.
    exists (o :: os), s2. split; [done|].
    split; [simpl; by rewrite Hlen|by eapply evolves_trans].
Qed.

Lemma processBlockchainEvents_run s :
  exists o s',
    processBlockchainEvents cfg env s = (Ok o, s') /\ tick_run cfg env s o s'.
Proof.
  unfold processBlockchainEvents, try_catch, bind, getBlockNumber, await,
    get_lastProcessedBlock.
  destruct (rpc_getBlockNumber env (trace s)) as [cur|] eqn:Hcur.
  2: { eexists _, _. split; [reflexivity|]. by apply tick_height_failed. }
  cbn [lastProcessedBlock record].
  destruct (Z.leb_spec cur (lastProcessedBlock s)) as [Hle|Hlt].
  { eexists _, _. split; [reflexivity|]. by apply tick_no_new_blocks. }
  unfold queryFilter, await. cbn [trace record].
  destruct (rpc_queryFilter env _ _ _) as [events|] eqn:Hq.
  2: { eexists _, _. split; [reflexivity|]. by apply tick_fetch_failed. }
  match goal with
  | |- context [processEvents cfg env events ?s1] =>
      destruct (processEvents_run events s1) as (os & s2 & Hos & Hlen & Hs2)
  end.
  rewrite Hos. unfold set_lastProcessedBlock, ret.
  eexists _, _. split; [reflexivity|].
  by apply (tick_scanned cfg env s cur events os s2).
Qed.

End Pipeline.

(** ** The amount filter and the notifier *)

Section Alerts.

Variable cfg : Config.
Variable env : Env.


Lemma Qlt_bool_false x y : Qlt_bool x y = false <-> (y <= x)%Q.
Proof.
  unfold Qlt_bool. rewrite negb_false_iff. apply Qle_bool_iff.
Qed.


Lemma markAlerted_has_fresh key s :
  set_has key s = false -> set_has key (markAlerted key s) = true.
Proof.
  intros Hfresh. apply set_has_false in Hfresh. apply set_has_true.
  unfold markAlerted. rewrite set_add_fresh by done.
  unfold evictOldest.
  destruct (Z.gtb_spec (Z.of_nat (length (s ++ [key]))) MAX_STORED_ALERTS)
    as [Hgt|Hle].
  2: { apply elem_of_app. right. by apply list_elem_of_singleton. }
  destruct s as [|x s'].
  - unfold MAX_STORED_ALERTS in Hgt. simpl in Hgt. lia.
  - simpl. unfold set_delete. apply list_elem_of_filter. split.
    + intros ->. apply Hfresh. by left.
    + right. apply elem_of_app. right. by apply list_elem_of_singleton.
Qed.

(** With another notifier the event ends the same way and leaves the same
    stores. *)
Lemma processEvent_notifier post event s :
  exists o s1 s2,
    processEvent cfg env event s = (Ok o, s1) /\
    processEvent cfg (with_notifier post env) event s = (Ok o, s2) /\
    alertedTrades s1 = alertedTrades s2 /\
    walletFirstSeen s1 = walletFirstSeen s2 /\
    lastProcessedBlock s1 = lastProcessedBlock s2.
Proof.
  unfold processEvent, try_catch, bind.
  destruct event as [args|]; cbn [event_args]; unfold ret, throw.
  2: { by exists Failed, s, s. }
  destruct (Qlt_bool _ _).
  { by exists FilteredByAmount, s, s. }
  unfold dateIso, read, alertedTrades_has. cbv beta iota zeta.
  change (date_iso (with_notifier post env)) with (date_iso env).
  set (iso := date_iso env (trace s)).
  set (key := alertKeyOf args (before_T iso)).
  set (s1 := record (DateIso iso) s).
  change (alertedTrades s1) with (alertedTrades s).
  destruct (set_has key (alertedTrades s)).
  { by exists (FilteredByDedup key), s1, s1. }
  change (checkWalletAge cfg (with_notifier post env))
    with (checkWalletAge cfg env).
  destruct (checkWalletAge cfg env (maker args) s1) as [[w|] s2].
  2: { by exists Failed, s2, s2. }
  destruct (isNew w); cbn [negb].
  2: { by exists (FilteredByAge key), s2, s2. }
  change (getMarketByConditionId (with_notifier post env))
    with (getMarketByConditionId env).
  destruct (getMarketByConditionId env _ s2) as [[[m|]|] s3].
  2: { by exists (FilteredByMarket key), s3, s3. }
  2: { by exists Failed, s3, s3. }
  destruct (closedOrInactive m).
  { by exists (FilteredByMarket key), s3, s3. }
  match goal with
  | |- context [sendDiscordAlert cfg env ?td w (Some m) s3] =>
      destruct (sendDiscordAlert_run cfg env td w (Some m) s3)
        as (new1 & -> & _);
      destruct (sendDiscordAlert_run cfg (with_notifier post env) td w (Some m) s3)
        as (new2 & -> & _)
  end.
  unfold alertedTrades_update, sleep. cbv beta iota zeta.
  eexists (Alerted key), _, _. split; [reflexivity|]. split; [reflexivity|].
  simpl. by rewrite !alertedTrades_records, !walletFirstSeen_records,
    !lastProcessedBlock_records.
Qed.

End Alerts.

(** ** The way to the emission step *)

Section Filters.

Variable cfg : Config.
Variable env : Env.

(** The loop body up to the wallet check: an event that passes the
    amount filter and the dedup check goes on with [checkWalletAge]. *)
Lemma processEvent_to_wallet_check args (s : State) :
  (MIN_BET_AMOUNT cfg <= tradeAmountOf (makerAmountFilled args))%Q ->
  let iso := date_iso env (trace s) in
  let key := alertKeyOf args (before_T iso) in
  let s1 := record (DateIso iso) s in
  set_has key (alertedTrades s) = false ->
  forall w s2,
    checkWalletAge cfg env (maker args) s1 = (Ok w, s2) ->
    processEvent cfg env (EventLog args) s =
      if negb (isNew w) then (Ok (FilteredByAge key), s2)
      else
        let conditionId := slice_first 66 (pretty (makerAssetId args)) in
        let answer := gamma_markets env (trace s2) conditionId in
        let s3 := record (MarketsGet conditionId answer) s2 in
        if market_rejects answer then (Ok (FilteredByMarket key), s3)
        else
          try_catch
            (sendDiscordAlert cfg env
               {| wallet := maker args;
                  amount := tradeAmountOf (makerAmountFilled args);
                  outcome := getOutcomeFromAssetId (makerAssetId args);
                  tradeOrderHash := orderHash args |} w
               (head match answer with Ok data => data | Err => [] end) ;;;
             alertedTrades_update (set_add key) ;;;
             alertedTrades_update evictOldest ;;;
             sleep 2000 ;;;
             ret (Alerted key))
            (ret Failed) s3.
Proof.
  intros Hmin iso key s1 Hfresh w s2 Hw. apply Qlt_bool_false in Hmin.
  unfold processEvent at 1. unfold try_catch at 1, bind at 1.
  cbn [event_args]. unfold ret at 1.
  unfold bind at 1. rewrite Hmin.
  unfold bind, dateIso, read, alertedTrades_has, try_catch, ret.
  cbv beta iota zeta. fold iso. fold key. fold s1.
  change (alertedTrades s1) with (alertedTrades s). rewrite Hfresh, Hw.
  destruct (isNew w); cbn [negb]; [|done].
  unfold getMarketByConditionId, try_catch, bind, axios_get_markets, await, ret.
  destruct (gamma_markets env (trace s2) _) as [[|m data]|]; cbn; try done.
  destruct (closedOrInactive m); done.
Qed.

(** An event that passes the amount filter, the dedup check, the wallet
    check and the market check is alerted: whatever the notifier does, the
    key is marked, and nothing else is done to the stores. *)
Lemma processEvent_emits args (s : State) w s2 :
  (MIN_BET_AMOUNT cfg <= tradeAmountOf (makerAmountFilled args))%Q ->
  let iso := date_iso env (trace s) in
  let key := alertKeyOf args (before_T iso) in
  let conditionId := slice_first 66 (pretty (makerAssetId args)) in
  set_has key (alertedTrades s) = false ->
  checkWalletAge cfg env (maker args) (record (DateIso iso) s) = (Ok w, s2) ->
  isNew w = true ->
  market_rejects (gamma_markets env (trace s2) conditionId) = false ->
  exists s',
    processEvent cfg env (EventLog args) s = (Ok (Alerted key), s') /\
    alertedTrades s' = markAlerted key (alertedTrades s) /\
    walletFirstSeen s' = walletFirstSeen s2 /\
    lastProcessedBlock s' = lastProcessedBlock s.
Proof.
  intros Hmin iso key conditionId Hfresh Hw Hnew Hmarket.
  rewrite (processEvent_to_wallet_check args s Hmin Hfresh w s2 Hw).
  rewrite Hnew. cbn [negb]. cbv zeta. fold conditionId. rewrite Hmarket.
  destruct (checkWalletAge_run cfg env (maker args) (record (DateIso iso) s))
    as (w' & s2' & Hrun' & Hpath).
  rewrite Hw in Hrun'. injection Hrun' as <- <-.
  apply wallet_age_run_evolves in Hpath as [[Hcursor _ _] Halerted].
  unfold try_catch, bind.
  match goal with
  | |- context [sendDiscordAlert cfg env ?td w ?m ?s3] =>
      destruct (sendDiscordAlert_run cfg env td w m s3) as (new & -> & _)
  end.
  unfold alertedTrades_update, sleep, ret. cbv beta iota zeta.
  eexists. split; [reflexivity|].
  cbn [alertedTrades walletFirstSeen lastProcessedBlock record].
  rewrite alertedTrades_records, walletFirstSeen_records,
    lastProcessedBlock_records.
  cbn [alertedTrades walletFirstSeen lastProcessedBlock record].
  rewrite Halerted, Hcursor. done.
Qed.

End Filters.

(** C8.  An event that reaches the emission step (it passes the amount
    filter and the dedup check, the wallet check answers [isNew] and the
    market check lets it through) is alerted and its key is added to the
    alerted set, whether the notifier delivers or fails: with any two
    notifiers the event ends the same way and the alerted set, the wallet
    cache and the cursor are the same afterwards. *)
Theorem alert_state_independent_of_notifier (cfg : Config) (env : Env)
    (post1 post2 : list IO -> string -> Embed -> result unit)
    (args : OrderFilledArgs) (s : State) :
  let iso := date_iso env (trace s) in
  let key := alertKeyOf args (before_T iso) in
  let rw := checkWalletAge cfg env (maker args) (record (DateIso iso) s) in
  let conditionId := slice_first 66 (pretty (makerAssetId args)) in
  let r1 := processEvent cfg (with_notifier post1 env) (EventLog args) s in
  let r2 := processEvent cfg (with_notifier post2 env) (EventLog args) s in
  (MIN_BET_AMOUNT cfg <= tradeAmountOf (makerAmountFilled args))%Q ->
  set_has key (alertedTrades s) = false ->
  (exists w, rw.1 = Ok w /\ isNew w = true) ->
  market_rejects (gamma_markets env (trace rw.2) conditionId) = false ->
  r1.1 = Ok (Alerted key) /\
  r2.1 = Ok (Alerted key) /\
  alertedTrades r1.2 = markAlerted key (alertedTrades s) /\
  alertedTrades r2.2 = markAlerted key (alertedTrades s) /\
  set_has key (alertedTrades r1.2) = true /\
  set_has key (alertedTrades r2.2) = true /\
  walletFirstSeen r1.2 = walletFirstSeen r2.2 /\
  lastProcessedBlock r1.2 = lastProcessedBlock r2.2.
Proof.
  intros iso key rw conditionId r1 r2 Hmin Hfresh (w & Hw & Hnew) Hmarket.
  subst rw r1 r2.
  destruct (checkWalletAge cfg env (maker args) (record (DateIso iso) s))
    as [rw s2] eqn:Hrun.
  cbn [fst snd] in *. subst rw.
  destruct (processEvent_emits cfg (with_notifier post1 env) args s w s2
              Hmin Hfresh Hrun Hnew Hmarket) as (s1' & -> & Ha1 & Hw1 & Hc1).
  destruct (processEvent_emits cfg (with_notifier post2 env) args s w s2
              Hmin Hfresh Hrun Hnew Hmarket) as (s2' & -> & Ha2 & Hw2 & Hc2).
  cbn [fst snd]. fold iso. fold key.
  split; [done|]. split; [done|]. split; [done|]. split; [done|].
  rewrite Ha1, Ha2, Hw1, Hw2, Hc1, Hc2.
  split; [by apply markAlerted_has_fresh|].
  split; [by apply markAlerted_has_fresh|]. done.
Qed.

(** ** The block scanner *)

Section Scanner.

Variable cfg : Config.
Variable env : Env.

Lemma scanned_ranges_app calls1 calls2 :
  scanned_ranges (calls1 ++ calls2) = scanned_ranges calls1 ++ scanned_ranges calls2.
Proof.
  induction calls1 as [|e calls1 IH]; [done|].
  destruct e as [| | | |f t [evs|]| | | | |]; simpl; by rewrite ?IH.
Qed.

Lemma scanned_ranges_no_query calls :
  existsb is_query calls = false -> scanned_ranges calls = [].
Proof.
  induction calls as [|e calls IH]; [done|].
  destruct e as [| | | |f t [evs|]| | | | |]; simpl; auto; discriminate.
Qed.

Lemma chunked_no_query calls :
  existsb is_query calls = false -> Forall chunked calls.
Proof.
  induction calls as [|e calls IH]; [constructor|].
  simpl. intros [Hq Hrest]%orb_false_iff.
  constructor; [|by apply IH]. by destruct e.
Qed.

(** The end of the last range, or [b] when there is none. *)
Lemma ascending_from_app b ranges1 b1 ranges2 :
  ascending_from b ranges1 ->
  (forall r, r ∈ ranges1 -> r.2 <= b1) ->
  b <= b1 ->
  ascending_from b1 ranges2 ->
  ascending_from b (ranges1 ++ ranges2).
Proof.
  revert b. induction ranges1 as [|[f t] ranges1 IH]; intros b; simpl.
  - intros _ _ Hb H2. destruct ranges2 as [|[f2 t2] r2]; [done|].
    destruct H2 as (H2 & H3 & H4). simpl. repeat split; [lia|lia|done].
  - intros (Hbf & Hft & Hasc) Hbound Hb H2.
    split; [done|]. split; [done|].
    apply IH; [done| |apply (Hbound (f, t)); by left|done].
    intros r Hr. apply Hbound. by right.
Qed.

Lemma calls_during_trans s1 s2 s3 new1 new2 :
  trace s2 = new1 ++ trace s1 ->
  trace s3 = new2 ++ trace s2 ->
  calls_during s1 s3 = calls_during s1 s2 ++ calls_during s2 s3.
Proof.
  intros H1 H2.
  rewrite (calls_during_extends new1 s1 s2 H1).
  rewrite (calls_during_extends new2 s2 s3 H2).
  rewrite (calls_during_extends (new2 ++ new1) s1 s3).
  - apply rev_app_distr.
  - by rewrite H2, H1, app_assoc.
Qed.

(** The calls of a tick: the height query, then at most one log query, for
    the blocks from [lastProcessedBlock + 1] to [min (currentBlock,
    lastProcessedBlock + 50)], then the calls of the events; and where the
    cursor is afterwards. *)
Lemma tick_run_calls s o s' :
  tick_run cfg env s o s' ->
  let last := lastProcessedBlock s in
  (exists height,
     calls_during s s' = [GetBlockNumber height] /\
     lastProcessedBlock s' = last /\
     alertedTrades s' = alertedTrades s /\
     walletFirstSeen s' = walletFirstSeen s /\
     height = rpc_getBlockNumber env (trace s) /\
     match height with Ok currentBlock => currentBlock <= last | Err => True end) \/
  (exists currentBlock answer rest,
     let toBlock := Z.min currentBlock (last + maxBlockRange) in
     rpc_getBlockNumber env (trace s) = Ok currentBlock /\
     last < currentBlock /\
     answer = rpc_queryFilter env (GetBlockNumber (Ok currentBlock) :: trace s)
                (last + 1) toBlock /\
     calls_during s s' =
       GetBlockNumber (Ok currentBlock) :: QueryFilter (last + 1) toBlock answer
       :: rest /\
     existsb is_query rest = false /\
     match answer with
     | Ok events =>
         lastProcessedBlock s' = toBlock /\
         exists outcomes,
           o = ScanComplete (last + 1) toBlock outcomes /\
           length outcomes = length events
     | Err =>
         lastProcessedBlock s' = last /\ o = ScanError /\ rest = [] /\
         alertedTrades s' = alertedTrades s /\
         walletFirstSeen s' = walletFirstSeen s
     end).
Proof.
  intros [Hh|cur Hh Hle|cur Hh Hlt from to Hq|cur evs os s2 Hh Hlt from to s1 Hq Hrun Hlen Hev];
    cbv zeta.
  - left. exists Err. rewrite calls_during_record. by rewrite Hh.
  - left. exists (Ok cur). rewrite calls_during_record. by rewrite Hh.
  - right. exists cur, Err, []. rewrite calls_during_records.
    subst from to. by rewrite Hq.
  - right. destruct Hev as [Hc _ (new & Ht & Hnq)].
    exists cur, (Ok evs), (rev new).
    subst from to. rewrite Hq. split; [done|]. split; [done|]. split; [done|].
    split.
    + rewrite (calls_during_extends
                 (new ++ [QueryFilter (lastProcessedBlock s + 1)
                            (Z.min cur (lastProcessedBlock s + maxBlockRange)) (Ok evs);
                          GetBlockNumber (Ok cur)]) s).
      * rewrite rev_app_distr. done.
      * simpl. rewrite Ht. subst s1. by rewrite trace_records, <- app_assoc.
    + rewrite existsb_rev. split; [done|]. split; [done|]. eauto.
Qed.

Lemma tick_run_extends s o s' :
  tick_run cfg env s o s' -> exists new, trace s' = new ++ trace s.
Proof.
  intros [Hh|cur Hh Hle|cur Hh Hlt from to Hq|cur evs os s2 Hh Hlt from to s1 Hq Hrun Hlen Hev].
  - by exists [GetBlockNumber Err].
  - by exists [GetBlockNumber (Ok cur)].
  - eexists. apply trace_records.
  - destruct Hev as [_ _ (new & Ht & _)]. simpl. rewrite Ht.
    subst s1. rewrite trace_records. eexists. apply app_assoc.
Qed.

Lemma tick_run_wallets s o s' a t :
  tick_run cfg env s o s' ->
  walletFirstSeen s !! a = Some t -> walletFirstSeen s' !! a = Some t.
Proof.
  intros [Hh|cur Hh Hle|cur Hh Hlt from to Hq|cur evs os s2 Hh Hlt from to s1 Hq Hrun Hlen Hev];
    try done.
  intros Hs. simpl. by apply (evolves_wallets _ _ Hev).
Qed.

(** What [n] ticks do: they return, the trace grows, the answered log
    queries cover ascending ranges above the cursor the ticks started from
    and up to the cursor they end with, every log query spans at most 50
    blocks, and cached first-seen times stay. *)
Lemma ticks_run n s :
  exists os s',
    ticks cfg env n s = (Ok os, s') /\
    length os = n /\
    (exists new, trace s' = new ++ trace s) /\
    lastProcessedBlock s <= lastProcessedBlock s' /\
    ascending_from (lastProcessedBlock s) (scanned_ranges (calls_during s s')) /\
    (forall r, r ∈ scanned_ranges (calls_during s s') -> r.2 <= lastProcessedBlock s') /\
    Forall chunked (calls_during s s') /\
    (forall a t, walletFirstSeen s !! a = Some t -> walletFirstSeen s' !! a = Some t).
Proof.
  revert s. induction n as [|n IH]; intros s.
  - exists [], s. split; [done|]. split; [done|].
    split; [by exists []|]. split; [lia|].
    assert (calls_during s s = []) as -> by apply (calls_during_records [] s).
    simpl.
    split; [done|]. split; [intros r Hr; by apply elem_of_nil in Hr|].
    split; [constructor|done].
  - simpl. unfold bind.
    destruct (processBlockchainEvents_run cfg env s) as (o & s1 & -> & Hrun).
    destruct (IH s1) as (os & s2 & -> & Hlen & (new2 & Ht2) & Hmono & Hasc & Hbound & Hchunk & Hw).
    destruct (tick_run_extends _ _ _ Hrun) as (new1 & Ht1).
    exists (o :: os), s2. split; [done|]. split; [simpl; by rewrite Hlen|].
    split; [exists (new2 ++ new1); by rewrite Ht2, Ht1, app_assoc|].
    rewrite (calls_during_trans s s1 s2 new1 new2 Ht1 Ht2).
    rewrite scanned_ranges_app.
    assert (Hw1 : forall a t, walletFirstSeen s !! a = Some t ->
                              walletFirstSeen s1 !! a = Some t)
      by (intros a t; by apply (tick_run_wallets s o s1)).
    clear Ht1 Ht2.
    apply tick_run_calls in Hrun. cbv zeta in Hrun.
    assert (Htick :
      lastProcessedBlock s <= lastProcessedBlock s1 /\
      ascending_from (lastProcessedBlock s) (scanned_ranges (calls_during s s1)) /\
      (forall r, r ∈ scanned_ranges (calls_during s s1) -> r.2 <= lastProcessedBlock s1) /\
      Forall chunked (calls_during s s1)).
    { destruct Hrun as [(h & -> & Hc & _)|(cur & ans & rest & _ & Hlt & _ & -> & Hnq & Hans)].
      - split; [lia|]. simpl. split; [done|].
        split; [intros r Hr; by apply elem_of_nil in Hr|].
        repeat constructor.
      - assert (Hchunk1 : Forall chunked
          (GetBlockNumber (Ok cur)
           :: QueryFilter (lastProcessedBlock s + 1)
                (Z.min cur (lastProcessedBlock s + maxBlockRange)) ans :: rest)).
        { constructor; [done|]. constructor; [|by apply chunked_no_query].
          unfold chunked, maxBlockRange. lia. }
        destruct ans as [evs|].
        + destruct Hans as (Hc & _). simpl.
          rewrite (scanned_ranges_no_query rest Hnq). simpl.
          unfold maxBlockRange in *.
          split; [lia|]. split; [lia|]. split; [|done].
          intros r Hr. apply list_elem_of_singleton in Hr as ->. simpl. lia.
        + destruct Hans as (Hc & _). simpl.
          rewrite (scanned_ranges_no_query rest Hnq). simpl.
          split; [lia|]. split; [done|]. split; [|done].
          intros r Hr. by apply elem_of_nil in Hr. }
    destruct Htick as (Hmono1 & Hasc1 & Hbound1 & Hchunk1).
    split; [lia|]. split; [|split; [|split]].
    + by apply (ascending_from_app _ _ (lastProcessedBlock s1)).
    + intros r [Hr|Hr]%elem_of_app; [|by apply Hbound].
      specialize (Hbound1 r Hr). lia.
    + by apply Forall_app.
    + auto.
Qed.

End Scanner.

(** ** Ticks that overlap, and ticks that do not *)

Section AsyncLink.

Variable cfg : Config.
Variable env : Env.

Lemma finishes_bind_ok {A B} (x : Async.Susp A) (f : A -> Async.C B) s a s1 r s2 :
  Async.finishes x s (Ok a) s1 ->
  Async.finishes (f a s1).1 (f a s1).2 r s2 ->
  Async.finishes (Async.bind_susp x f s).1 (Async.bind_susp x f s).2 r s2.
Proof.
  intros Hx. remember (Ok a) as ra eqn:Hra. revert Hra.
  induction Hx as [r0 s0|k s0 x' s' r0 s1' Hk Hx IH]; intros -> Hf.
  - exact Hf.
  - cbn [Async.bind_susp fst snd].
    eapply Async.finishes_await; [|exact (IH eq_refl Hf)].
    rewrite Hk. by destruct (Async.bind_susp x' f s').
Qed.

Lemma finishes_bind_err {A B} (x : Async.Susp A) (f : A -> Async.C B) s s1 :
  Async.finishes x s Err s1 ->
  Async.finishes (Async.bind_susp x f s).1 (Async.bind_susp x f s).2 Err s1.
Proof.
  intros Hx. remember (@Err A) as ra eqn:Hra. revert Hra.
  induction Hx as [r0 s0|k s0 x' s' r0 s1' Hk Hx IH]; intros ->.
  - constructor.
  - cbn [Async.bind_susp fst snd].
    eapply Async.finishes_await; [|exact (IH eq_refl)].
    rewrite Hk. by destruct (Async.bind_susp x' f s').
Qed.

Lemma finishes_catch_ok {A} (x : Async.Susp A) (h : Async.C A) s a s1 :
  Async.finishes x s (Ok a) s1 ->
  Async.finishes (Async.catch_susp x h s).1 (Async.catch_susp x h s).2 (Ok a) s1.
Proof.
  intros Hx. remember (Ok a) as ra eqn:Hra. revert Hra.
  induction Hx as [r0 s0|k s0 x' s' r0 s1' Hk Hx IH]; intros ->.
  - constructor.
  - cbn [Async.catch_susp fst snd].
    eapply Async.finishes_await; [|exact (IH eq_refl)].
    rewrite Hk. by destruct (Async.catch_susp x' h s').
Qed.

Lemma finishes_catch_err {A} (x : Async.Susp A) (h : Async.C A) s s1 r s2 :
  Async.finishes x s Err s1 ->
  Async.finishes (h s1).1 (h s1).2 r s2 ->
  Async.finishes (Async.catch_susp x h s).1 (Async.catch_susp x h s).2 r s2.
Proof.
  intros Hx. remember (@Err A) as ra eqn:Hra. revert Hra.
  induction Hx as [r0 s0|k s0 x' s' r0 s1' Hk Hx IH]; intros -> Hh.
  - exact Hh.
  - cbn [Async.catch_susp fst snd].
    eapply Async.finishes_await; [|exact (IH eq_refl Hh)].
    rewrite Hk. by destruct (Async.catch_susp x' h s').
Qed.

Lemma completes_ret {A} (a : A) : Async.completes (Async.ret a) (ret a).
Proof. intros s. constructor. Qed.

Lemma completes_throw {A} : Async.completes (@Async.throw A) throw.
Proof. intros s. constructor. Qed.

Lemma completes_sync {A} (m : M A) : Async.completes (Async.sync m) m.
Proof. intros s. unfold Async.sync. destruct (m s). constructor. Qed.

Lemma completes_await {A} (ask : list IO -> result A) ev :
  Async.completes (Async.await ask ev) (await ask ev).
Proof.
  intros s. unfold Async.await, await. cbn [fst snd].
  eapply Async.finishes_await; [reflexivity|constructor].
Qed.

Lemma completes_sleep ms : Async.completes (Async.sleep ms) (sleep ms).
Proof.
  intros s. unfold Async.sleep, sleep. cbn [fst snd].
  eapply Async.finishes_await; [reflexivity|constructor].
Qed.

Lemma completes_bind {A B} (c : Async.C A) (m : M A) (f : A -> Async.C B)
    (g : A -> M B) :
  Async.completes c m ->
  (forall a, Async.completes (f a) (g a)) ->
  Async.completes (Async.bind c f) (bind m g).
Proof.
  intros Hc Hf s. unfold Async.bind, bind. specialize (Hc s).
  destruct (c s) as [x s1]. destruct (m s) as [[a|] sm]; cbn [fst snd] in *.
  - apply (finishes_bind_ok x f s1 a sm); [done|]. apply Hf.
  - by apply finishes_bind_err.
Qed.

Lemma completes_try {A} (c h : Async.C A) (m k : M A) :
  Async.completes c m ->
  Async.completes h k ->
  Async.completes (Async.try_catch c h) (try_catch m k).
Proof.
  intros Hc Hh s. unfold Async.try_catch, try_catch. specialize (Hc s).
  destruct (c s) as [x s1]. destruct (m s) as [[a|] sm]; cbn [fst snd] in *.
  - by apply finishes_catch_ok.
  - apply (finishes_catch_err x h s1 sm); [done|]. apply Hh.
Qed.

Lemma completes_searchLoop n a cur blocks first :
  Async.completes (Async.searchLoop env n a cur blocks first)
    (searchLoop env n a cur blocks first).
Proof.
  revert first. induction n as [|n IH]; intros first; cbn [Async.searchLoop searchLoop].
  - apply completes_ret.
  - apply completes_bind; [apply completes_await|]. intros b. apply IH.
Qed.

Lemma completes_searchWalletAge a :
  Async.completes (Async.searchWalletAge cfg env a) (searchWalletAge cfg env a).
Proof.
  unfold Async.searchWalletAge, searchWalletAge.
  apply completes_bind; [apply completes_await|]. intros cur.
  apply completes_bind; [apply completes_searchLoop|]. intros first.
  apply completes_bind; [apply completes_await|]. intros [ts|].
  - apply completes_bind; [apply completes_sync|]. intros now.
    apply completes_bind; [apply completes_sync|]. intros _.
    apply completes_ret.
  - apply completes_throw.
Qed.

Lemma completes_checkWalletAge a :
  Async.completes (Async.checkWalletAge cfg env a) (checkWalletAge cfg env a).
Proof.
  unfold Async.checkWalletAge, checkWalletAge.
  apply completes_try; [|apply completes_ret].
  apply completes_bind; [apply completes_sync|]. intros [f|].
  - apply completes_bind; [apply completes_sync|]. intros now.
    apply completes_ret.
  - apply completes_bind; [apply completes_await|]. intros tx.
    destruct (tx <=? 10); [|apply completes_ret].
    apply completes_try; [apply completes_searchWalletAge|apply completes_ret].
Qed.

Lemma completes_getMarketByConditionId c :
  Async.completes (Async.getMarketByConditionId env c)
    (getMarketByConditionId env c).
Proof.
  unfold Async.getMarketByConditionId, getMarketByConditionId.
  apply completes_try; [|apply completes_ret].
  apply completes_bind; [apply completes_await|]. intros d. apply completes_ret.
Qed.

Lemma completes_sendDiscordAlert td w m :
  Async.completes (Async.sendDiscordAlert cfg env td w m)
    (sendDiscordAlert cfg env td w m).
Proof.
  unfold Async.sendDiscordAlert, sendDiscordAlert.
  destruct (String.eqb (DISCORD_WEBHOOK cfg) ""); [apply completes_ret|].
  apply completes_try; [|apply completes_ret].
  apply completes_bind; [apply completes_sync|]. intros iso.
  apply completes_await.
Qed.

Lemma completes_processEvent event :
  Async.completes (Async.processEvent cfg env event) (processEvent cfg env event).
Proof.
  unfold Async.processEvent, processEvent.
  apply completes_try; [|apply completes_ret].
  apply completes_bind; [apply completes_sync|]. intros args.
  destruct (Qlt_bool _ _); [apply completes_ret|].
  apply completes_bind; [apply completes_sync|]. intros iso.
  apply completes_bind; [apply completes_sync|]. intros [|]; [apply completes_ret|].
  apply completes_bind; [apply completes_checkWalletAge|]. intros w.
  destruct (negb (isNew w)); [apply completes_ret|].
  apply completes_bind; [apply completes_getMarketByConditionId|].
  intros [m|]; [|apply completes_ret].
  destruct (closedOrInactive m); [apply completes_ret|].
  apply completes_bind; [apply completes_sendDiscordAlert|]. intros _.
  apply completes_bind; [apply completes_sync|]. intros _.
  apply completes_bind; [apply completes_sync|]. intros _.
  apply completes_bind; [apply completes_sleep|]. intros _.
  apply completes_ret.
Qed.

Lemma completes_processEvents events :
  Async.completes (Async.processEvents cfg env events)
    (processEvents cfg env events).
Proof.
  induction events as [|e events IH]; cbn [Async.processEvents processEvents].
  - apply completes_ret.
  - apply completes_bind; [apply completes_processEvent|]. intros o.
    apply completes_bind; [apply IH|]. intros os. apply completes_ret.
Qed.

(** A tick that is not interrupted is the tick of the program above. *)
Lemma completes_processBlockchainEvents :
  Async.completes (Async.processBlockchainEvents cfg env)
    (processBlockchainEvents cfg env).
Proof.
  unfold Async.processBlockchainEvents, processBlockchainEvents.
  apply completes_try; [|apply completes_ret].
  apply completes_bind; [apply completes_await|]. intros cur.
  apply completes_bind; [apply completes_sync|]. intros last.
  destruct (cur <=? last); [apply completes_ret|].
  apply completes_bind; [apply completes_await|]. intros events.
  apply completes_bind; [apply completes_processEvents|]. intros os.
  apply completes_bind; [apply completes_sync|]. intros _.
  apply completes_ret.
Qed.


Lemma ticks_S n s :
  ticks cfg env (S n) s =
  match processBlockchainEvents cfg env s with
  | (Ok o, s1) =>
      match ticks cfg env n s1 with
      | (Ok os, s2) => (Ok (o :: os), s2)
      | (Err, s2) => (Err, s2)
      end
  | (Err, s1) => (Err, s1)
  end.
Proof. reflexivity. Qed.

Lemma ticks_snoc n s os sn o s' :
  ticks cfg env n s = (Ok os, sn) ->
  processBlockchainEvents cfg env sn = (Ok o, s') ->
  ticks cfg env (S n) s = (Ok (os ++ [o]), s').
Proof.
  revert s os. induction n as [|n IH]; intros s os.
  - intros [= <- <-] Ho. rewrite ticks_S, Ho. done.
  - rewrite ticks_S.
    destruct (processBlockchainEvents cfg env s) as [[o1|] s1] eqn:Ho1; [|done].
    destruct (ticks cfg env n s1) as [[os1|] s2] eqn:Hn; [|done].
    intros [= <- <-] Ho.
    rewrite ticks_S, Ho1. by rewrite (IH s1 os1 Hn Ho).
Qed.


Lemma quiescent_returned os st :
  Async.quiescent {| Async.store := st; Async.tasks := Async.returned <$> os |}
  = true.
Proof.
  unfold Async.quiescent. cbn [Async.tasks]. apply forallb_forall.
  intros x [o [<- _]]%in_map_iff. done.
Qed.

Lemma not_quiescent_pending os k st :
  Async.quiescent
    {| Async.store := st;
       Async.tasks := (Async.returned <$> os) ++ [Async.Await k] |} = false.
Proof.
  unfold Async.quiescent. cbn [Async.tasks].
  rewrite forallb_app. cbn. by rewrite andb_false_r.
Qed.

(** From a suspended tick that will end as [o], the next step. *)
Lemma sequential_world_settle s0 n os sn o s' x st :
  ticks cfg env n s0 = (Ok os, sn) ->
  processBlockchainEvents cfg env sn = (Ok o, s') ->
  Async.finishes x st (Ok o) s' ->
  sequential_world cfg env s0
    {| Async.store := st; Async.tasks := (Async.returned <$> os) ++ [x] |} (S n).
Proof.
  intros Hn Ho Hfin. destruct x as [r|k].
  - inversion Hfin; subst.
    replace ((Async.returned <$> os) ++ [Async.Done (Ok o)])
      with (Async.returned <$> (os ++ [o])) by (by rewrite fmap_app).
    apply world_idle. by apply (ticks_snoc n s0 os sn).
  - by apply (world_pending cfg env s0 n os sn o s').
Qed.

Lemma sequential_world_act s0 w n a :
  sequential_world cfg env s0 w n ->
  match a with Async.Fire => Async.quiescent w = true | Async.Resume _ => True end ->
  sequential_world cfg env s0 (Async.act cfg env a w)
    (match a with Async.Fire => S n | Async.Resume _ => n end).
Proof.
  intros [n' os sn Hn|n' os sn o s' k st Hn Ho Hfin] Hq; destruct a as [|i].
  - cbn [Async.act Async.store Async.tasks].
    destruct (processBlockchainEvents_run cfg env sn) as (o & s' & Ho & _).
    pose proof (completes_processBlockchainEvents sn) as Hfin.
    rewrite Ho in Hfin. cbn [fst snd] in Hfin.
    destruct (Async.processBlockchainEvents cfg env sn) as [x st].
    by apply (sequential_world_settle s0 n' os sn o s').
  - cbn [Async.act Async.store Async.tasks].
    destruct ((Async.returned <$> os) !! i) as [x|] eqn:Hi.
    + apply list_lookup_fmap_Some in Hi as (o & -> & _).
      cbn. by apply world_idle.
    + by apply world_idle.
  - by rewrite not_quiescent_pending in Hq.
  - cbn [Async.act Async.store Async.tasks].
    destruct (decide (i < length os)%nat) as [Hlt|Hge].
    + rewrite lookup_app_l by (by rewrite length_fmap).
      destruct ((Async.returned <$> os) !! i) as [x|] eqn:Hi.
      * apply list_lookup_fmap_Some in Hi as (o' & -> & _).
        cbn. by apply (world_pending cfg env s0 n' os sn o s').
      * by apply (world_pending cfg env s0 n' os sn o s').
    + rewrite lookup_app_r by (rewrite length_fmap; lia).
      rewrite length_fmap.
      destruct (i - length os)%nat as [|d] eqn:Hd.
      * cbn [lookup list_lookup].
        inversion Hfin as [|k' st' x s1 r s2 Hk Hx]; subst.
        rewrite Hk.
        rewrite insert_app_r_alt by (rewrite length_fmap; lia).
        rewrite length_fmap, Hd. cbn [insert list_insert].
        by apply (sequential_world_settle s0 n' os sn o s').
      * cbn [lookup list_lookup]. rewrite ?lookup_nil.
        by apply (world_pending cfg env s0 n' os sn o s').
Qed.

Lemma sequential_world_run s0 schedule w n :
  sequential_world cfg env s0 w n ->
  Async.no_overlap cfg env schedule w = true ->
  sequential_world cfg env s0 (Async.run cfg env schedule w) (n + Async.fires schedule).
Proof.
  revert w n. induction schedule as [|a rest IH]; intros w n Hw Hno.
  - unfold Async.fires. cbn. by rewrite Nat.add_0_r.
  - cbn [Async.no_overlap] in Hno. apply andb_true_iff in Hno as [Ha Hrest].
    change (Async.run cfg env (a :: rest) w)
      with (Async.run cfg env rest (Async.act cfg env a w)).
    pose proof (sequential_world_act s0 w n a Hw) as Hstep.
    destruct a as [|i].
    + replace (n + Async.fires (Async.Fire :: rest))%nat
        with (S n + Async.fires rest)%nat by (unfold Async.fires; cbn; lia).
      apply IH; [by apply Hstep|done].
    + change (Async.fires (Async.Resume i :: rest)) with (Async.fires rest).
      apply IH; [by apply Hstep|done].
Qed.

(** A schedule without overlap that leaves no tick in flight has run the
    ticks of the program, one after the other. *)
Lemma no_overlap_is_ticks schedule s :
  Async.no_overlap cfg env schedule (Async.idle s) = true ->
  Async.quiescent (Async.run cfg env schedule (Async.idle s)) = true ->
  exists os,
    ticks cfg env (Async.fires schedule) s =
      (Ok os, Async.store (Async.run cfg env schedule (Async.idle s))) /\
    Async.tasks (Async.run cfg env schedule (Async.idle s))
    = Async.returned <$> os.
Proof.
  intros Hno Hq.
  assert (Hidle : sequential_world cfg env s (Async.idle s) 0)
    by (apply (world_idle cfg env s 0 [] s); reflexivity).
  pose proof (sequential_world_run s schedule _ 0 Hidle Hno) as Hw.
  cbn [Nat.add] in Hw.
  destruct Hw as [n os sn Hn|n os sn o s' k st Hn Ho Hfin].
  - exists os. done.
  - by rewrite not_quiescent_pending in Hq.
Qed.

Lemma endings_returned st os pending :
  Forall (fun x => Async.ended x = false) pending ->
  Async.endings {| Async.store := st;
                   Async.tasks := (Async.returned <$> os) ++ pending |}
  = Ok <$> os.
Proof.
  intros Hp. unfold Async.endings. cbn [Async.tasks].
  rewrite omap_app.
  match goal with
  | |- _ ++ ?p = _ => assert (Hnil : p = [])
  end.
  { induction Hp as [|x l Hx _ IH]; [done|].
    destruct x; [done|]. exact IH. }
  rewrite Hnil, app_nil_r. clear.
  induction os as [|o os IH]; [done|].
  rewrite fmap_cons. unfold Async.returned at 1.
  change (omap ?f (Async.Done (Ok o) :: ?l)) with (Ok o :: omap f l).
  by rewrite IH.
Qed.

Lemma world_outcomes_returned st os pending :
  Forall (fun x => Async.ended x = false) pending ->
  world_outcomes {| Async.store := st;
                    Async.tasks := (Async.returned <$> os) ++ pending |}
  = tick_outcomes (Ok os).
Proof.
  intros Hp. unfold world_outcomes. rewrite (endings_returned _ _ _ Hp).
  cbn [tick_outcomes]. f_equal. by rewrite <- list_fmap_compose.
Qed.

(** In a schedule without overlap the ticks that have ended are ticks of
    the program, run one after the other. *)
Lemma no_overlap_outcomes schedule s :
  Async.no_overlap cfg env schedule (Async.idle s) = true ->
  exists n os sn,
    ticks cfg env n s = (Ok os, sn) /\
    world_outcomes (Async.run cfg env schedule (Async.idle s))
    = tick_outcomes (Ok os).
Proof.
  intros Hno.
  assert (Hidle : sequential_world cfg env s (Async.idle s) 0)
    by (apply (world_idle cfg env s 0 [] s); reflexivity).
  pose proof (sequential_world_run s schedule _ 0 Hidle Hno) as Hw.
  destruct Hw as [n os sn Hn|n os sn o s' k st Hn Ho Hfin].
  - exists n, os, sn. split; [done|].
    rewrite <- (app_nil_r (Async.returned <$> os)).
    by apply world_outcomes_returned.
  - exists n, os, sn. split; [done|].
    apply world_outcomes_returned. by repeat constructor.
Qed.





(** Cached first-seen times stay, from one point of rest to the next. *)
Lemma no_overlap_keeps_wallets schedule s a t :
  Async.no_overlap cfg env schedule (Async.idle s) = true ->
  Async.quiescent (Async.run cfg env schedule (Async.idle s)) = true ->
  walletFirstSeen s !! a = Some t ->
  walletFirstSeen (Async.store (Async.run cfg env schedule (Async.idle s))) !! a
  = Some t.
Proof.
  intros Hno Hq Hs.
  destruct (no_overlap_is_ticks schedule s Hno Hq) as (os & Hticks & _).
  destruct (ticks_run cfg env (Async.fires schedule) s)
    as (os' & s2 & Hrun & _ & _ & _ & _ & _ & _ & Hkeep).
  rewrite Hrun in Hticks. injection Hticks as _ <-. by apply Hkeep.
Qed.

End AsyncLink.

(** The calls of a tick that finds the chain above the cursor. *)
Lemma tick_calls_above (cfg : Config) (env : Env) (s : State) (currentBlock : Z) :
  rpc_getBlockNumber env (trace s) = Ok currentBlock ->
  lastProcessedBlock s < currentBlock ->
  exists answer rest,
    calls_during s (processBlockchainEvents cfg env s).2 =
      GetBlockNumber (Ok currentBlock)
      :: QueryFilter (lastProcessedBlock s + 1)
           (Z.min currentBlock (lastProcessedBlock s + maxBlockRange)) answer
      :: rest /\
    existsb is_query rest = false.
Proof.
  intros Hh Hlt.
  destruct (processBlockchainEvents_run cfg env s) as (o & s1 & -> & Hrun).
  apply tick_run_calls in Hrun. cbv zeta in Hrun. simpl.
  destruct Hrun as [(h & _ & _ & _ & _ & -> & Hle)|
                    (cur & ans & rest & Hh' & _ & _ & Hcalls & Hnq & _)].
  - rewrite Hh in Hle. lia.
  - rewrite Hh in Hh'. injection Hh' as <-. eauto.
Qed.

(** C4.  A tick that finds the chain above the cursor asks for the logs of
    the blocks [lastProcessedBlock + 1] to [min (currentBlock,
    lastProcessedBlock + 50)], and for nothing else; and whatever the ticks
    and the answers, every log query spans at most 50 blocks. *)
Theorem scan_range_chunked (cfg : Config) (env : Env) (s : State)
    (currentBlock : Z) :
  rpc_getBlockNumber env (trace s) = Ok currentBlock ->
  lastProcessedBlock s < currentBlock ->
  let fromBlock := lastProcessedBlock s + 1 in
  let toBlock := Z.min currentBlock (lastProcessedBlock s + maxBlockRange) in
  let s' := (processBlockchainEvents cfg env s).2 in
  maxBlockRange = 50 /\
  (exists answer rest,
     calls_during s s' =
       GetBlockNumber (Ok currentBlock) :: QueryFilter fromBlock toBlock answer
       :: rest /\
     existsb is_query rest = false) /\
  toBlock - fromBlock <= maxBlockRange /\
  forall n, Forall chunked (calls_during s (ticks cfg env n s).2).
Proof.
  intros Hh Hlt. cbv zeta.
  split; [done|]. split; [|split].
  - by apply tick_calls_above.
  - unfold maxBlockRange. lia.
  - intros n.
    destruct (ticks_run cfg env n s) as (os & s2 & -> & _ & _ & _ & _ & _ & Hchunk & _).
    done.
Qed.


(** ** Deduplication *)

Section Dedup.

Variable cfg : Config.
Variable env : Env.

Implicit Types (key k : string) (s : list string).

Lemma kept_has key j s : kept key j s -> set_has key s = true.
Proof.
  intros (before & after & -> & _ & _). apply set_has_true.
  apply elem_of_app. right. by left.
Qed.

Lemma kept_weaken key j j' s : kept key j s -> j <= j' -> kept key j' s.
Proof.
  intros (before & after & Hs & Hb & Hlen) Hle.
  exists before, after. split; [done|]. split; [done|lia].
Qed.

Lemma filter_keeps key x s :
  key <> x -> key ∉ s -> key ∉ filter (fun k => k ≠ x) s.
Proof. intros _ Hnotin [_ Hin]%list_elem_of_filter. done. Qed.

(** Eviction takes the head of the set; a key behind the head stays. *)
Lemma kept_evictOldest key j before after :
  key ∉ before ->
  Z.of_nat (length after) <= j ->
  j + 1 <= MAX_STORED_ALERTS ->
  kept key j (evictOldest (before ++ key :: after)).
Proof.
  intros Hb Hlen Hj. unfold evictOldest.
  destruct (Z.gtb_spec (Z.of_nat (length (before ++ key :: after)))
              MAX_STORED_ALERTS) as [Hgt|Hle].
  2: { by exists before, after. }
  destruct before as [|x before'].
  { simpl in Hgt. lia. }
  apply not_elem_of_cons in Hb as [Hne Hb].
  cbn [app]. unfold set_delete.
  rewrite filter_cons_False by (intros H; by apply H).
  rewrite filter_app, filter_cons_True by done.
  eexists _, _. split; [reflexivity|]. split.
  - by apply filter_keeps.
  - pose proof (length_filter (fun k => k ≠ x) after). lia.
Qed.

Lemma kept_fresh_mark key s :
  set_has key s = false -> kept key 0 (markAlerted key s).
Proof.
  intros Hfresh. apply set_has_false in Hfresh.
  unfold markAlerted. rewrite set_add_fresh by done.
  apply kept_evictOldest; [done|simpl; lia|unfold MAX_STORED_ALERTS; lia].
Qed.

Lemma kept_mark key j k s :
  kept key j s -> j + 1 < MAX_STORED_ALERTS -> kept key (j + 1) (markAlerted k s).
Proof.
  intros (before & after & -> & Hb & Hlen) Hj.
  unfold markAlerted, set_add.
  destruct (set_has k (before ++ key :: after)).
  - apply kept_evictOldest; [done|lia|lia].
  - rewrite <- app_assoc, <- app_comm_cons.
    apply kept_evictOldest; [done| |lia].
    rewrite length_app. simpl. lia.
Qed.

Lemma alert_count_nonneg r : 0 <= alert_count r.
Proof. destruct r; simpl; lia. Qed.

Lemma alert_count_cons o os :
  alert_count (Ok (o :: os)) =
  (if is_alerted o then 1 else 0) + alert_count (Ok os).
Proof. unfold alert_count. simpl. destruct (is_alerted o); simpl; lia. Qed.

(** A key that is in the set stays there while fewer than
    [MAX_STORED_ALERTS] alerts follow it. *)
Lemma processEvents_kept key events :
  forall (st : State) j,
    0 <= j ->
    kept key j (alertedTrades st) ->
    exists os st',
      processEvents cfg env events st = (Ok os, st') /\
      (j + alert_count (Ok os) < MAX_STORED_ALERTS ->
       kept key (j + alert_count (Ok os)) (alertedTrades st')).
Proof.
  induction events as [|event events IH]; intros st j Hj Hkept.
  - exists [], st. split; [done|]. intros _. simpl. by rewrite Z.add_0_r.
  - cbn [processEvents]. unfold bind.
    destruct (processEvent_run cfg env event st) as (o & st1 & -> & _ & Heff).
    assert (Hstep : (is_alerted o = true /\
                     (j + 1 < MAX_STORED_ALERTS -> kept key (j + 1) (alertedTrades st1))) \/
                    (is_alerted o = false /\ kept key j (alertedTrades st1))).
    { destruct o as [|k|k|k|k|]; simpl in Heff.
      - right. by subst st1.
      - right. destruct Heff as [_ ->]. done.
      - right. destruct Heff as [_ ->]. done.
      - right. destruct Heff as [_ ->]. done.
      - left. destruct Heff as [_ ->]. split; [done|]. by apply kept_mark.
      - right. by subst st1. }
    destruct Hstep as [[Ho Hk]|[Ho Hk]].
    + destruct (Z_lt_dec (j + 1) MAX_STORED_ALERTS) as [Hlt|Hge].
      * destruct (IH st1 (j + 1) ltac:(lia) (Hk Hlt)) as (os & st2 & -> & Hfin).
        exists (o :: os), st2. split; [done|].
        rewrite alert_count_cons, Ho.
        replace (j + (1 + alert_count (Ok os))) with (j + 1 + alert_count (Ok os)) by lia.
        done.
      * destruct (processEvents_run cfg env events st1) as (os & st2 & -> & _).
        exists (o :: os), st2. split; [done|].
        rewrite alert_count_cons, Ho.
        pose proof (alert_count_nonneg (Ok os)). lia.
    + destruct (IH st1 j Hj Hk) as (os & st2 & -> & Hfin).
      exists (o :: os), st2. split; [done|].
      rewrite alert_count_cons, Ho. by rewrite Z.add_0_l.
Qed.

(** An event whose key is in the alerted set leaves at the dedup check. *)
Lemma processEvent_seen args (st : State) :
  (MIN_BET_AMOUNT cfg <= tradeAmountOf (makerAmountFilled args))%Q ->
  let iso := date_iso env (trace st) in
  let key := alertKeyOf args (before_T iso) in
  set_has key (alertedTrades st) = true ->
  processEvent cfg env (EventLog args) st =
    (Ok (FilteredByDedup key), record (DateIso iso) st).
Proof.
  intros Hmin iso key Hseen. apply Qlt_bool_false in Hmin.
  unfold processEvent, try_catch, bind. cbn [event_args]. unfold ret.
  rewrite Hmin. unfold dateIso, read, alertedTrades_has. cbv beta iota zeta.
  fold iso. fold key.
  change (alertedTrades (record (DateIso iso) st)) with (alertedTrades st).
  by rewrite Hseen.
Qed.

End Dedup.

(** Within one run of the loop: when an event was alerted, an event that reaches the
    dedup check with an equal key is discarded there, with no call but the
    reading of the date and no change of the stores, provided fewer than
    [MAX_STORED_ALERTS] alerts were raised between the two. *)
Lemma seen_key_discarded (cfg : Config) (env : Env)
    (args1 args2 : OrderFilledArgs) (between : list Event) (s : State)
    (key : string) :
  let r1 := processEvent cfg env (EventLog args1) s in
  let rb := processEvents cfg env between r1.2 in
  let r2 := processEvent cfg env (EventLog args2) rb.2 in
  let iso := date_iso env (trace rb.2) in
  r1.1 = Ok (Alerted key) ->
  alert_count rb.1 < MAX_STORED_ALERTS ->
  (MIN_BET_AMOUNT cfg <= tradeAmountOf (makerAmountFilled args2))%Q ->
  alertKeyOf args2 (before_T iso) = key ->
  r2 = (Ok (FilteredByDedup key), record (DateIso iso) rb.2).
Proof.
  intros r1 rb r2 iso. subst r1 rb r2 iso.
  destruct (processEvent_run cfg env (EventLog args1) s)
    as (o & s1 & -> & _ & Heff). simpl.
  intros [= ->] Hcount Hmin Hkey. simpl in Heff. destruct Heff as [Hfresh Hmark].
  assert (Hkept : kept key 0 (alertedTrades s1)).
  { rewrite Hmark. by apply kept_fresh_mark. }
  destruct (processEvents_kept cfg env key between s1 0 ltac:(lia) Hkept)
    as (os & s2 & Hrun & Hfin).
  rewrite Hrun in *. simpl in *.
  specialize (Hfin Hcount).
  rewrite <- Hkey. apply processEvent_seen; [done|].
  rewrite Hkey. by apply (kept_has key _ _ Hfin).
Qed.

(** ** Pairs of events, in one tick or in two *)

Section AcrossTicks.

Variable cfg : Config.
Variable env : Env.

Lemma set_history_app a os1 a1 os2 a2 :
  set_history a os1 a1 -> set_history a1 os2 a2 ->
  set_history a (os1 ++ os2) a2.
Proof.
  revert a. induction os1 as [|o os1 IH]; intros a; cbn [set_history app].
  - by intros ->.
  - intros (a' & Ho & Hrest) H2. exists a'. split; [done|]. by apply IH.
Qed.

Lemma set_history_split a os1 os2 a2 :
  set_history a (os1 ++ os2) a2 ->
  exists a1, set_history a os1 a1 /\ set_history a1 os2 a2.
Proof.
  revert a. induction os1 as [|o os1 IH]; intros a; cbn [set_history app].
  - intros H. by exists a.
  - intros (a' & Ho & Hrest). destruct (IH a' Hrest) as (a1 & H1 & H2).
    exists a1. split; [|done]. by exists a'.
Qed.

Lemma processEvent_set_effect event s o s' :
  processEvent cfg env event s = (Ok o, s') ->
  set_effect o (alertedTrades s) (alertedTrades s').
Proof.
  intros Hrun.
  destruct (processEvent_run cfg env event s) as (o' & s1 & Hrun' & _ & Heff).
  rewrite Hrun in Hrun'. injection Hrun' as <- <-.
  destruct o as [|k|k|k|k|]; cbn [outcome_effect set_effect] in *.
  - by subst.
  - destruct Heff as [Hseen ->]. done.
  - done.
  - done.
  - done.
  - by subst.
Qed.

Lemma processEvents_set_history events s os s' :
  processEvents cfg env events s = (Ok os, s') ->
  set_history (alertedTrades s) os (alertedTrades s').
Proof.
  revert s os. induction events as [|event events IH]; intros s os.
  - intros [= <- <-]. done.
  - cbn [processEvents]. unfold bind at 1.
    destruct (processEvent_run cfg env event s) as (o & s1 & Ho & _).
    rewrite Ho. unfold bind at 1.
    destruct (processEvents_run cfg env events s1) as (os1 & s2 & Hos & _).
    rewrite Hos. unfold ret. intros [= <- <-].
    exists (alertedTrades s1). split.
    + by apply (processEvent_set_effect event s).
    + by apply IH.
Qed.

Lemma tick_set_history s o s' :
  processBlockchainEvents cfg env s = (Ok o, s') ->
  set_history (alertedTrades s) (exits o) (alertedTrades s').
Proof.
  intros Hrun.
  destruct (processBlockchainEvents_run cfg env s) as (o' & s1 & Hrun' & Htick).
  rewrite Hrun in Hrun'. injection Hrun' as <- <-.
  destruct Htick as [Hh|cur Hh Hle|cur Hh Hlt from to Hq
                     |cur evs os s2 Hh Hlt from to s1 Hq Hev Hlen Hevolves].
  - done.
  - done.
  - cbn [exits set_history]. by rewrite alertedTrades_records.
  - cbn [exits]. apply processEvents_set_history in Hev.
    subst s1. by rewrite alertedTrades_records in Hev.
Qed.

Lemma ticks_set_history n s os s' :
  ticks cfg env n s = (Ok os, s') ->
  set_history (alertedTrades s) (tick_outcomes (Ok os)) (alertedTrades s').
Proof.
  revert s os. induction n as [|n IH]; intros s os.
  - intros [= <- <-]. done.
  - rewrite ticks_S.
    destruct (processBlockchainEvents cfg env s) as [[o|] s1] eqn:Ho; [|done].
    destruct (ticks cfg env n s1) as [[os1|] s2] eqn:Hn; [|done].
    intros [= <- <-]. cbn [tick_outcomes fmap list_fmap concat].
    apply (set_history_app _ _ (alertedTrades s1)).
    + by apply tick_set_history.
    + by apply (IH s1 os1).
Qed.

Lemma alerts_in_cons o os :
  alerts_in (o :: os) = (if is_alerted o then 1 else 0) + alerts_in os.
Proof. unfold alerts_in. simpl. destruct (is_alerted o); simpl; lia. Qed.

Lemma alerts_in_nonneg os : 0 <= alerts_in os.
Proof. unfold alerts_in. lia. Qed.

(** A key that is in the set stays there while fewer than
    [MAX_STORED_ALERTS] alerts follow it. *)
Lemma set_history_kept key os :
  forall a a' c,
    0 <= c ->
    kept key c a ->
    set_history a os a' ->
    c + alerts_in os < MAX_STORED_ALERTS ->
    kept key (c + alerts_in os) a'.
Proof.
  induction os as [|o os IH]; intros a a' c Hc Hkept; cbn [set_history].
  - intros -> _. unfold alerts_in. simpl. by rewrite Z.add_0_r.
  - intros (a1 & Ho & Hrest). rewrite alerts_in_cons.
    pose proof (alerts_in_nonneg os) as Hnn.
    destruct o as [|k|k|k|k|]; cbn [set_effect is_alerted] in *.
    + subst a1. rewrite Z.add_0_l. by apply (IH a).
    + destruct Ho as [_ ->]. rewrite Z.add_0_l. by apply (IH a).
    + destruct Ho as [_ ->]. rewrite Z.add_0_l. by apply (IH a).
    + destruct Ho as [_ ->]. rewrite Z.add_0_l. by apply (IH a).
    + destruct Ho as [_ ->]. intros Hlt.
      replace (c + (1 + alerts_in os)) with (c + 1 + alerts_in os) by lia.
      apply (IH (markAlerted k a)); [lia| |done|lia].
      apply kept_mark; [done|lia].
    + subst a1. rewrite Z.add_0_l. by apply (IH a).
Qed.

(** Of two events of a history, the first alerted: the second, when it
    reaches the dedup check with the same key while fewer than
    [MAX_STORED_ALERTS] alerts lie between them, leaves there. *)
Lemma set_history_dedup a os a' i j key o :
  set_history a os a' ->
  (i < j)%nat ->
  os !! i = Some (Alerted key) ->
  os !! j = Some o ->
  key_of o = Some key ->
  alerts_in (take (j - i - 1) (drop (S i) os)) < MAX_STORED_ALERTS ->
  o = FilteredByDedup key.
Proof.
  intros Hhist Hij Hi Hj Hkey Hcount.
  rewrite <- (take_drop_middle os i (Alerted key) Hi) in Hhist.
  apply set_history_split in Hhist as (a1 & _ & Hhist).
  cbn [set_history] in Hhist. destruct Hhist as (a2 & [Hfresh ->] & Hhist).
  assert (Hj' : drop (S i) os !! (j - i - 1)%nat = Some o).
  { rewrite lookup_drop. rewrite <- Hj. f_equal. lia. }
  rewrite <- (take_drop_middle (drop (S i) os) (j - i - 1) o Hj') in Hhist.
  apply set_history_split in Hhist as (a3 & Hmid & Hhist).
  cbn [set_history] in Hhist. destruct Hhist as (a4 & Ho & _).
  assert (Hkept : kept key (0 + alerts_in (take (j - i - 1) (drop (S i) os))) a3).
  { apply (set_history_kept key _ (markAlerted key a1)); [lia| |done|lia].
    by apply kept_fresh_mark. }
  apply kept_has in Hkept.
  destruct o as [|k|k|k|k|]; cbn [key_of] in Hkey; try discriminate Hkey;
    injection Hkey as ->; cbn [set_effect] in Ho; destruct Ho as [Hhas _];
    congruence.
Qed.

End AcrossTicks.

(** Two events of ticks that run one after the other. *)
Lemma dedup_in_ticks (cfg : Config) (env : Env) (n : nat) (s : State)
    (i j : nat) (key : string) (o : Outcome) :
  let os := tick_outcomes (ticks cfg env n s).1 in
  (i < j)%nat ->
  os !! i = Some (Alerted key) ->
  os !! j = Some o ->
  key_of o = Some key ->
  alerts_in (take (j - i - 1) (drop (S i) os)) < MAX_STORED_ALERTS ->
  o = FilteredByDedup key.
Proof.
  intros os Hij Hi Hj Hkey Hcount. subst os.
  destruct (ticks_run cfg env n s) as (ts & s' & Hrun & _).
  rewrite Hrun in *. cbn [fst] in *.
  eapply set_history_dedup; [|exact Hij|exact Hi|exact Hj|exact Hkey|exact Hcount].
  by apply (ticks_set_history cfg env n s ts s').
Qed.

(** C2, as amended.  As long as no tick is started while another is in
    flight, take any two events of the ticks that have ended, of one tick
    or of two: when the first was alerted and the second reaches the dedup
    check with an equal key while fewer than [MAX_STORED_ALERTS] alerts
    were raised between the two, the second leaves at the dedup check and
    is not alerted.  (The amounts are those whose key the source computes
    exactly.) *)
Theorem dedup_while_key_kept (cfg : Config) (env : Env)
    (schedule : list Async.Action) (s : State)
    (i j : nat) (key : string) (o : Outcome) :
  let os := world_outcomes (Async.run cfg env schedule (Async.idle s)) in
  modest_fills env ->
  Async.no_overlap cfg env schedule (Async.idle s) = true ->
  (i < j)%nat ->
  os !! i = Some (Alerted key) ->
  os !! j = Some o ->
  key_of o = Some key ->
  alerts_in (take (j - i - 1) (drop (S i) os)) < MAX_STORED_ALERTS ->
  o = FilteredByDedup key.
Proof.
  intros os _ Hno Hij Hi Hj Hkey Hcount. subst os.
  destruct (no_overlap_outcomes cfg env schedule s Hno)
    as (n & ts & sn & Hrun & Hos).
  rewrite Hos in *.
  eapply set_history_dedup; [|exact Hij|exact Hi|exact Hj|exact Hkey|exact Hcount].
  by apply (ticks_set_history cfg env n s ts sn).
Qed.

(** ** A wallet without balance in the window *)

Section ZeroBalance.

Variable cfg : Config.
Variable env : Env.

Lemma checkWalletAge_cached a firstSeen s :
  walletFirstSeen s !! a = Some firstSeen ->
  checkWalletAge cfg env a s =
    (Ok (ageRecord cfg ((date_now env (trace s) - firstSeen) / DAY_MS)),
     record (DateNow (date_now env (trace s))) s).
Proof.
  intros Hs. unfold checkWalletAge, try_catch, bind, walletFirstSeen_get.
  by rewrite Hs.
Qed.

(** When every probe finds no balance the candidate never moves: the loop
    probes the same block again and again. *)
Lemma probes_zero_balance a cur blocks first bs :
  forallb zero_balance (probes a cur blocks first bs) = true ->
  narrowed cur blocks first bs = first /\
  probes a cur blocks first bs =
    replicate (length bs) (GetBalance a (midBlockOf cur blocks first) (Ok 0)).
Proof.
  induction bs as [|b bs IH]; [done|].
  simpl. intros [Hb Hrest]%andb_true_iff.
  apply Z.eqb_eq in Hb. subst b. simpl in *.
  destruct (IH Hrest) as [-> ->]. done.
Qed.

End ZeroBalance.

(** C10, as amended.  For an address that is not cached, with at most 10
    transactions and no balance at any probed block, when no call fails:
    the five probes all hit the same block, the candidate stays the current
    height, the first-seen time is the timestamp of the current block, and
    it is cached; the age is the floor of the days from that timestamp to
    the clock.  When the timestamp is not ahead of the clock and less than
    a day behind it, and [NEW_ACCOUNT_DAYS] is not negative, the answer is
    [isNew = true] with [ageInDays = 0].  When the timestamp is less than a
    day behind the clock, every later call for the address that finds the
    cache entry, up to [NEW_ACCOUNT_DAYS] days after the first call,
    answers [isNew = true].  The cache entry is there whenever later ticks,
    none started while another is in flight, have come to rest. *)
Theorem zero_balance_wallet_stays_new (cfg : Config) (env : Env) (a : string)
    (s : State) :
  walletFirstSeen s !! a = None ->
  let r := checkWalletAge cfg env a s in
  let calls := calls_during s r.2 in
  existsb raised calls = false ->
  forallb low_count calls = true ->
  forallb zero_balance calls = true ->
  exists txCount currentBlock timestamp now,
    let firstSeen := timestamp * 1000 in
    calls =
      GetTransactionCount a (Ok txCount) :: GetBlockNumber (Ok currentBlock)
      :: replicate 5
           (GetBalance a
              (midBlockOf currentBlock (Z.min 10000 currentBlock) currentBlock)
              (Ok 0))
      ++ [GetBlock currentBlock (Ok (Some timestamp)); DateNow now] /\
    r.1 = Ok (ageRecord cfg ((now - firstSeen) / DAY_MS)) /\
    walletFirstSeen r.2 = <[a := firstSeen]> (walletFirstSeen s) /\
    (forall schedule,
       let w := Async.run cfg env schedule (Async.idle r.2) in
       Async.no_overlap cfg env schedule (Async.idle r.2) = true ->
       Async.quiescent w = true ->
       walletFirstSeen (Async.store w) !! a = Some firstSeen) /\
    (0 <= now - firstSeen < DAY_MS ->
     0 <= NEW_ACCOUNT_DAYS cfg ->
     r.1 = Ok {| isNew := true; ageInDays := 0; description := BrandNew |}) /\
    (now - firstSeen < DAY_MS ->
     forall s2,
       walletFirstSeen s2 !! a = Some firstSeen ->
       date_now env (trace s2) <= now + NEW_ACCOUNT_DAYS cfg * DAY_MS ->
       exists w, (checkWalletAge cfg env a s2).1 = Ok w /\ isNew w = true).
Proof.
  intros Hnone r calls. subst r calls.
  destruct (checkWalletAge_run cfg env a s) as (w & s' & -> & Hrun). simpl.
  intros Hraised Hlow Hzero.
  destruct Hrun as [f Hc now|Hc|tx Hc Hgt|tx new Hc Hle Hr Hq|tx cur bs ts now Hc Hle Hlen].
  - congruence.
  - rewrite calls_during_record in Hraised. discriminate Hraised.
  - rewrite calls_during_record in Hlow. simpl in Hlow.
    rewrite andb_true_r in Hlow. apply Z.leb_le in Hlow. lia.
  - exfalso. revert Hraised. rewrite calls_during_records, existsb_rev.
    rewrite existsb_app, Hr. done.
  - subst firstTxBlock blocksToSearch. rewrite searched_calls in *.
    cbn [forallb] in Hzero.
    apply andb_true_iff in Hzero as [_ Hzero].
    apply andb_true_iff in Hzero as [_ Hzero].
    rewrite forallb_app in Hzero. apply andb_true_iff in Hzero as [Hzero _].
    apply probes_zero_balance in Hzero as [Hfirst Hprobes].
    rewrite Hfirst, Hprobes, Hlen.
    exists tx, cur, ts, now. cbv zeta.
    split; [done|]. split; [done|].
    split; [cbn [walletFirstSeen cached]; by rewrite walletFirstSeen_records|].
    split.
    + intros schedule Hno Hq.
      apply (no_overlap_keeps_wallets cfg env); [done|done|].
      cbn [walletFirstSeen cached]. apply lookup_insert_eq.
    + assert (Hday : 0 < DAY_MS) by reflexivity.
      split.
      * intros Hsync Hnew.
        assert (Hage : (now - ts * 1000) / DAY_MS = 0)
          by (by apply Z.div_small).
        rewrite Hage. unfold ageRecord. simpl.
        apply Z.leb_le in Hnew. by rewrite Hnew.
      * intros Hsync s2 Hs2 Hclock.
        rewrite (checkWalletAge_cached cfg env a (ts * 1000) s2 Hs2).
        eexists. split; [reflexivity|]. simpl. apply Z.leb_le.
        apply Z.lt_succ_r. apply Z.div_lt_upper_bound; [done|]. lia.
Qed.

(** ** The claims at concrete inputs *)


(** C10: the claim fails as stated, for a wallet that is not cached, with
    2 transactions and no balance at any probe.  On a chain whose blocks
    are stamped 2 seconds ahead of the clock of the server its age is
    floor (-2000 / 86400000) = -1, not 0.  Behind a node that lags
    by more than two days its age is 2.  And with [NEW_ACCOUNT_DAYS] set to
    -1 its age is 0 and it is not new. *)
Lemma zero_balance_age_negative :
  let s := initial_state 100 in
  let r := checkWalletAge default_config ahead_env whale s in
  let calls := calls_during s r.2 in
  let r' := checkWalletAge default_config lagging_env whale s in
  let calls' := calls_during s r'.2 in
  let r'' := checkWalletAge strict_config quiet_env whale s in
  let calls'' := calls_during s r''.2 in
  walletFirstSeen s !! whale = None /\
  (existsb raised calls = false /\
   forallb low_count calls = true /\
   forallb zero_balance calls = true /\
   r.1 = Ok {| isNew := true; ageInDays := -1; description := DaysOld (-1) |} /\
   walletFirstSeen r.2 !! whale = Some 1700000007000) /\
  (existsb raised calls' = false /\
   forallb low_count calls' = true /\
   forallb zero_balance calls' = true /\
   r'.1 = Ok {| isNew := true; ageInDays := 2; description := DaysOld 2 |} /\
   walletFirstSeen r'.2 !! whale = Some 1699800000000) /\
  (existsb raised calls'' = false /\
   forallb low_count calls'' = true /\
   forallb zero_balance calls'' = true /\
   r''.1 = Ok {| isNew := false; ageInDays := 0; description := BrandNew |} /\
   walletFirstSeen r''.2 !! whale = Some 1700000000000).
Proof. cbv zeta. repeat split; vm_compute; reflexivity. Qed.

(** C7: the claim fails as stated.  Two calls for a cached wallet whose
    clock readings are 0.2 day apart, the first 0.9 day after the wallet
    was first seen: [ageInDays] is 0, then 1, and differs by 1, not by
    floor (0.2) = 0. *)
Lemma cached_age_difference_off_by_one :
  let r1 := checkWalletAge default_config ticking_env whale whale_cached in
  let r2 := checkWalletAge default_config ticking_env whale r1.2 in
  calls_during whale_cached r1.2 = [DateNow 1700077760000] /\
  calls_during r1.2 r2.2 = [DateNow 1700095040000] /\
  r1.1 = Ok {| isNew := true; ageInDays := 0; description := BrandNew |} /\
  r2.1 = Ok {| isNew := true; ageInDays := 1; description := DaysOld 1 |} /\
  (1700095040000 - 1700077760000) / DAY_MS = 0.
Proof. cbv zeta. repeat split; vm_compute; reflexivity. Qed.

(** A tick 100 blocks behind the chain scans 50 blocks and moves the cursor
    to the end of the chunk, although one event cannot be decoded and the
    other is below the minimum. *)
Example cursor_advances_past_failed_events :
  let r := processBlockchainEvents default_config noisy_env (initial_state 900) in
  r.1 = Ok (ScanComplete 901 950 [Failed; FilteredByAmount]) /\
  lastProcessedBlock r.2 = 950 /\
  alertedTrades r.2 = [].
Proof. cbv zeta. repeat split; vm_compute; reflexivity. Qed.


(** C3 at the keys "0", "1", ..., "5000". *)
Lemma alerted_set_bounded_fifo_witness :
  let first := pretty 0%nat in
  let rest := pretty <$> seq 1 (Z.to_nat MAX_STORED_ALERTS) in
  Z.of_nat (length (first :: rest)) = MAX_STORED_ALERTS + 1 /\
  markAll [] (first :: rest) = rest /\
  set_has first (markAll [] (first :: rest)) = false.
Proof.
  cbv zeta.
  assert (Hlen : Z.of_nat (length (pretty 0%nat
                   :: (pretty <$> seq 1 (Z.to_nat MAX_STORED_ALERTS))))
                 = MAX_STORED_ALERTS + 1).
  { rewrite length_cons, length_fmap, length_seq.
    unfold MAX_STORED_ALERTS. lia. }
  assert (Hnd : NoDup (pretty 0%nat
                   :: (pretty <$> seq 1 (Z.to_nat MAX_STORED_ALERTS)))).
  { change (NoDup (pretty <$> seq 0 (S (Z.to_nat MAX_STORED_ALERTS)))).
    apply (NoDup_fmap_2 _), NoDup_seq. }
  assert (Hs : Z.of_nat (length (@nil string)) <= MAX_STORED_ALERTS)
    by (unfold MAX_STORED_ALERTS; simpl; lia).
  destruct (alerted_set_bounded_fifo [] "key" _ _ Hs Hnd Hlen)
    as (_ & _ & Hrest & Hgone & _).
  split; [exact Hlen|]. split; [exact Hrest|exact Hgone].
Defined.

(** C4 at the first tick of [flaky_env], from cursor 100 at height 103. *)
Lemma scan_range_chunked_witness :
  let s := initial_state 100 in
  rpc_getBlockNumber flaky_env (trace s) = Ok 103 /\
  lastProcessedBlock s < 103 /\
  exists answer rest,
    calls_during s (processBlockchainEvents default_config flaky_env s).2 =
      GetBlockNumber (Ok 103)
      :: QueryFilter (lastProcessedBlock s + 1)
           (Z.min 103 (lastProcessedBlock s + maxBlockRange)) answer
      :: rest /\
    existsb is_query rest = false.
Proof.
  cbv zeta.
  assert (H1 : rpc_getBlockNumber flaky_env (trace (initial_state 100)) = Ok 103)
    by reflexivity.
  assert (H2 : lastProcessedBlock (initial_state 100) < 103) by (simpl; lia).
  split; [exact H1|]. split; [exact H2|].
  exact (proj1 (proj2 (scan_range_chunked default_config flaky_env
                         (initial_state 100) 103 H1 H2))).
Defined.


(** C6 where the first balance probe is rejected. *)
Lemma wallet_age_fails_open_witness :
  let s := initial_state 100 in
  let r := checkWalletAge default_config failing_env whale s in
  existsb raised (calls_during s r.2) = true /\
  exists w, r.1 = Ok w /\ isNew w = true /\ ageInDays w = 0.
Proof.
  cbv zeta.
  assert (H : existsb raised
                (calls_during (initial_state 100)
                   (checkWalletAge default_config failing_env whale
                      (initial_state 100)).2) = true)
    by (vm_compute; reflexivity).
  split; [exact H|].
  destruct (wallet_age_fails_open default_config failing_env whale
              (initial_state 100) H) as (w & Hw & Hnew & Hage & _).
  exists w. split; [exact Hw|]. split; [exact Hnew|exact Hage].
Defined.

(** C7, as amended, at two calls 0.2 day apart. *)
Lemma cached_age_recomputed_witness :
  let s1 := whale_cached in
  let s2 := record (DateNow 1700077760000) whale_cached in
  let age1 := (date_now ticking_env (trace s1) - 1700000000000) / DAY_MS in
  let age2 := (date_now ticking_env (trace s2) - 1700000000000) / DAY_MS in
  let delta := date_now ticking_env (trace s2) - date_now ticking_env (trace s1) in
  walletFirstSeen s1 !! whale = Some 1700000000000 /\
  walletFirstSeen s2 !! whale = Some 1700000000000 /\
  (age2 - age1 = delta / DAY_MS \/ age2 - age1 = delta / DAY_MS + 1).
Proof.
  cbv zeta.
  assert (H1 : walletFirstSeen whale_cached !! whale = Some 1700000000000)
    by (vm_compute; reflexivity).
  assert (H2 : walletFirstSeen (record (DateNow 1700077760000) whale_cached)
               !! whale = Some 1700000000000)
    by (vm_compute; reflexivity).
  split; [exact H1|]. split; [exact H2|].
  exact (proj1 (proj2 (proj2 (proj2 (proj2
    (cached_age_recomputed default_config ticking_env whale 1700000000000
       whale_cached (record (DateNow 1700077760000) whale_cached) H1 H2)))))).
Defined.


(** C8 at a fill of $50,000 by a new wallet on an active market, with a
    notifier that delivers and one that fails. *)
Lemma alert_state_independent_of_notifier_witness :
  let key := "0x71c7656ec7ab88b098defb751b7401b5f6d8976f-50000-56789012-2023-11-14" in
  let s := initial_state 100 in
  let r1 := processEvent webhook_config
              (with_notifier (fun _ _ _ => Ok tt) quiet_env) (fill 50000) s in
  let r2 := processEvent webhook_config
              (with_notifier (fun _ _ _ => Err) quiet_env) (fill 50000) s in
  r1.1 = Ok (Alerted key) /\
  r2.1 = Ok (Alerted key) /\
  alertedTrades r1.2 = [key] /\
  alertedTrades r2.2 = [key] /\
  existsb raised (calls_during s r1.2) = false /\
  existsb raised (calls_during s r2.2) = true.
Proof.
  cbv zeta.
  assert (Hmin : (MIN_BET_AMOUNT webhook_config
                  <= tradeAmountOf (makerAmountFilled (fill_args 50000)))%Q)
    by (unfold Qle; simpl; lia).
  assert (Hfresh :
    set_has (alertKeyOf (fill_args 50000)
               (before_T (date_iso quiet_env (trace (initial_state 100)))))
      (alertedTrades (initial_state 100)) = false) by reflexivity.
  assert (Hw : exists w,
    (checkWalletAge webhook_config quiet_env (maker (fill_args 50000))
       (record (DateIso (date_iso quiet_env (trace (initial_state 100))))
          (initial_state 100))).1 = Ok w /\ isNew w = true).
  { eexists. split; vm_compute; reflexivity. }
  assert (Hmarket :
    market_rejects
      (gamma_markets quiet_env
         (trace (checkWalletAge webhook_config quiet_env (maker (fill_args 50000))
                   (record (DateIso (date_iso quiet_env (trace (initial_state 100))))
                      (initial_state 100))).2)
         (slice_first 66 (pretty (makerAssetId (fill_args 50000))))) = false)
    by reflexivity.
  destruct (alert_state_independent_of_notifier webhook_config quiet_env
              (fun _ _ _ => Ok tt) (fun _ _ _ => Err) (fill_args 50000)
              (initial_state 100) Hmin Hfresh Hw Hmarket)
    as (H1 & H2 & H3 & H4 & _).
  split; [exact H1|]. split; [exact H2|].
  split; [exact H3|]. split; [exact H4|].
  split; vm_compute; reflexivity.
Defined.

(** C10 at a wallet of the quiet chain, where no address has a balance and
    the blocks are stamped 5 seconds behind the clock. *)
Lemma zero_balance_wallet_stays_new_witness :
  let s := initial_state 100 in
  let r := checkWalletAge default_config quiet_env whale s in
  let calls := calls_during s r.2 in
  walletFirstSeen s !! whale = None /\
  existsb raised calls = false /\
  forallb low_count calls = true /\
  forallb zero_balance calls = true /\
  walletFirstSeen r.2 = <[whale := 1700000000000]> (walletFirstSeen s) /\
  r.1 = Ok {| isNew := true; ageInDays := 0; description := BrandNew |}.
Proof.
  cbv zeta.
  assert (H1 : walletFirstSeen (initial_state 100) !! whale = None)
    by reflexivity.
  assert (H2 : existsb raised
                 (calls_during (initial_state 100)
                    (checkWalletAge default_config quiet_env whale
                       (initial_state 100)).2) = false)
    by (vm_compute; reflexivity).
  assert (H3 : forallb low_count
                 (calls_during (initial_state 100)
                    (checkWalletAge default_config quiet_env whale
                       (initial_state 100)).2) = true)
    by (vm_compute; reflexivity).
  assert (H4 : forallb zero_balance
                 (calls_during (initial_state 100)
                    (checkWalletAge default_config quiet_env whale
                       (initial_state 100)).2) = true)
    by (vm_compute; reflexivity).
  split; [exact H1|]. split; [exact H2|]. split; [exact H3|]. split; [exact H4|].
  destruct (zero_balance_wallet_stays_new default_config quiet_env whale
              (initial_state 100) H1 H2 H3 H4)
    as (txCount & cur & ts & now & Hcalls & _ & Hcache & _ & Hnew & _).
  assert (Hts : ts = 1700000000 /\ now = 1700000005000).
  { vm_compute in Hcalls. inversion Hcalls. done. }
  destruct Hts as [-> ->].
  split; [exact Hcache|].
  apply Hnew; [unfold DAY_MS; lia|simpl; lia].
Defined.

(** C2, as amended, at the scenario of the specification, in two ticks of
    which the second is started when the first has returned: a trade of
    $50,000 from a wallet with 2 transactions on an active market is
    alerted by the first tick, and the same fill met by the second tick is
    discarded at the dedup check. *)
Lemma dedup_while_key_kept_witness :
  let key := "0x71c7656ec7ab88b098defb751b7401b5f6d8976f-50000-56789012-2023-11-14" in
  let schedule := long_tick 0 13 ++ one_tick 1 in
  let os := world_outcomes
              (Async.run webhook_config busy_env schedule
                 (Async.idle (initial_state 1000))) in
  modest_fills busy_env /\
  Async.no_overlap webhook_config busy_env schedule
    (Async.idle (initial_state 1000)) = true /\
  os !! 0%nat = Some (Alerted key) /\
  os !! 1%nat = Some (FilteredByDedup key).
Proof.
  cbv zeta.
  assert (Hmodest : modest_fills busy_env).
  { intros t f t' events [= <-]. repeat constructor. }
  assert (Hno : Async.no_overlap webhook_config busy_env
                  (long_tick 0 13 ++ one_tick 1)
                  (Async.idle (initial_state 1000)) = true)
    by (vm_compute; reflexivity).
  assert (H0 : world_outcomes
                 (Async.run webhook_config busy_env
                    (long_tick 0 13 ++ one_tick 1)
                    (Async.idle (initial_state 1000))) !! 0%nat
               = Some (Alerted "0x71c7656ec7ab88b098defb751b7401b5f6d8976f-50000-56789012-2023-11-14"))
    by (vm_compute; reflexivity).
  destruct (world_outcomes
              (Async.run webhook_config busy_env
                 (long_tick 0 13 ++ one_tick 1)
                 (Async.idle (initial_state 1000))) !! 1%nat)
    as [o|] eqn:H1; [|vm_compute in H1; discriminate H1].
  assert (Hkey : key_of o = Some "0x71c7656ec7ab88b098defb751b7401b5f6d8976f-50000-56789012-2023-11-14").
  { vm_compute in H1. injection H1 as <-. reflexivity. }
  split; [exact Hmodest|]. split; [exact Hno|]. split; [exact H0|]. f_equal.
  apply (dedup_while_key_kept webhook_config busy_env
           (long_tick 0 13 ++ one_tick 1) (initial_state 1000)
           0 1 _ o Hmodest Hno); [lia|exact H0|exact H1|exact Hkey|].
  vm_compute. reflexivity.
Defined.

(** ** A storm of alerts *)

Section Storm.

Lemma string_length_app (s1 s2 : string) :
  String.length (s1 +:+ s2) = (String.length s1 + String.length s2)%nat.
Proof. induction s1 as [|c s1 IH]; simpl; [done|]. by rewrite IH. Qed.

Lemma string_app_inv_tail (s1 s2 t : string) :
  s1 +:+ t = s2 +:+ t -> s1 = s2.
Proof.
  revert s2. induction s1 as [|c s1 IH]; intros [|c2 s2] H; simpl in H.
  - done.
  - apply (f_equal String.length) in H. simpl in H.
    rewrite ?string_length_app in H. simpl in H. lia.
  - apply (f_equal String.length) in H. simpl in H.
    rewrite ?string_length_app in H. simpl in H. lia.
  - injection H as -> H. f_equal. by apply IH.
Qed.

(** A whole number of dollars is its own amount, rounded down to 100. *)
Lemma roundedAmountOf_dollars (dollars : N) :
  roundedAmountOf (tradeAmountOf (dollars * 1000000)) =
  Z.of_N dollars / 100 * 100.
Proof.
  unfold roundedAmountOf, tradeAmountOf, Qdiv, Qinv, Qmult, Qfloor.
  cbn [Qnum Qden]. f_equal.
  rewrite N2Z.inj_mul. change (Z.of_N 1000000) with 1000000.
  change (Z.pos (1000000 * 100)) with (100 * 1000000).
  rewrite Z.mul_1_r. apply Z.div_mul_cancel_r; lia.
Qed.

Lemma roundedAmountOf_rising (i : nat) :
  roundedAmountOf (tradeAmountOf (rising i * 1000000)) = 10000 + 100 * Z.of_nat i.
Proof.
  rewrite roundedAmountOf_dollars. unfold rising.
  rewrite N2Z.inj_add, N2Z.inj_mul, nat_N_Z.
  change (Z.of_N 10000) with 10000. change (Z.of_N 100) with 100.
  replace (10000 + 100 * Z.of_nat i) with ((100 + Z.of_nat i) * 100) by lia.
  by rewrite Z.div_mul.
Qed.

Lemma fill_key_rising (i : nat) :
  fill_key (rising i) =
  toLowerCase whale +:+ "-" +:+ pretty (10000 + 100 * Z.of_nat i)
  +:+ "-56789012-2023-11-14".
Proof.
  unfold fill_key, alertKeyOf, fill_args.
  cbn [maker makerAmountFilled makerAssetId].
  by rewrite roundedAmountOf_rising.
Qed.

Local Instance fill_key_rising_inj : Inj (=) (=) (fun i => fill_key (rising i)).
Proof.
  intros i j H. rewrite !fill_key_rising in H.
  apply (inj (String.app _)) in H. apply (inj (String.app _)) in H.
  apply string_app_inv_tail in H. apply (inj pretty) in H. lia.
Qed.

Lemma amount_reaches_minimum (dollars : N) :
  (10000 <= dollars)%N ->
  Qlt_bool (tradeAmountOf (makerAmountFilled (fill_args dollars)))
    (MIN_BET_AMOUNT webhook_config) = false.
Proof.
  intros H. apply Qlt_bool_false.
  unfold Qle, tradeAmountOf, fill_args. cbn [Qnum Qden makerAmountFilled
    MIN_BET_AMOUNT webhook_config]. lia.
Qed.

(** In the quiet environment a fill by the cached [whale] of at least
    $10,000 whose key is not in the set is alerted. *)
Lemma storm_step (st : State) (dollars : N) :
  walletFirstSeen st !! whale = Some 1700000000000 ->
  (10000 <= dollars)%N ->
  set_has (fill_key dollars) (alertedTrades st) = false ->
  exists st',
    processEvent webhook_config quiet_env (fill dollars) st =
      (Ok (Alerted (fill_key dollars)), st') /\
    alertedTrades st' = markAlerted (fill_key dollars) (alertedTrades st) /\
    walletFirstSeen st' = walletFirstSeen st.
Proof.
  intros Hcache Hmin Hfresh.
  unfold processEvent, try_catch, bind, fill. cbn [event_args]. unfold ret.
  rewrite (amount_reaches_minimum dollars Hmin).
  unfold dateIso, read, alertedTrades_has. cbv beta iota zeta.
  change (before_T (date_iso quiet_env (trace st))) with "2023-11-14".
  change (alertKeyOf (fill_args dollars) "2023-11-14") with (fill_key dollars).
  set (s1 := record (DateIso (date_iso quiet_env (trace st))) st).
  change (alertedTrades s1) with (alertedTrades st). rewrite Hfresh.
  change (maker (fill_args dollars)) with whale.
  rewrite (checkWalletAge_cached webhook_config quiet_env whale 1700000000000 s1 Hcache).
  change (ageRecord webhook_config
            ((date_now quiet_env (trace s1) - 1700000000000) / DAY_MS))
    with {| isNew := true; ageInDays := 0; description := BrandNew |}.
  cbn [isNew negb].
  set (s2 := record (DateNow (date_now quiet_env (trace s1))) s1).
  match goal with
  | |- context [getMarketByConditionId quiet_env ?cid s2] =>
      change (getMarketByConditionId quiet_env cid s2)
        with (Ok (Some active_market),
              record (MarketsGet cid (Ok [active_market])) s2);
      set (s3 := record (MarketsGet cid (Ok [active_market])) s2)
  end.
  cbv beta iota.
  change (closedOrInactive active_market) with false. cbv beta iota.
  match goal with
  | |- context [sendDiscordAlert webhook_config quiet_env ?td ?w ?m s3] =>
      destruct (sendDiscordAlert_run webhook_config quiet_env td w m s3)
        as (new & -> & _)
  end.
  unfold alertedTrades_update, sleep. cbv beta iota zeta.
  eexists. split; [reflexivity|].
  cbn [alertedTrades walletFirstSeen record].
  by rewrite alertedTrades_records, walletFirstSeen_records.
Qed.

Lemma markAlerted_subset key k s : k ∈ markAlerted key s -> k ∈ s \/ k = key.
Proof.
  unfold markAlerted, evictOldest, set_add.
  assert (Hadd : k ∈ (if set_has key s then s else s ++ [key]) -> k ∈ s \/ k = key).
  { destruct (set_has key s); [auto|].
    intros [H|H%list_elem_of_singleton]%elem_of_app; auto. }
  destruct (_ >? _); [|done].
  destruct (if set_has key s then s else s ++ [key]) as [|x l] eqn:E; [done|].
  unfold set_delete. intros [_ H]%list_elem_of_filter. by apply Hadd.
Qed.

(** A run of fills with distinct keys, none of them in the set, alerts
    every one of them. *)
Lemma storm_run (amounts : list N) :
  forall st : State,
    walletFirstSeen st !! whale = Some 1700000000000 ->
    Forall (fun d => (10000 <= d)%N) amounts ->
    NoDup (fill_key <$> amounts) ->
    (forall d, d ∈ amounts -> fill_key d ∉ alertedTrades st) ->
    exists st',
      processEvents webhook_config quiet_env (fill <$> amounts) st =
        (Ok ((fun d => Alerted (fill_key d)) <$> amounts), st') /\
      alertedTrades st' = markAll (alertedTrades st) (fill_key <$> amounts) /\
      walletFirstSeen st' !! whale = Some 1700000000000.
Proof.
  induction amounts as [|d amounts IH]; intros st Hcache Hmin Hnd Hfresh.
  - exists st. done.
  - apply Forall_cons in Hmin as [Hd Hmin].
    rewrite fmap_cons in Hnd. apply NoDup_cons in Hnd as [Hd_new Hnd].
    destruct (storm_step st d Hcache Hd) as (st1 & Hstep & Hset & Hwallet).
    { apply set_has_false. apply Hfresh. by left. }
    destruct (IH st1) as (st2 & Hrest & Hset2 & Hwallet2);
      [by rewrite Hwallet|done|done| |].
    { intros d' Hd' Hin. rewrite Hset in Hin.
      apply markAlerted_subset in Hin as [Hin|Heq].
      - apply (Hfresh d'); [by right|done].
      - apply Hd_new. rewrite <- Heq. by apply list_elem_of_fmap_2. }
    exists st2. split; [|split; [|done]].
    + rewrite fmap_cons. cbn [processEvents]. unfold bind.
      by rewrite Hstep, Hrest.
    + by rewrite Hset2, Hset.
Qed.

Lemma processEvents_app cfg env events1 events2 (st st1 st2 : State) os1 os2 :
  processEvents cfg env events1 st = (Ok os1, st1) ->
  processEvents cfg env events2 st1 = (Ok os2, st2) ->
  processEvents cfg env (events1 ++ events2) st = (Ok (os1 ++ os2), st2).
Proof.
  revert st os1. induction events1 as [|e events1 IH]; intros st os1 H1 H2.
  - injection H1 as <- <-. done.
  - cbn [app processEvents] in *. unfold bind in *.
    destruct (processEvent cfg env e st) as [[o|] st'] eqn:Ho; [|done].
    destruct (processEvents cfg env events1 st') as [[os|] st''] eqn:Hos; [|done].
    injection H1 as <- <-.
    by rewrite (IH st' os Hos H2).
Qed.

Lemma storm_keys_distinct (n : nat) :
  NoDup (fill_key (rising 0) :: (fill_key <$> (rising <$> seq 1 n))).
Proof.
  rewrite <- list_fmap_compose.
  change (NoDup ((fun i => fill_key (rising i)) <$> seq 0 (S n))).
  apply (NoDup_fmap_2 _), NoDup_seq.
Qed.

(** The run of [storm]: the first fill is alerted, the fills of rising
    amounts are alerted and push its key out of the set, and the last fill,
    which has the key of the first, is alerted again. *)
Lemma storm_outcomes :
  exists st,
    processEvents webhook_config quiet_env storm (initial_state 100) =
      (Ok (Alerted (fill_key (rising 0))
           :: ((fun d => Alerted (fill_key d))
                 <$> (rising <$> seq 1 (Z.to_nat MAX_STORED_ALERTS)))
           ++ [Alerted (fill_key (rising 0))]), st).
Proof.
  unfold storm, storm_amounts.
  assert (Hn : Z.of_nat (Z.to_nat MAX_STORED_ALERTS) = MAX_STORED_ALERTS)
    by (apply Z2Nat.id; unfold MAX_STORED_ALERTS; lia).
  revert Hn. generalize (Z.to_nat MAX_STORED_ALERTS). intros n Hn.
  set (amounts := rising <$> seq 1 n).
  set (s0 := initial_state 100).
  (* the first fill, by a wallet that is not cached *)
  destruct (processEvent webhook_config quiet_env (fill (rising 0)) s0)
    as [o1 s1] eqn:H1.
  assert (Ho1 : o1 = Ok (Alerted (fill_key (rising 0)))).
  { change o1 with (o1, s1).1. rewrite <- H1. vm_compute. reflexivity. }
  assert (Hset1 : alertedTrades s1 = [fill_key (rising 0)]).
  { change s1 with (o1, s1).2. rewrite <- H1. vm_compute. reflexivity. }
  assert (Hwallet1 : walletFirstSeen s1 !! whale = Some 1700000000000).
  { change s1 with (o1, s1).2. rewrite <- H1. vm_compute. reflexivity. }
  subst o1.
  pose proof (storm_keys_distinct n) as Hnd. fold amounts in Hnd.
  pose proof Hnd as Hnd'. apply NoDup_cons in Hnd' as [Hfirst Hrest].
  (* the fills of rising amounts *)
  destruct (storm_run amounts s1 Hwallet1) as (s2 & Hrun2 & Hset2 & Hwallet2).
  { apply Forall_forall. intros d (i & -> & _)%list_elem_of_fmap.
    unfold rising. lia. }
  { exact Hrest. }
  { intros d Hd. rewrite Hset1. intros Heq%list_elem_of_singleton.
    apply Hfirst. rewrite <- Heq. by apply list_elem_of_fmap_2. }
  assert (Hevicted : alertedTrades s2 = fill_key <$> amounts).
  { rewrite Hset2, Hset1.
    change (markAll [] (fill_key (rising 0) :: (fill_key <$> amounts))
            = fill_key <$> amounts).
    apply markAll_over_capacity; [exact Hnd|].
    unfold amounts. by rewrite !length_fmap, length_seq. }
  (* the first fill again *)
  destruct (storm_step s2 (rising 0) Hwallet2) as (s3 & Hstep3 & _).
  { unfold rising. lia. }
  { apply set_has_false. by rewrite Hevicted. }
  exists s3.
  rewrite fmap_cons, fmap_app. cbn [processEvents]. unfold bind.
  rewrite H1.
  rewrite (processEvents_app webhook_config quiet_env (fill <$> amounts)
             (fill <$> [rising 0]) s1 s2 s3
             ((fun d => Alerted (fill_key d)) <$> amounts)
             [Alerted (fill_key (rising 0))] Hrun2).
  - reflexivity.
  - cbn [fmap list_fmap processEvents]. unfold bind. by rewrite Hstep3.
Qed.

End Storm.

(** In [storm] the first and the last event
    are the same fill, with the same key on the same day; the first is
    alerted; after the [MAX_STORED_ALERTS] alerts between them the key is
    no longer in the set, and the last is alerted again. *)
Lemma storm_key_realerted :
  let key := "0x71c7656ec7ab88b098defb751b7401b5f6d8976f-10000-56789012-2023-11-14" in
  let r := processEvents webhook_config quiet_env storm (initial_state 100) in
  head storm = Some (fill 10000) /\
  last storm = Some (fill 10000) /\
  alertKeyOf (fill_args 10000) (before_T (date_iso quiet_env [])) = key /\
  first_outcome r.1 = Some (Alerted key) /\
  last_outcome r.1 = Some (Alerted key).
Proof.
  cbv zeta.
  assert (Hkey : fill_key (rising 0) =
    "0x71c7656ec7ab88b098defb751b7401b5f6d8976f-10000-56789012-2023-11-14")
    by (vm_compute; reflexivity).
  split; [reflexivity|].
  split.
  { unfold storm, storm_amounts. rewrite fmap_cons, fmap_app.
    change (fill <$> [rising 0]) with [fill 10000].
    by rewrite app_comm_cons, last_snoc. }
  split; [exact Hkey|].
  destruct storm_outcomes as (st & ->). cbn [fst first_outcome last_outcome].
  rewrite Hkey. split; [reflexivity|].
  by rewrite app_comm_cons, last_snoc.
Qed.

(** C2: the claim fails as stated, in two ways.  In [storm] the fill of
    $10,000 is alerted, evicted by the [MAX_STORED_ALERTS] alerts that
    follow, and alerted again on the same day.  And when a tick is started
    while another is in flight, both can pass the dedup check with the same
    key before either has added it: both ticks end with an alert for the
    same key, two posts are made, and the key is in the set once. *)
Lemma dedup_key_evicted_and_realerted :
  let key := "0x71c7656ec7ab88b098defb751b7401b5f6d8976f-10000-56789012-2023-11-14" in
  let r := processEvents webhook_config quiet_env storm (initial_state 100) in
  let key' := "0x71c7656ec7ab88b098defb751b7401b5f6d8976f-50000-56789012-2023-11-14" in
  let w := Async.run webhook_config busy_env both_in_flight
             (Async.idle (initial_state 1000)) in
  (head storm = Some (fill 10000) /\
   last storm = Some (fill 10000) /\
   alertKeyOf (fill_args 10000) (before_T (date_iso quiet_env [])) = key /\
   first_outcome r.1 = Some (Alerted key) /\
   last_outcome r.1 = Some (Alerted key)) /\
  (Async.endings w =
     [Ok (ScanComplete 1001 1001 [Alerted key']);
      Ok (ScanComplete 1001 1002 [Alerted key'])] /\
   world_outcomes w = [Alerted key'; Alerted key'] /\
   count_calls is_post (calls_during (initial_state 1000) (Async.store w)) = 2%nat /\
   alertedTrades (Async.store w) = [key']).
Proof.
  cbv zeta. split; [exact storm_key_realerted|].
  repeat split; vm_compute; reflexivity.
Qed.

(** * Further properties of the code *)

(** ** Outcome, key and search arithmetic *)

(** X1.  [getOutcomeFromAssetId] reads the last decimal digit of the asset
    id, and so answers YES exactly for the odd asset ids and NO for the
    even ones. *)
Theorem outcome_is_parity (assetId : N) :
  getOutcomeFromAssetId assetId = if N.odd assetId then YES else NO.
Proof.
  unfold getOutcomeFromAssetId.
  assert (Hmod : ((assetId mod 10) mod 2 = assetId mod 2)%N).
  { apply N2Z.inj. rewrite !N2Z.inj_mod.
    change (Z.of_N 10) with 10. change (Z.of_N 2) with 2.
    generalize (Z.of_N assetId). intros z. Z.div_mod_to_equations. lia. }
  rewrite Hmod, <- N.bit0_mod, N.bit0_odd.
  by destruct (N.odd assetId).
Qed.

(** The rounded amount, from the raw amount in millionths. *)
Lemma roundedAmountOf_raw (makerAmountFilled : N) :
  roundedAmountOf (tradeAmountOf makerAmountFilled) =
  Z.of_N makerAmountFilled / 100000000 * 100.
Proof.
  unfold roundedAmountOf, tradeAmountOf, Qdiv, Qinv, Qmult, Qfloor.
  cbn [Qnum Qden]. f_equal.
  change (Z.pos (1000000 * 100)) with 100000000.
  by rewrite Z.mul_1_r.
Qed.

(** ** The arithmetic of the key in doubles *)

Lemma is_double_Z z : Z.abs z < 2 ^ 53 -> is_double (inject_Z z).
Proof.
  intros H. exists z, 0. split; [done|]. split; [lia|]. left.
  by rewrite Z.mul_1_r.
Qed.

Lemma is_double_frac m e (p : positive) :
  Z.abs m < 2 ^ 53 -> 0 <= e <= 64 -> Z.pos p = 2 ^ e -> is_double (m # p).
Proof.
  intros Hm He Hp. exists m, e. split; [done|]. split; [done|]. right.
  rewrite <- Hp. apply Qmake_Qdiv.
Qed.

Lemma bucket_exact_under_rounding rnd (x : N) :
  rounding rnd ->
  modest_amount x ->
  (roundedAmount_rounded rnd (tradeAmount_rounded rnd x)
   == inject_Z (roundedAmountOf (tradeAmountOf x)))%Q.
Proof.
  intros [Hmono Hexact] Hx. rewrite roundedAmountOf_raw.
  unfold modest_amount in Hx.
  assert (Hz : 0 <= Z.of_N x < 800000000000000) by lia.
  unfold roundedAmount_rounded, tradeAmount_rounded.
  revert Hz. generalize (Z.of_N x). clear x Hx. intros z Hz.
  set (k := z / 100000000).
  assert (Hk : 0 <= k < 8000000) by (subst k; Z.div_mod_to_equations; lia).
  assert (Hzk : 100000000 * k <= z < 100000000 * (k + 1))
    by (subst k; Z.div_mod_to_equations; lia).
  set (a := z # 1000000).
  set (U := (100 * (k + 1) * 8388608 - 1) # 8388608).
  set (V := ((k + 1) * 1073741824 - 1) # 1073741824).
  assert (HU : is_double U).
  { apply (is_double_frac _ 23); [lia|lia|reflexivity]. }
  assert (HV : is_double V).
  { apply (is_double_frac _ 30); [lia|lia|reflexivity]. }
  assert (Ha_lo : (inject_Z (100 * k) <= rnd a)%Q).
  { rewrite <- (Hexact (inject_Z (100 * k))) by (apply is_double_Z; lia).
    apply Hmono. unfold Qle, a, inject_Z. cbn [Qnum Qden]. lia. }
  assert (Ha_hi : (rnd a <= U)%Q).
  { rewrite <- (Hexact U HU). apply Hmono.
    unfold Qle, a, U. cbn [Qnum Qden]. lia. }
  set (b := (rnd a / (100 # 1))%Q).
  assert (Hb_lo : (inject_Z k <= b)%Q).
  { unfold b. apply Qle_shift_div_l; [reflexivity|].
    apply (Qle_trans _ (inject_Z (100 * k))); [|exact Ha_lo].
    unfold Qle, Qmult, inject_Z. cbn [Qnum Qden]. lia. }
  assert (Hb_hi : (b <= V)%Q).
  { unfold b. apply Qle_shift_div_r; [reflexivity|].
    apply (Qle_trans _ U); [exact Ha_hi|].
    unfold Qle, Qmult, U, V. cbn [Qnum Qden]. lia. }
  assert (Hfloor : Qfloor (rnd b) = k).
  { apply Z.le_antisymm.
    - apply (Z.le_trans _ (Qfloor V)).
      + apply Qfloor_resp_le. rewrite <- (Hexact V HV). apply Hmono, Hb_hi.
      + unfold V, Qfloor. Z.div_mod_to_equations. lia.
    - rewrite <- (Qfloor_Z k). apply Qfloor_resp_le.
      rewrite <- (Hexact (inject_Z k)) by (apply is_double_Z; lia).
      by apply Hmono. }
  rewrite Hfloor.
  assert (Hprod : (inject_Z k * (100 # 1) == inject_Z (k * 100))%Q).
  { unfold Qeq, Qmult, inject_Z. cbn [Qnum Qden]. lia. }
  assert (Hk100 : is_double (inject_Z (k * 100))) by (apply is_double_Z; lia).
  apply Qle_antisym.
  - apply (Qle_trans _ (rnd (inject_Z (k * 100)))).
    + apply Hmono. rewrite Hprod. apply Qle_refl.
    + rewrite (Hexact _ Hk100). apply Qle_refl.
  - apply (Qle_trans _ (rnd (inject_Z (k * 100)))).
    + rewrite (Hexact _ Hk100). apply Qle_refl.
    + apply Hmono. rewrite Hprod. apply Qle_refl.
Qed.

(** X2.  For fills below 800 million USDC: the amount in the key is the
    trade amount rounded down to a multiple of 100, it is at most the
    amount and less than 100 below it, and it is what the arithmetic of the
    source gives in doubles.  For two such fills whose makers agree up to
    letter case and whose asset ids end in the same 8 digits, the keys of
    the same day are equal exactly when the amounts lie in the same bucket
    of 100; the order hash plays no part. *)
Theorem alert_key_buckets (args1 args2 : OrderFilledArgs) (today : string) :
  modest_amount (makerAmountFilled args1) ->
  modest_amount (makerAmountFilled args2) ->
  toLowerCase (maker args1) = toLowerCase (maker args2) ->
  slice_last 8 (pretty (makerAssetId args1)) =
    slice_last 8 (pretty (makerAssetId args2)) ->
  let amount1 := tradeAmountOf (makerAmountFilled args1) in
  let amount2 := tradeAmountOf (makerAmountFilled args2) in
  (inject_Z (roundedAmountOf amount1) <= amount1)%Q /\
  (amount1 < inject_Z (roundedAmountOf amount1 + 100))%Q /\
  (roundedAmountOf amount1 mod 100 = 0) /\
  (forall rnd, rounding rnd ->
     roundedAmount_rounded rnd (tradeAmount_rounded rnd (makerAmountFilled args1))
     == inject_Z (roundedAmountOf amount1) /\
     roundedAmount_rounded rnd (tradeAmount_rounded rnd (makerAmountFilled args2))
     == inject_Z (roundedAmountOf amount2))%Q /\
  (alertKeyOf args1 today = alertKeyOf args2 today <->
   roundedAmountOf amount1 = roundedAmountOf amount2).
Proof.
  intros Hm1 Hm2 Hmaker Hasset. cbv zeta.
  split; [|split; [|split; [|split]]].
  - rewrite roundedAmountOf_raw.
    unfold Qle, tradeAmountOf, inject_Z. cbn [Qnum Qden].
    Z.div_mod_to_equations. lia.
  - rewrite roundedAmountOf_raw.
    unfold Qlt, tradeAmountOf, inject_Z. cbn [Qnum Qden].
    Z.div_mod_to_equations. lia.
  - rewrite roundedAmountOf_raw. apply Z.mod_mul. lia.
  - intros rnd Hrnd. split; by apply bucket_exact_under_rounding.
  - unfold alertKeyOf. rewrite Hmaker, Hasset, !roundedAmountOf_raw. split.
    + intros H.
      apply (inj (String.app _)) in H. apply (inj (String.app _)) in H.
      apply string_app_inv_tail in H. by apply (inj pretty) in H.
    + by intros ->.
Qed.

Lemma midBlockOf_offset cur blocks first :
  midBlockOf cur blocks first = cur - blocks + (first - (cur - blocks)) / 2.
Proof. unfold midBlockOf. Z.div_mod_to_equations. lia. Qed.

(** Each probe keeps the candidate or halves its distance to the start of
    the window. *)
Lemma narrowed_lower_bound cur blocks first bs :
  cur - blocks <= first ->
  cur - blocks + (first - (cur - blocks)) / 2 ^ Z.of_nat (length bs)
  <= narrowed cur blocks first bs.
Proof.
  revert first. induction bs as [|b bs IH]; intros first Hlo.
  - simpl. rewrite Z.div_1_r. lia.
  - cbn [narrowed length]. rewrite Nat2Z.inj_succ, Z.pow_succ_r by lia.
    assert (Hpos : 0 < 2 ^ Z.of_nat (length bs)) by (apply Z.pow_pos_nonneg; lia).
    destruct (b >? 0).
    + etransitivity; [|apply IH].
      * rewrite midBlockOf_offset.
        replace (cur - blocks + (first - (cur - blocks)) / 2 - (cur - blocks))
          with ((first - (cur - blocks)) / 2) by lia.
        rewrite Z.div_div by lia. lia.
      * rewrite midBlockOf_offset.
        assert (0 <= (first - (cur - blocks)) / 2) by (apply Z.div_pos; lia).
        lia.
    + etransitivity; [|by apply IH].
      apply Z.add_le_mono_l.
      rewrite <- Z.div_div by lia.
      apply Z.div_le_mono; [lia|].
      apply Z.div_le_upper_bound; lia.
Qed.

Lemma narrowed_all_positive cur blocks first bs :
  Forall (fun b => 0 < b) bs ->
  narrowed cur blocks first bs =
  cur - blocks + (first - (cur - blocks)) / 2 ^ Z.of_nat (length bs).
Proof.
  revert first. induction bs as [|b bs IH]; intros first Hpos.
  - simpl. rewrite Z.div_1_r. lia.
  - apply Forall_cons in Hpos as [Hb Hpos].
    cbn [narrowed length]. rewrite Nat2Z.inj_succ, Z.pow_succ_r by lia.
    assert (H2 : 0 < 2 ^ Z.of_nat (length bs)) by (apply Z.pow_pos_nonneg; lia).
    destruct (Z.gtb_spec b 0) as [_|Hle]; [|lia].
    rewrite IH by done. rewrite midBlockOf_offset.
    replace (cur - blocks + (first - (cur - blocks)) / 2 - (cur - blocks))
      with ((first - (cur - blocks)) / 2) by lia.
    by rewrite Z.div_div by lia.
Qed.

(** X3.  The search is confined to the window and cannot come closer to its
    start than 1/32 of it: after the 5 probes of a search from height
    [currentBlock] the candidate lies between [start + window / 32] and
    [currentBlock], where [window = min (10000, currentBlock)] and [start =
    currentBlock - window]; when the balance is positive at every probe it
    is exactly [start + window / 32], however long the address has held
    its balance. *)
Theorem search_precision (currentBlock : Z) (bs : list Z) :
  0 <= currentBlock ->
  length bs = 5%nat ->
  let window := Z.min 10000 currentBlock in
  let start := currentBlock - window in
  let found := narrowed currentBlock window currentBlock bs in
  start + window / 32 <= found <= currentBlock /\
  (Forall (fun b => 0 < b) bs -> found = start + window / 32).
Proof.
  intros Hcur Hlen. cbv zeta.
  set (window := Z.min 10000 currentBlock).
  assert (Hw : currentBlock - (currentBlock - window) = window) by lia.
  split; [split|].
  - pose proof (narrowed_lower_bound currentBlock window currentBlock bs
                  ltac:(lia)) as H.
    rewrite Hlen, Hw in H. exact H.
  - apply narrowed_in_window. lia.
  - intros Hpos. rewrite narrowed_all_positive by done.
    by rewrite Hlen, Hw.
Qed.

(** ** The calls of the wallet-age estimator *)

Section WalletCalls.

Variable cfg : Config.
Variable env : Env.

Lemma wallet_call_probes a cur blocks first bs :
  forallb (wallet_call a) (probes a cur blocks first bs) = true /\
  length (probes a cur blocks first bs) = length bs.
Proof.
  revert first. induction bs as [|b bs IH]; intros first; [done|].
  cbn [probes forallb length wallet_call].
  destruct (IH (if b >? 0 then midBlockOf cur blocks first else first))
    as [-> ->].
  by rewrite String.eqb_refl.
Qed.

Lemma forallb_rev {A} (f : A -> bool) (l : list A) :
  forallb f (rev l) = forallb f l.
Proof.
  induction l as [|x l IH]; [done|].
  simpl. rewrite forallb_app, IH. simpl. destruct (f x), (forallb f l); done.
Qed.

(** What a call of [checkWalletAge] adds to the trace. *)
Lemma checkWalletAge_calls a s :
  exists w new,
    (checkWalletAge cfg env a s).1 = Ok w /\
    trace (checkWalletAge cfg env a s).2 = new ++ trace s /\
    (length new <= 9)%nat /\
    forallb (wallet_call a) new = true /\
    (is_Some (walletFirstSeen s !! a) ->
     length new = 1%nat /\
     walletFirstSeen (checkWalletAge cfg env a s).2 = walletFirstSeen s).
Proof.
  assert (Haa : String.eqb a a = true) by apply String.eqb_refl.
  unfold checkWalletAge, try_catch, bind, walletFirstSeen_get.
  destruct (walletFirstSeen s !! a) as [f|] eqn:Hcache.
  { eexists _, [DateNow _]. cbn. repeat split; try reflexivity; lia. }
  assert (Hnot : is_Some (@None Z) -> False) by (intros [? ?]; done).
  unfold getTransactionCount, await.
  destruct (rpc_getTransactionCount env (trace s) a) as [txCount|].
  2: { eexists _, [GetTransactionCount a Err]. cbn. rewrite Haa.
       repeat split; try reflexivity; try lia; try (exfalso; by apply Hnot). }
  set (s1 := record (GetTransactionCount a (Ok txCount)) s).
  destruct (txCount <=? 10).
  2: { eexists _, [GetTransactionCount a (Ok txCount)]. cbn. rewrite Haa.
       repeat split; try reflexivity; try lia; try (exfalso; by apply Hnot). }
  unfold searchWalletAge, bind, getBlockNumber, await.
  destruct (rpc_getBlockNumber env (trace s1)) as [cur|].
  2: { eexists _, [GetBlockNumber Err; GetTransactionCount a (Ok txCount)].
       cbn. rewrite Haa. repeat split; try reflexivity; try lia; try (exfalso; by apply Hnot). }
  set (s2 := record (GetBlockNumber (Ok cur)) s1).
  destruct (searchLoop_run env 5 a cur (Z.min 10000 cur) cur s2)
    as [(bs & Hlen & Hrun)|(bs & Hlen & Hrun)]; rewrite Hrun;
    destruct (wallet_call_probes a cur (Z.min 10000 cur) cur bs) as [Hps Hpl];
    set (ps := probes a cur (Z.min 10000 cur) cur bs) in *.
  2: { eexists _, (_ :: rev ps ++ [GetBlockNumber (Ok cur);
                                   GetTransactionCount a (Ok txCount)]).
       unfold ret. cbv beta iota. cbn [fst snd].
       rewrite trace_records. subst s2 s1. cbn [trace record].
       split; [done|].
       split; [cbn [app]; rewrite <- ?app_assoc; reflexivity|].
       split; [cbn [length]; rewrite length_app, length_rev, Hpl; simpl; lia|].
       split; [|intros H; by destruct Hnot].
       cbn [forallb wallet_call]. rewrite Haa, forallb_app, forallb_rev, Hps.
       cbn. by rewrite Haa. }
  set (first := narrowed cur (Z.min 10000 cur) cur bs).
  set (s3 := records (rev ps) s2).
  assert (Htrace3 : trace s3 = rev ps ++ [GetBlockNumber (Ok cur);
                                          GetTransactionCount a (Ok txCount)]
                               ++ trace s)
    by (unfold s3; by rewrite trace_records).
  assert (Hall : forallb (wallet_call a)
                   (rev ps ++ [GetBlockNumber (Ok cur);
                               GetTransactionCount a (Ok txCount)]) = true).
  { rewrite forallb_app, forallb_rev, Hps. cbn. by rewrite Haa. }
  assert (Hlen3 : length (rev ps ++ [GetBlockNumber (Ok cur);
                                     GetTransactionCount a (Ok txCount)]) = 7%nat).
  { rewrite length_app, length_rev, Hpl, Hlen. done. }
  unfold getBlock, await.
  destruct (rpc_getBlock env (trace s3) first) as [[ts|]|].
  - unfold dateNow, read, walletFirstSeen_set, ret. cbn [fst snd trace record].
    eexists _, (DateNow _ :: GetBlock first (Ok (Some ts))
                :: rev ps ++ [GetBlockNumber (Ok cur);
                              GetTransactionCount a (Ok txCount)]).
    split; [done|].
    split; [rewrite Htrace3; cbn [app]; rewrite <- ?app_assoc; reflexivity|].
    split; [cbn [length]; rewrite Hlen3; lia|].
    split; [cbn [forallb wallet_call]; by rewrite Hall|].
    intros H; by destruct Hnot.
  - unfold throw, ret. cbn [fst snd trace record].
    eexists _, (GetBlock first (Ok None)
                :: rev ps ++ [GetBlockNumber (Ok cur);
                              GetTransactionCount a (Ok txCount)]).
    split; [done|].
    split; [rewrite Htrace3; cbn [app]; rewrite <- ?app_assoc; reflexivity|].
    split; [cbn [length]; rewrite Hlen3; lia|].
    split; [cbn [forallb wallet_call]; by rewrite Hall|].
    intros H; by destruct Hnot.
  - unfold ret. cbn [fst snd trace record].
    eexists _, (GetBlock first Err
                :: rev ps ++ [GetBlockNumber (Ok cur);
                              GetTransactionCount a (Ok txCount)]).
    split; [done|].
    split; [rewrite Htrace3; cbn [app]; rewrite <- ?app_assoc; reflexivity|].
    split; [cbn [length]; rewrite Hlen3; lia|].
    split; [cbn [forallb wallet_call]; by rewrite Hall|].
    intros H; by destruct Hnot.
Qed.

End WalletCalls.

(** X4.  A call of [checkWalletAge] always returns a record, never raises,
    and makes at most 9 calls: the transaction count and the balances of
    this address only, the chain height, one block and the clock; no log
    query, no market lookup, no webhook post, no pause.  It leaves the
    alerted set and the cursor alone.  For a cached address it is a single
    reading of the clock, and the cache is left as it is. *)
Theorem wallet_age_call_budget (cfg : Config) (env : Env) (a : string)
    (s : State) :
  let r := checkWalletAge cfg env a s in
  let calls := calls_during s r.2 in
  (exists w, r.1 = Ok w) /\
  (length calls <= 9)%nat /\
  forallb (wallet_call a) calls = true /\
  alertedTrades r.2 = alertedTrades s /\
  lastProcessedBlock r.2 = lastProcessedBlock s /\
  (is_Some (walletFirstSeen s !! a) ->
   length calls = 1%nat /\ walletFirstSeen r.2 = walletFirstSeen s).
Proof.
  cbv zeta.
  destruct (checkWalletAge_calls cfg env a s)
    as (w & new & Hw & Htrace & Hlen & Hall & Hcached).
  rewrite (calls_during_extends new _ _ Htrace), length_rev, forallb_rev.
  split; [eauto|]. split; [done|]. split; [done|].
  destruct (checkWalletAge_run cfg env a s) as (w' & s' & Hrun & Hpath).
  apply wallet_age_run_evolves in Hpath as [[Hcur _ _] Hset].
  rewrite Hrun in *. cbn [fst snd] in *. done.
Qed.

(** ** What the ticks keep *)

Section Kept.

Variable cfg : Config.
Variable env : Env.

Lemma NoDup_markAlerted key (l : list string) :
  NoDup l -> NoDup (markAlerted key l).
Proof.
  intros Hnd. unfold markAlerted, evictOldest, set_add.
  assert (Hadd : NoDup (if set_has key l then l else l ++ [key])).
  { destruct (set_has key l) eqn:Hhas; [done|].
    apply set_has_false in Hhas. apply NoDup_app. split; [done|]. split.
    - intros x Hx ->%list_elem_of_singleton. done.
    - apply NoDup_singleton. }
  destruct (_ >? _); [|done].
  destruct (if set_has key l then l else l ++ [key]) as [|x l']; [done|].
  unfold set_delete. by apply NoDup_filter.
Qed.

(** A property of the alerted set that marking a key keeps is kept by the
    loop over the events, by a tick and by any number of ticks. *)
Lemma processEvents_alerted_inv (I : list string -> Prop) events (s : State) :
  (forall key l, I l -> I (markAlerted key l)) ->
  I (alertedTrades s) ->
  I (alertedTrades (processEvents cfg env events s).2).
Proof.
  intros HI. revert s. induction events as [|event events IH]; intros s Hs.
  - done.
  - cbn [processEvents]. unfold bind.
    destruct (processEvent_run cfg env event s) as (o & s1 & -> & _ & Heff).
    assert (Hs1 : I (alertedTrades s1)).
    { destruct o as [|k|k|k|k|]; simpl in Heff.
      - by subst s1.
      - by destruct Heff as [_ ->].
      - by destruct Heff as [_ ->].
      - by destruct Heff as [_ ->].
      - destruct Heff as [_ ->]. by apply HI.
      - by subst s1. }
    specialize (IH s1 Hs1).
    destruct (processEvents cfg env events s1) as [[os|] s2]; done.
Qed.

Lemma tick_alerted_inv (I : list string -> Prop) (s : State) :
  (forall key l, I l -> I (markAlerted key l)) ->
  I (alertedTrades s) ->
  I (alertedTrades (processBlockchainEvents cfg env s).2).
Proof.
  intros HI Hs.
  destruct (processBlockchainEvents_run cfg env s) as (o & s' & -> & Hrun).
  cbn [snd].
  destruct Hrun as [Hh|cur Hh Hle|cur Hh Hlt from to Hq
                    |cur evs os s2 Hh Hlt from to s1 Hq Hrun Hlen Hev]; try done.
  cbn [advanced alertedTrades].
  change s2 with (Ok os, s2).2. rewrite <- Hrun.
  by apply processEvents_alerted_inv.
Qed.

Lemma ticks_alerted_inv (I : list string -> Prop) n (s : State) :
  (forall key l, I l -> I (markAlerted key l)) ->
  I (alertedTrades s) ->
  I (alertedTrades (ticks cfg env n s).2).
Proof.
  intros HI. revert s. induction n as [|n IH]; intros s Hs; [done|].
  cbn [ticks]. unfold bind.
  pose proof (tick_alerted_inv I s HI Hs) as H1.
  destruct (processBlockchainEvents cfg env s) as [[o|] s1]; [|done].
  specialize (IH s1 H1).
  destruct (ticks cfg env n s1) as [[os|] s2]; done.
Qed.

End Kept.

(** X5.  As long as no tick is started while another is in flight, the
    wallet cache only grows: from the start to any point of rest a
    first-seen time that is cached is neither changed nor removed, so that
    the number of wallets the health endpoint reports does not go down. *)
Theorem wallet_cache_only_grows (cfg : Config) (env : Env)
    (schedule : list Async.Action) (s : State) :
  let w := Async.run cfg env schedule (Async.idle s) in
  Async.no_overlap cfg env schedule (Async.idle s) = true ->
  Async.quiescent w = true ->
  (forall a t,
     walletFirstSeen s !! a = Some t ->
     walletFirstSeen (Async.store w) !! a = Some t) /\
  (walletsTracked (health cfg s) <= walletsTracked (health cfg (Async.store w)))%nat.
Proof.
  intros w Hno Hq. subst w.
  assert (Hkeep : forall a t,
    walletFirstSeen s !! a = Some t ->
    walletFirstSeen (Async.store (Async.run cfg env schedule (Async.idle s))) !! a
    = Some t).
  { intros a t. by apply no_overlap_keeps_wallets. }
  split; [done|].
  cbn [walletsTracked health]. apply map_subseteq_size.
  by apply map_subseteq_spec.
Qed.

(** X6.  The alerted set stays a set within its capacity: when it starts
    without duplicates and with at most [MAX_STORED_ALERTS] keys (as the
    empty set does), it is so after any number of ticks, whatever the chain
    and the other services answer; the health endpoint never reports more
    than 5000 alerts, however many were sent. *)
Theorem alerted_set_stays_bounded (cfg : Config) (env : Env) (n : nat)
    (s : State) :
  NoDup (alertedTrades s) ->
  Z.of_nat (length (alertedTrades s)) <= MAX_STORED_ALERTS ->
  let s' := (ticks cfg env n s).2 in
  NoDup (alertedTrades s') /\
  (alertsSent (health cfg s') <= 5000)%nat.
Proof.
  intros Hnd Hlen. cbv zeta. split.
  - apply (ticks_alerted_inv cfg env (fun l => NoDup l));
      [intros key l; apply NoDup_markAlerted|done].
  - cbn [alertsSent health].
    assert (H : Z.of_nat (length (alertedTrades (ticks cfg env n s).2))
                <= MAX_STORED_ALERTS).
    { apply (ticks_alerted_inv cfg env
               (fun l => Z.of_nat (length l) <= MAX_STORED_ALERTS));
        [intros key l; apply length_markAlerted|done]. }
    unfold MAX_STORED_ALERTS in H. lia.
Qed.

(** ** The filters of the loop body *)

(** X7.  A large fill by a wallet that is not cached and has more than 10
    transactions is dropped at the age check after the transaction-count
    query alone: no market lookup, no post, no key, and nothing is cached,
    so the next large fill of that wallet asks for the count again.  A
    fill by a cached wallet first seen more than [NEW_ACCOUNT_DAYS] whole
    days before is dropped after a reading of the clock. *)
Theorem old_wallet_not_alerted (cfg : Config) (env : Env)
    (args : OrderFilledArgs) (s : State) :
  let iso := date_iso env (trace s) in
  let key := alertKeyOf args (before_T iso) in
  let s1 := record (DateIso iso) s in
  (MIN_BET_AMOUNT cfg <= tradeAmountOf (makerAmountFilled args))%Q ->
  set_has key (alertedTrades s) = false ->
  (forall txCount,
     walletFirstSeen s !! maker args = None ->
     rpc_getTransactionCount env (trace s1) (maker args) = Ok txCount ->
     10 < txCount ->
     processEvent cfg env (EventLog args) s =
       (Ok (FilteredByAge key),
        record (GetTransactionCount (maker args) (Ok txCount)) s1)) /\
  (forall firstSeen,
     walletFirstSeen s !! maker args = Some firstSeen ->
     let now := date_now env (trace s1) in
     (NEW_ACCOUNT_DAYS cfg + 1) * DAY_MS <= now - firstSeen ->
     processEvent cfg env (EventLog args) s =
       (Ok (FilteredByAge key), record (DateNow now) s1)).
Proof.
  intros iso key s1 Hmin Hfresh. split.
  - intros txCount Hnone Htx Hgt.
    rewrite (processEvent_to_wallet_check cfg env args s Hmin Hfresh
               (establishedRecord txCount)
               (record (GetTransactionCount (maker args) (Ok txCount)) s1)).
    + done.
    + unfold checkWalletAge, try_catch, bind, walletFirstSeen_get,
        getTransactionCount, await.
      change (walletFirstSeen (record (DateIso (date_iso env (trace s))) s))
        with (walletFirstSeen s).
      rewrite Hnone. fold iso. fold s1. rewrite Htx.
      destruct (Z.leb_spec txCount 10); [lia|done].
  - intros firstSeen Hsome now Hold.
    rewrite (processEvent_to_wallet_check cfg env args s Hmin Hfresh
               (ageRecord cfg ((now - firstSeen) / DAY_MS))
               (record (DateNow now) s1)).
    + unfold ageRecord. cbn [isNew].
      assert (Hday : 0 < DAY_MS) by reflexivity.
      assert (NEW_ACCOUNT_DAYS cfg + 1 <= (now - firstSeen) / DAY_MS)
        by (apply Z.div_le_lower_bound; lia).
      destruct (Z.leb_spec ((now - firstSeen) / DAY_MS) (NEW_ACCOUNT_DAYS cfg));
        [lia|done].
    + by apply checkWalletAge_cached.
Qed.

(** X8.  The market check fails closed.  When the wallet check answers
    [isNew] but the market lookup is rejected, or returns no market, or
    the market it returns has [closed === true] or [active === false], the
    event is dropped at the market check: the lookup is the last call, no
    post is made, there is no pause, and the key is not added to the
    alerted set.  A market that has neither field goes through. *)
Theorem market_check_fails_closed (cfg : Config) (env : Env)
    (args : OrderFilledArgs) (s : State) :
  let iso := date_iso env (trace s) in
  let key := alertKeyOf args (before_T iso) in
  let rw := checkWalletAge cfg env (maker args) (record (DateIso iso) s) in
  let conditionId := slice_first 66 (pretty (makerAssetId args)) in
  let answer := gamma_markets env (trace rw.2) conditionId in
  (MIN_BET_AMOUNT cfg <= tradeAmountOf (makerAmountFilled args))%Q ->
  set_has key (alertedTrades s) = false ->
  (exists w, rw.1 = Ok w /\ isNew w = true) ->
  market_rejects answer = true ->
  processEvent cfg env (EventLog args) s =
    (Ok (FilteredByMarket key), record (MarketsGet conditionId answer) rw.2) /\
  alertedTrades rw.2 = alertedTrades s /\
  market_rejects
    (Ok [{| question := ""; title := ""; slug := "";
            closed := None; active := None |}]) = false.
Proof.
  intros iso key rw conditionId answer Hmin Hfresh (w & Hw & Hnew) Hrej.
  subst rw answer.
  destruct (checkWalletAge cfg env (maker args) (record (DateIso iso) s))
    as [r s2] eqn:Hrun.
  cbn [fst snd] in *. subst r.
  split; [|split; [|done]].
  - rewrite (processEvent_to_wallet_check cfg env args s Hmin Hfresh w s2 Hrun).
    rewrite Hnew. cbn [negb]. cbv zeta. fold conditionId. by rewrite Hrej.
  - destruct (checkWalletAge_run cfg env (maker args) (record (DateIso iso) s))
      as (w' & s2' & Hrun' & Hpath).
    rewrite Hrun in Hrun'. injection Hrun' as <- <-.
    by apply wallet_age_run_evolves in Hpath as [_ ->].
Qed.

(** ** Posts and pauses *)

Section Posts.

Variable cfg : Config.
Variable env : Env.

Lemma sendDiscordAlert_exact tradeData walletInfo market (s : State) :
  sendDiscordAlert cfg env tradeData walletInfo market s =
    if String.eqb (DISCORD_WEBHOOK cfg) "" then (Ok tt, s)
    else
      let iso := date_iso env (trace s) in
      let embed := alert_embed tradeData walletInfo market iso in
      (Ok tt,
       records [WebhookPost (DISCORD_WEBHOOK cfg) embed
                  (discord_post env (DateIso iso :: trace s)
                     (DISCORD_WEBHOOK cfg) embed);
                DateIso iso] s).
Proof.
  unfold sendDiscordAlert.
  destruct (String.eqb (DISCORD_WEBHOOK cfg) ""); [done|].
  unfold try_catch, bind, dateIso, read, axios_post, await, ret.
  cbv beta iota zeta. cbn [trace record].
  fold (alert_embed tradeData walletInfo market (date_iso env (trace s))).
  by destruct (discord_post env _ _ _) as [[]|].
Qed.

Lemma count_calls_app p l1 l2 :
  count_calls p (l1 ++ l2) = (count_calls p l1 + count_calls p l2)%nat.
Proof.
  unfold count_calls. induction l1 as [|e l1 IH]; [done|].
  simpl. destruct (p e); simpl; by rewrite IH.
Qed.

Lemma count_calls_rev p l : count_calls p (rev l) = count_calls p l.
Proof.
  induction l as [|e l IH]; [done|].
  simpl rev. rewrite count_calls_app, IH.
  unfold count_calls. simpl. destruct (p e); simpl; lia.
Qed.

Lemma count_calls_quiet l :
  forallb quiet l = true ->
  count_calls is_post l = 0%nat /\ count_calls is_sleep l = 0%nat.
Proof.
  unfold count_calls. induction l as [|e l IH]; [done|].
  simpl. intros [He Hl]%andb_true_iff. destruct (IH Hl) as [IH1 IH2].
  unfold quiet in He. destruct (is_post e), (is_sleep e); done.
Qed.

Lemma wallet_call_quiet a l :
  forallb (wallet_call a) l = true -> forallb quiet l = true.
Proof.
  induction l as [|e l IH]; [done|].
  simpl. intros [He Hl]%andb_true_iff. rewrite (IH Hl), andb_true_r.
  by destruct e.
Qed.

(** The trace of an event: calls that are neither posts nor pauses, and,
    for an alert only, the post and the pause. *)
Lemma processEvent_trace event (s : State) :
  exists o s' pre post,
    processEvent cfg env event s = (Ok o, s') /\
    trace s' = post ++ pre ++ trace s /\
    forallb quiet pre = true /\
    match o with
    | Alerted key =>
        exists args,
          event = EventLog args /\
          (MIN_BET_AMOUNT cfg <= tradeAmountOf (makerAmountFilled args))%Q /\
          key = alertKeyOf args (before_T (date_iso env (trace s))) /\
          alert_calls cfg args post
    | _ => post = []
    end.
Proof.
  destruct event as [args|].
  2: { exists Failed, s, [], []. done. }
  destruct (Qlt_bool (tradeAmountOf (makerAmountFilled args)) (MIN_BET_AMOUNT cfg))
    eqn:Hamount.
  { exists FilteredByAmount, s, [], [].
    split; [|done].
    unfold processEvent, try_catch, bind. cbn [event_args]. unfold ret.
    by rewrite Hamount. }
  apply Qlt_bool_false in Hamount.
  set (iso := date_iso env (trace s)).
  set (key := alertKeyOf args (before_T iso)).
  set (s1 := record (DateIso iso) s).
  destruct (set_has key (alertedTrades s)) eqn:Hseen.
  { exists (FilteredByDedup key), s1, [DateIso iso], [].
    split; [by apply processEvent_seen|done]. }
  destruct (checkWalletAge_calls cfg env (maker args) s1)
    as (w & new & Hw & Htrace & _ & Hall & _).
  destruct (checkWalletAge cfg env (maker args) s1) as [r s2] eqn:Hrun.
  cbn [fst snd] in Hw, Htrace. subst r.
  apply wallet_call_quiet in Hall.
  rewrite (processEvent_to_wallet_check cfg env args s Hamount Hseen w s2 Hrun).
  destruct (isNew w); cbn [negb].
  2: { exists (FilteredByAge key), s2, (new ++ [DateIso iso]), [].
       split; [done|]. split; [by rewrite Htrace, <- app_assoc|].
       split; [|done]. by rewrite forallb_app, Hall. }
  cbv zeta.
  set (conditionId := slice_first 66 (pretty (makerAssetId args))).
  set (answer := gamma_markets env (trace s2) conditionId).
  set (s3 := record (MarketsGet conditionId answer) s2).
  assert (Hpre : trace s3 = (MarketsGet conditionId answer :: new ++ [DateIso iso])
                            ++ trace s).
  { cbn [s3 trace record app]. by rewrite Htrace, <- app_assoc. }
  assert (Hquiet : forallb quiet (MarketsGet conditionId answer
                                  :: new ++ [DateIso iso]) = true).
  { cbn [forallb]. by rewrite forallb_app, Hall. }
  destruct (market_rejects answer).
  { exists (FilteredByMarket key), s3, (MarketsGet conditionId answer
                                        :: new ++ [DateIso iso]), [].
    done. }
  unfold try_catch, bind. rewrite sendDiscordAlert_exact.
  fold (tradeDataOf args).
  unfold alertedTrades_update, sleep, ret.
  destruct (String.eqb (DISCORD_WEBHOOK cfg) "") eqn:Hhook; cbv beta iota zeta.
  - eexists (Alerted key), _, _, [Sleep 2000].
    split; [reflexivity|].
    split; [cbn [trace record app]; f_equal; exact Hpre|].
    split; [exact Hquiet|].
    exists args. split; [done|]. split; [done|]. split; [done|].
    unfold alert_calls. rewrite Hhook. by exists w, None, "", Err.
  - eexists (Alerted key), _, _, [Sleep 2000; WebhookPost _ _ _; DateIso _].
    split; [reflexivity|].
    split; [cbn [trace record records foldr app]; by rewrite Hpre|].
    split; [exact Hquiet|].
    exists args. split; [done|]. split; [done|]. split; [done|].
    unfold alert_calls. rewrite Hhook. eauto.
Qed.


End Posts.


(** X10.  Delivery is best effort.  [sendDiscordAlert] returns normally
    whatever the webhook answers and never touches the alerted set, the
    wallet cache or the cursor.  Without a webhook it does nothing at all.
    With one it reads the time and posts once; the post links to
    [https://polymarket.com/event/<slug>] when the market has a slug and to
    [https://polymarket.com] otherwise, and is titled with the market's
    question, else its title, else 'Unknown Market'. *)
Theorem alert_delivery_best_effort (cfg : Config) (env : Env)
    (tradeData : TradeData) (walletInfo : WalletInfo) (market : option Market)
    (s : State) :
  let r := sendDiscordAlert cfg env tradeData walletInfo market s in
  let url := DISCORD_WEBHOOK cfg in
  let iso := date_iso env (trace s) in
  let embed := alert_embed tradeData walletInfo market iso in
  r.1 = Ok tt /\
  alertedTrades r.2 = alertedTrades s /\
  walletFirstSeen r.2 = walletFirstSeen s /\
  lastProcessedBlock r.2 = lastProcessedBlock s /\
  (url = "" -> r.2 = s) /\
  (url <> "" ->
   exists answer,
     calls_during s r.2 = [DateIso iso; WebhookPost url embed answer]) /\
  (forall m, market = Some m ->
     embedMarketUrl embed =
       (if String.eqb (slug m) "" then "https://polymarket.com"
        else "https://polymarket.com/event/" +:+ slug m) /\
     (question m <> "" -> embedMarket embed = question m) /\
     (question m = "" -> title m <> "" -> embedMarket embed = title m) /\
     (question m = "" -> title m = "" -> embedMarket embed = "Unknown Market")).
Proof.
  cbv zeta.
  assert (Hembed : forall m, market = Some m ->
    embedMarketUrl
      (alert_embed tradeData walletInfo market (date_iso env (trace s))) =
      (if String.eqb (slug m) "" then "https://polymarket.com"
       else "https://polymarket.com/event/" +:+ slug m) /\
    (question m <> "" ->
     embedMarket
       (alert_embed tradeData walletInfo market (date_iso env (trace s))) =
       question m) /\
    (question m = "" -> title m <> "" ->
     embedMarket
       (alert_embed tradeData walletInfo market (date_iso env (trace s))) =
       title m) /\
    (question m = "" -> title m = "" ->
     embedMarket
       (alert_embed tradeData walletInfo market (date_iso env (trace s))) =
       "Unknown Market")).
  { intros m ->. cbn [alert_embed embedMarket embedMarketUrl]. unfold or_str.
    split; [done|]. split; [|split].
    - intros Hq. apply String.eqb_neq in Hq. by rewrite Hq.
    - intros -> Ht. apply String.eqb_neq in Ht. by rewrite Ht.
    - by intros -> ->. }
  rewrite sendDiscordAlert_exact.
  destruct (String.eqb_spec (DISCORD_WEBHOOK cfg) "") as [Hurl|Hurl].
  - cbn [fst snd]. do 5 (split; [done|]). split; [done|exact Hembed].
  - cbv zeta. cbn [fst snd].
    rewrite alertedTrades_records, walletFirstSeen_records,
      lastProcessedBlock_records, calls_during_records.
    do 5 (split; [done|]). split; [|exact Hembed].
    intros _. eexists. reflexivity.
Qed.

(** ** The cost of a tick *)

Section TickCost.

Variable cfg : Config.
Variable env : Env.

Lemma count_calls_none p l : existsb p l = false -> count_calls p l = 0%nat.
Proof.
  unfold count_calls. induction l as [|e l IH]; [done|].
  simpl. intros [-> Hl]%orb_false_iff. by apply IH.
Qed.

Lemma processEvents_counts events (s : State) :
  exists os s' new,
    processEvents cfg env events s = (Ok os, s') /\
    trace s' = new ++ trace s /\
    count_calls is_sleep new = length (List.filter is_alerted os) /\
    count_calls is_post new =
      (if String.eqb (DISCORD_WEBHOOK cfg) "" then 0%nat
       else length (List.filter is_alerted os)).
Proof.
  revert s. induction events as [|event events IH]; intros s.
  - exists [], s, []. repeat split; try done.
    by destruct (String.eqb (DISCORD_WEBHOOK cfg) "").
  - cbn [processEvents]. unfold bind.
    destruct (processEvent_trace cfg env event s)
      as (o & s1 & pre & post & -> & Htrace & Hquiet & Hshape).
    destruct (IH s1) as (os & s2 & new & -> & Htrace2 & Hsleep & Hpost).
    destruct (count_calls_quiet pre Hquiet) as [Hp0 Hs0].
    exists (o :: os), s2, (new ++ post ++ pre).
    split; [done|].
    split; [by rewrite Htrace2, Htrace, <- !app_assoc|].
    rewrite !count_calls_app, Hp0, Hs0, Hsleep, Hpost, !Nat.add_0_r.
    destruct o as [|k|k|k|k|]; try (subst post; unfold count_calls; cbn;
      split; [lia|destruct (String.eqb (DISCORD_WEBHOOK cfg) ""); lia]).
    destruct Hshape as (args & _ & _ & _ & (w & m & iso & answer & ->)).
    unfold count_calls.
    destruct (String.eqb (DISCORD_WEBHOOK cfg) ""); cbn; split; lia.
Qed.

End TickCost.

(** X11.  A tick makes at most one log query, pauses once for every alert
    it raises and at no other time, and posts once for every alert when a
    webhook is configured and never otherwise. *)
Theorem tick_pauses_once_per_alert (cfg : Config) (env : Env) (s : State) :
  let r := processBlockchainEvents cfg env s in
  let calls := calls_during s r.2 in
  exists o,
    r.1 = Ok o /\
    (count_calls is_query calls <= 1)%nat /\
    count_calls is_sleep calls = tick_alerts o /\
    count_calls is_post calls =
      (if String.eqb (DISCORD_WEBHOOK cfg) "" then 0%nat else tick_alerts o).
Proof.
  cbv zeta.
  destruct (processBlockchainEvents_run cfg env s) as (o & s' & -> & Hrun).
  cbn [fst snd]. exists o. split; [done|].
  destruct Hrun as [Hh|cur Hh Hle|cur Hh Hlt from to Hq
                    |cur evs os s2 Hh Hlt from to s1 Hq Hrun Hlen Hev].
  - rewrite calls_during_record. cbn.
    split; [lia|]. by destruct (String.eqb (DISCORD_WEBHOOK cfg) "").
  - rewrite calls_during_record. cbn.
    split; [lia|]. by destruct (String.eqb (DISCORD_WEBHOOK cfg) "").
  - rewrite calls_during_records. cbn.
    split; [lia|]. by destruct (String.eqb (DISCORD_WEBHOOK cfg) "").
  - destruct (processEvents_counts cfg env evs s1)
      as (os' & s2' & new & Hrun' & Htrace & Hsleep & Hpost).
    rewrite Hrun in Hrun'. injection Hrun' as <- <-.
    destruct Hev as [_ _ (new' & Htrace' & Hnq)].
    assert (new' = new) as -> by (apply (app_inv_tail (trace s1)); congruence).
    assert (Hall : trace (advanced to s2) =
                   (new ++ [QueryFilter from to (Ok evs); GetBlockNumber (Ok cur)])
                   ++ trace s).
    { cbn [advanced trace]. rewrite Htrace. subst s1.
      by rewrite trace_records, <- app_assoc. }
    rewrite (calls_during_extends _ _ _ Hall), !count_calls_rev,
      !count_calls_app, Hsleep, Hpost, (count_calls_none _ _ Hnq).
    cbn [tick_alerts]. cbn.
    split; [lia|]. split; [lia|].
    destruct (String.eqb (DISCORD_WEBHOOK cfg) ""); lia.
Qed.

(** ** Start-up *)

(** X12.  [initBlockchain] starts from now.  When the height query is
    rejected it answers false and leaves the cursor where it was; when the
    chain answers height [h] it answers true with the cursor at [h], and
    from there no tick ever gets logs of a block at or below [h]: there is
    no backfill. *)
Theorem init_starts_from_now (cfg : Config) (env : Env) (s : State) :
  let r := initBlockchain env s in
  (rpc_getBlockNumber env (trace s) = Err ->
   r = (Ok false, record (GetBlockNumber Err) s)) /\
  (forall h,
     rpc_getBlockNumber env (trace s) = Ok h ->
     r = (Ok true, advanced h (record (GetBlockNumber (Ok h)) s)) /\
     forall n,
       h <= lastProcessedBlock (ticks cfg env n r.2).2 /\
       ascending_from h
         (scanned_ranges (calls_during r.2 (ticks cfg env n r.2).2))).
Proof.
  cbv zeta. unfold initBlockchain, try_catch, bind, getBlockNumber, await,
    set_lastProcessedBlock, ret.
  split.
  - by intros ->.
  - intros h ->. split; [done|]. intros n. cbn [snd].
    destruct (ticks_run cfg env n (advanced h (record (GetBlockNumber (Ok h)) s)))
      as (os & s2 & Hrun & _ & _ & Hmono & Hasc & _).
    match goal with
    | |- context [ticks cfg env n ?st] =>
        change st with (advanced h (record (GetBlockNumber (Ok h)) s))
    end.
    rewrite Hrun. cbn [snd]. done.
Qed.


(** ** The further properties at concrete inputs *)

(** X2 at two fills of $10,010 and $10,090 by the same wallet, written once
    with its checksum capitals and once in lower case. *)
Lemma alert_key_buckets_witness :
  let args1 := fill_args 10010 in
  let args2 := {| orderHash := "0x01";
                  maker := "0x71c7656ec7ab88b098defb751b7401b5f6d8976f";
                  makerAssetId := 123456789012;
                  makerAmountFilled := 10090000000 |} in
  modest_amount (makerAmountFilled args1) /\
  modest_amount (makerAmountFilled args2) /\
  toLowerCase (maker args1) = toLowerCase (maker args2) /\
  slice_last 8 (pretty (makerAssetId args1)) =
    slice_last 8 (pretty (makerAssetId args2)) /\
  alertKeyOf args1 "2023-11-14" = alertKeyOf args2 "2023-11-14".
Proof.
  cbv zeta.
  set (args2 := {| orderHash := "0x01";
                   maker := "0x71c7656ec7ab88b098defb751b7401b5f6d8976f";
                   makerAssetId := 123456789012;
                   makerAmountFilled := 10090000000 |}).
  assert (H1 : toLowerCase (maker (fill_args 10010)) = toLowerCase (maker args2))
    by reflexivity.
  assert (H2 : slice_last 8 (pretty (makerAssetId (fill_args 10010))) =
               slice_last 8 (pretty (makerAssetId args2)))
    by reflexivity.
  assert (M1 : modest_amount (makerAmountFilled (fill_args 10010)))
    by reflexivity.
  assert (M2 : modest_amount (makerAmountFilled args2)) by reflexivity.
  split; [exact M1|]. split; [exact M2|].
  split; [exact H1|]. split; [exact H2|].
  apply (alert_key_buckets (fill_args 10010) args2 "2023-11-14" M1 M2 H1 H2).
  vm_compute. reflexivity.
Defined.

(** X3 at height 1000 with a positive balance at every probe: the search
    ends at block 31. *)
Lemma search_precision_witness :
  0 <= 1000 /\
  length [1; 1; 1; 1; 1] = 5%nat /\
  narrowed 1000 (Z.min 10000 1000) 1000 [1; 1; 1; 1; 1] = 31.
Proof.
  assert (H1 : 0 <= 1000) by lia.
  assert (H2 : length [1; 1; 1; 1; 1] = 5%nat) by reflexivity.
  split; [exact H1|]. split; [exact H2|].
  destruct (search_precision 1000 [1; 1; 1; 1; 1] H1 H2) as [_ Hexact].
  rewrite Hexact; [reflexivity|]. repeat constructor.
Defined.

(** X5 at two ticks that run one after the other on the busy chain, from
    a state in which [whale] is cached: the first alerts the fill, the
    second discards it. *)
Lemma wallet_cache_only_grows_witness :
  let schedule := long_tick 0 5 ++ one_tick 1 in
  let w := Async.run webhook_config busy_env schedule (Async.idle whale_cached) in
  Async.no_overlap webhook_config busy_env schedule (Async.idle whale_cached)
  = true /\
  Async.quiescent w = true /\
  walletFirstSeen (Async.store w) !! whale = Some 1700000000000.
Proof.
  cbv zeta.
  assert (H1 : Async.no_overlap webhook_config busy_env
                 (long_tick 0 5 ++ one_tick 1) (Async.idle whale_cached) = true)
    by (vm_compute; reflexivity).
  assert (H2 : Async.quiescent
                 (Async.run webhook_config busy_env (long_tick 0 5 ++ one_tick 1)
                    (Async.idle whale_cached)) = true)
    by (vm_compute; reflexivity).
  split; [exact H1|]. split; [exact H2|].
  apply (wallet_cache_only_grows webhook_config busy_env
           (long_tick 0 5 ++ one_tick 1) whale_cached H1 H2).
  reflexivity.
Defined.

(** When a tick is started while another is in flight, both can find the
    same wallet not cached, and the second to finish writes its own
    first-seen time over that of the first. *)
Lemma overlapping_ticks_change_cached_time :
  let s := initial_state 1000 in
  let w1 := Async.run webhook_config dated_env (take 17 both_in_flight)
              (Async.idle s) in
  let w2 := Async.run webhook_config dated_env both_in_flight (Async.idle s) in
  Async.no_overlap webhook_config dated_env both_in_flight (Async.idle s)
  = false /\
  walletFirstSeen (Async.store w1) !! whale = Some 1699991003000 /\
  Async.quiescent w2 = true /\
  walletFirstSeen (Async.store w2) !! whale = Some 1699991004000.
Proof. cbv zeta. repeat split; vm_compute; reflexivity. Qed.

(** X6 at two ticks of the noisy chain from the empty set. *)
Lemma alerted_set_stays_bounded_witness :
  let s := initial_state 900 in
  NoDup (alertedTrades s) /\
  Z.of_nat (length (alertedTrades s)) <= MAX_STORED_ALERTS /\
  NoDup (alertedTrades (ticks default_config noisy_env 2 s).2).
Proof.
  cbv zeta.
  assert (H1 : NoDup (alertedTrades (initial_state 900))) by constructor.
  assert (H2 : Z.of_nat (length (alertedTrades (initial_state 900)))
               <= MAX_STORED_ALERTS)
    by (unfold MAX_STORED_ALERTS; simpl; lia).
  split; [exact H1|]. split; [exact H2|].
  exact (proj1 (alerted_set_stays_bounded default_config noisy_env 2
                  (initial_state 900) H1 H2)).
Defined.

(** X7 at a fill of $50,000 by a wallet first seen three years before. *)
Lemma old_wallet_not_alerted_witness :
  let s := whale_long_cached in
  let iso := date_iso quiet_env (trace s) in
  let key := alertKeyOf (fill_args 50000) (before_T iso) in
  (MIN_BET_AMOUNT default_config
   <= tradeAmountOf (makerAmountFilled (fill_args 50000)))%Q /\
  set_has key (alertedTrades s) = false /\
  processEvent default_config quiet_env (fill 50000) s =
    (Ok (FilteredByAge key),
     record (DateNow 1700000005000) (record (DateIso iso) s)).
Proof.
  cbv zeta.
  assert (H1 : (MIN_BET_AMOUNT default_config
                <= tradeAmountOf (makerAmountFilled (fill_args 50000)))%Q)
    by (unfold Qle; simpl; lia).
  assert (H2 : set_has
                 (alertKeyOf (fill_args 50000)
                    (before_T (date_iso quiet_env (trace whale_long_cached))))
                 (alertedTrades whale_long_cached) = false)
    by reflexivity.
  split; [exact H1|]. split; [exact H2|].
  apply (proj2 (old_wallet_not_alerted default_config quiet_env
                  (fill_args 50000) whale_long_cached H1 H2) 1600000000000).
  - vm_compute. reflexivity.
  - vm_compute. discriminate.
Defined.

(** X8 at a fill of $50,000 by a new wallet when the market lookup is
    rejected. *)
Lemma market_check_fails_closed_witness :
  let s := initial_state 100 in
  let iso := date_iso marketless_env (trace s) in
  let key := alertKeyOf (fill_args 50000) (before_T iso) in
  let rw := checkWalletAge default_config marketless_env whale
              (record (DateIso iso) s) in
  (MIN_BET_AMOUNT default_config
   <= tradeAmountOf (makerAmountFilled (fill_args 50000)))%Q /\
  set_has key (alertedTrades s) = false /\
  (exists w, rw.1 = Ok w /\ isNew w = true) /\
  (processEvent default_config marketless_env (fill 50000) s).1 =
    Ok (FilteredByMarket key).
Proof.
  cbv zeta.
  assert (H1 : (MIN_BET_AMOUNT default_config
                <= tradeAmountOf (makerAmountFilled (fill_args 50000)))%Q)
    by (unfold Qle; simpl; lia).
  assert (H2 : set_has
                 (alertKeyOf (fill_args 50000)
                    (before_T (date_iso marketless_env
                                 (trace (initial_state 100)))))
                 (alertedTrades (initial_state 100)) = false)
    by reflexivity.
  assert (H3 : exists w,
             (checkWalletAge default_config marketless_env
                (maker (fill_args 50000))
                (record (DateIso (date_iso marketless_env
                                    (trace (initial_state 100))))
                   (initial_state 100))).1 = Ok w /\ isNew w = true).
  { eexists. split; vm_compute; reflexivity. }
  split; [exact H1|]. split; [exact H2|]. split; [exact H3|].
  destruct (market_check_fails_closed default_config marketless_env
              (fill_args 50000) (initial_state 100) H1 H2 H3 eq_refl)
    as [Hrun _].
  unfold fill. rewrite Hrun. reflexivity.
Defined.

(** ** The first edition: the account age *)

Section ApiAccountAge.

Variable cfg : Config.

Lemma api_records_nil s : Api.records [] s = s.
Proof. by destruct s. Qed.

Lemma api_record_records e l s :
  Api.record e (Api.records l s) = Api.records (l ++ [e]) s.
Proof.
  unfold Api.record, Api.records. cbn [Api.alertedOrders Api.trace].
  by rewrite rev_app_distr.
Qed.

Lemma api_records_records l1 l2 s :
  Api.records l2 (Api.records l1 s) = Api.records (l1 ++ l2) s.
Proof.
  unfold Api.records. cbn [Api.alertedOrders Api.trace].
  by rewrite rev_app_distr, app_assoc.
Qed.

Lemma api_calls_during_trace s s' l :
  Api.trace s' = rev l ++ Api.trace s -> Api.calls_during s s' = l.
Proof.
  intros H. unfold Api.calls_during. rewrite H, length_app, length_rev.
  replace (length l + length (Api.trace s) - length (Api.trace s))%nat
    with (length (rev l)) by (rewrite length_rev; lia).
  rewrite take_app_length. apply rev_involutive.
Qed.

Lemma api_calls_during_records l s : Api.calls_during s (Api.records l s) = l.
Proof. by apply api_calls_during_trace. Qed.

Lemma millisOf_createdDateOf c :
  Api.createdDateOf (Api.CreatedNumber c) = Api.timeClip (Api.millisOf c).
Proof. reflexivity. Qed.

Lemma timeClip_Some t d :
  Api.timeClip t = Some d <-> d = t /\ Z.abs t <= 8640000000000000.
Proof.
  unfold Api.timeClip.
  destruct (Z.leb_spec (Z.abs t) 8640000000000000); split.
  - intros [= <-]. done.
  - by intros [-> _].
  - done.
  - intros [_ ?]. lia.
Qed.

Lemma accountAgeAt_new now c :
  Api.isNew (Api.accountAgeAt cfg now (Api.CreatedNumber c)) = true <->
  Z.abs (Api.millisOf c) <= 8640000000000000 /\
  now - Api.millisOf c < (NEW_ACCOUNT_DAYS cfg + 1) * DAY_MS.
Proof.
  unfold Api.accountAgeAt. rewrite millisOf_createdDateOf.
  destruct (Api.timeClip (Api.millisOf c)) as [d|] eqn:Hclip.
  - apply timeClip_Some in Hclip as [-> Hrange].
    assert (Hdiv : (now - Api.millisOf c) / DAY_MS <= NEW_ACCOUNT_DAYS cfg <->
                   now - Api.millisOf c < (NEW_ACCOUNT_DAYS cfg + 1) * DAY_MS).
    { unfold DAY_MS. generalize (now - Api.millisOf c).
      generalize (NEW_ACCOUNT_DAYS cfg). intros n x.
      Z.div_mod_to_equations. lia. }
    cbv zeta.
    destruct (Z.leb_spec ((now - Api.millisOf c) / DAY_MS) (NEW_ACCOUNT_DAYS cfg))
      as [Hle|Hgt].
    + assert (Api.isNew
        (if (now - Api.millisOf c) / DAY_MS =? 0
         then {| Api.isNew := true; Api.description := Api.CreatedToday |}
         else if (now - Api.millisOf c) / DAY_MS =? 1
         then {| Api.isNew := true; Api.description := Api.CreatedYesterday |}
         else {| Api.isNew := true;
                 Api.description :=
                   Api.NewAccountDays ((now - Api.millisOf c) / DAY_MS) |})
        = true) as ->.
      { by destruct (_ =? 0); [|destruct (_ =? 1)]. }
      split; [|done]. intros _. split; [done|]. by apply Hdiv.
    + cbn [Api.isNew]. split; [done|]. intros [_ H]. apply Hdiv in H. lia.
  - cbn [Api.isNew]. split; [done|]. intros [Hrange _].
    assert (Api.timeClip (Api.millisOf c) = Some (Api.millisOf c))
      by (by apply timeClip_Some).
    congruence.
Qed.

Lemma checkAccountAge_run env userData s :
  Api.checkAccountAge cfg env userData s =
  (Ok (Api.accountAgeOf cfg (Api.date_now env (Api.trace s)) userData),
   Api.records (Api.age_calls env (Api.trace s) userData) s).
Proof.
  unfold Api.checkAccountAge, Api.accountAgeOf, Api.age_calls, Api.reads_clock.
  destruct userData as [u|].
  - destruct (Api.truthy (Api.createdAt u)); cbn [negb].
    + reflexivity.
    + unfold Api.ret. by rewrite api_records_nil.
  - unfold Api.ret. by rewrite api_records_nil.
Qed.

(** X14. [checkAccountAge] always answers, and calls an account new exactly
    when the user record is missing, has no creation time or the creation
    time 0, or has a numeric creation time that is a valid date less than
    [NEW_ACCOUNT_DAYS + 1] whole days before the clock (a date in the
    future included).  A creation time that is a text which does not read
    as a number, or a number beyond the range of dates, gives an invalid
    date and the answer "not new". *)
Theorem account_age_verdict env userData s :
  exists a s',
    Api.checkAccountAge cfg env userData s = (Ok a, s') /\
    Api.alertedOrders s' = Api.alertedOrders s /\
    (Api.isNew a = true <->
     match userData with
     | None => True
     | Some u =>
         match Api.createdAt u with
         | Api.CreatedMissing => True
         | Api.CreatedText => False
         | Api.CreatedNumber c =>
             c = 0 \/
             (Z.abs (Api.millisOf c) <= 8640000000000000 /\
              Api.date_now env (Api.trace s) - Api.millisOf c
              < (NEW_ACCOUNT_DAYS cfg + 1) * DAY_MS)
         end
     end).
Proof.
  rewrite checkAccountAge_run. eexists _, _. split; [reflexivity|].
  split; [reflexivity|].
  unfold Api.accountAgeOf. destruct userData as [[c]|]; [|done].
  cbn [Api.createdAt]. destruct c as [|c|]; cbn [Api.truthy].
  - done.
  - destruct (Z.eqb_spec c 0) as [->|Hne]; cbn [negb].
    + split; [by left|done].
    + rewrite accountAgeAt_new. split; [by right|]. by intros [?|?].
  - done.
Qed.

(** X15. A creation time given in seconds and the same instant given in
    milliseconds get the same answer, for every instant later than
    10^10 ms after the epoch (26 April 1970) and up to 10^10 s. *)
Theorem created_at_units_agree now c :
  10000000 < c <= 10000000000 ->
  Api.accountAgeAt cfg now (Api.CreatedNumber c) =
  Api.accountAgeAt cfg now (Api.CreatedNumber (c * 1000)).
Proof.
  intros [Hlo Hhi]. unfold Api.accountAgeAt, Api.createdDateOf.
  destruct (Z.gtb_spec c 10000000000); [lia|].
  destruct (Z.gtb_spec (c * 1000) 10000000000); [|lia].
  reflexivity.
Qed.

End ApiAccountAge.

Lemma created_at_units_agree_witness :
  10000000 < 1700000000 <= 10000000000 /\
  Api.accountAgeAt default_config 1700000600000 (Api.CreatedNumber 1700000000) =
  Api.accountAgeAt default_config 1700000600000
    (Api.CreatedNumber (1700000000 * 1000)).
Proof.
  split; [lia|]. apply (created_at_units_agree default_config); lia.
Defined.

(** ** The first edition: the scan *)

Section ApiScan.

Variable cfg : Config.
Variable env : Api.Env.

Lemma getUserInfo_run address s :
  Api.getUserInfo env address s =
  (Ok (Api.userDataOf (Api.gamma_user env (Api.trace s) address)),
   Api.records [Api.UserGet address (Api.gamma_user env (Api.trace s) address)] s).
Proof.
  unfold Api.getUserInfo, Api.try_catch, Api.await.
  by destruct (Api.gamma_user env (Api.trace s) address).
Qed.

Lemma getMarketTrades_run conditionId s :
  Api.getMarketTrades env conditionId s =
  (Ok (Api.replyOf (Api.clob_trades env (Api.trace s) conditionId)),
   Api.records
     [Api.TradesGet conditionId (Api.clob_trades env (Api.trace s) conditionId)]
     s).
Proof.
  unfold Api.getMarketTrades, Api.try_catch, Api.await.
  by destruct (Api.clob_trades env (Api.trace s) conditionId).
Qed.

Lemma getActiveMarkets_run s :
  Api.getActiveMarkets env s =
  (Ok (Api.replyOf (Api.gamma_markets env (Api.trace s))),
   Api.records [Api.MarketsGet (Api.gamma_markets env (Api.trace s))] s).
Proof.
  unfold Api.getActiveMarkets, Api.try_catch, Api.await.
  by destruct (Api.gamma_markets env (Api.trace s)).
Qed.

Lemma api_sendDiscordAlert_run market trade desc s :
  Api.sendDiscordAlert cfg env market trade desc s =
  (Ok tt, Api.records (Api.post_calls cfg env (Api.trace s) market trade desc) s).
Proof.
  unfold Api.sendDiscordAlert, Api.post_calls.
  destruct (String.eqb (DISCORD_WEBHOOK cfg) "").
  - unfold Api.ret. by rewrite api_records_nil.
  - unfold Api.try_catch, Api.bind, Api.read, Api.await, Api.ret.
    cbn [Api.record Api.trace Api.alertedOrders].
    by destruct (Api.discord_post env _ _ _) as [[]|].
Qed.

(** The loop body, case by case. *)
Lemma processTrade_skip market trade s :
  Api.reaches_lookup cfg (Api.alertedOrders s) trade = false ->
  exists o, Api.processTrade cfg env market trade s = (Ok o, s) /\
            forall tradeId, o <> Api.Alerted tradeId.
Proof.
  unfold Api.reaches_lookup, Api.processTrade, Api.tradeIdOf, Api.userAddressOf.
  intros H.
  destruct (String.eqb (or_str (Api.id trade) (Api.trade_id trade)) "");
    [by eexists|].
  destruct (set_has _ (Api.alertedOrders s)); [by eexists|].
  cbn [orb]. destruct (Api.lt _ _); [by eexists|].
  destruct (String.eqb _ ""); [by eexists|]. done.
Qed.

Lemma processTrade_lookup market trade s :
  Api.reaches_lookup cfg (Api.alertedOrders s) trade = true ->
  Api.processTrade cfg env market trade s =
  (Ok (if Api.isNew (Api.age_of cfg env (Api.trace s) trade)
       then Api.Alerted (Api.tradeIdOf trade) else Api.NotNew),
   {| Api.alertedOrders :=
        if Api.isNew (Api.age_of cfg env (Api.trace s) trade)
        then Api.evictOldest
               (set_add (Api.tradeIdOf trade) (Api.alertedOrders s))
        else Api.alertedOrders s;
      Api.trace :=
        rev (Api.trade_calls cfg env (Api.trace s) market trade)
        ++ Api.trace s |}).
Proof.
  unfold Api.reaches_lookup, Api.processTrade.
  fold (Api.tradeIdOf trade). fold (Api.userAddressOf trade).
  intros H.
  destruct (String.eqb (Api.tradeIdOf trade) ""); [done|].
  destruct (set_has _ (Api.alertedOrders s)); [done|].
  cbn [orb]. destruct (Api.lt _ _); [done|].
  destruct (String.eqb (Api.userAddressOf trade) ""); [done|].
  unfold Api.bind at 1. rewrite getUserInfo_run.
  unfold Api.bind at 1. rewrite checkAccountAge_run.
  unfold Api.trade_calls, Api.age_of, Api.lookup_of.
  cbn [Api.records Api.trace Api.alertedOrders rev app].
  set (r := Api.gamma_user env (Api.trace s) (Api.userAddressOf trade)).
  set (t1 := Api.UserGet (Api.userAddressOf trade) r :: Api.trace s).
  set (age := Api.accountAgeOf cfg (Api.date_now env t1) (Api.userDataOf r)).
  set (c := Api.age_calls env t1 (Api.userDataOf r)).
  destruct (Api.isNew age).
  - unfold Api.bind at 1. rewrite api_sendDiscordAlert_run.
    unfold Api.bind, Api.alertedOrders_update, Api.sleep, Api.ret, Api.record.
    cbn [Api.records Api.trace Api.alertedOrders].
    f_equal. f_equal.
    change (Api.UserGet (Api.userAddressOf trade) r :: ?l)
      with ([Api.UserGet (Api.userAddressOf trade) r] ++ l).
    rewrite !rev_app_distr. cbn [rev app].
    by rewrite <- !app_assoc.
  - unfold Api.bind, Api.sleep, Api.ret, Api.record.
    cbn [Api.records Api.trace Api.alertedOrders].
    f_equal. f_equal.
    change (Api.UserGet (Api.userAddressOf trade) r :: ?l)
      with ([Api.UserGet (Api.userAddressOf trade) r] ++ l).
    rewrite !rev_app_distr. cbn [rev app].
    by rewrite <- !app_assoc.
Qed.

(** What the calls of one trade are. *)
Lemma looked_up_app l1 l2 :
  Api.looked_up (l1 ++ l2) = Api.looked_up l1 ++ Api.looked_up l2.
Proof. apply omap_app. Qed.

Lemma queried_app l1 l2 :
  Api.queried (l1 ++ l2) = Api.queried l1 ++ Api.queried l2.
Proof. apply omap_app. Qed.

Lemma pauses_app l1 l2 :
  Api.pauses (l1 ++ l2) = Api.pauses l1 ++ Api.pauses l2.
Proof. apply omap_app. Qed.

Lemma posted_app l1 l2 :
  Api.posted (l1 ++ l2) = Api.posted l1 ++ Api.posted l2.
Proof. apply omap_app. Qed.

Lemma age_calls_shape t u :
  Api.looked_up (Api.age_calls env t u) = [] /\
  Api.queried (Api.age_calls env t u) = [] /\
  Api.pauses (Api.age_calls env t u) = [] /\
  Api.posted (Api.age_calls env t u) = [].
Proof. unfold Api.age_calls. by destruct (Api.reads_clock u). Qed.

Lemma post_calls_shape t market trade desc :
  Api.looked_up (Api.post_calls cfg env t market trade desc) = [] /\
  Api.queried (Api.post_calls cfg env t market trade desc) = [] /\
  Api.pauses (Api.post_calls cfg env t market trade desc) = [].
Proof. unfold Api.post_calls. by destruct (String.eqb _ ""). Qed.

Lemma trade_calls_shape t market trade :
  Api.looked_up (Api.trade_calls cfg env t market trade)
  = [Api.userAddressOf trade] /\
  Api.queried (Api.trade_calls cfg env t market trade) = [] /\
  Api.pauses (Api.trade_calls cfg env t market trade) = [100].
Proof.
  unfold Api.trade_calls.
  set (r := Api.lookup_of env t trade).
  set (c := Api.age_calls env _ _).
  destruct (age_calls_shape (Api.UserGet (Api.userAddressOf trade) r :: t)
              (Api.userDataOf r)) as (Hl & Hq & Hp & _).
  fold c in Hl, Hq, Hp.
  change (Api.UserGet (Api.userAddressOf trade) r :: ?l)
    with ([Api.UserGet (Api.userAddressOf trade) r] ++ l).
  rewrite !looked_up_app, !queried_app, !pauses_app, Hl, Hq, Hp.
  destruct (Api.isNew _).
  - match goal with
    | |- context [Api.post_calls _ _ ?t' ?m ?tr ?d] =>
        destruct (post_calls_shape t' m tr d) as (-> & -> & ->)
    end.
    done.
  - done.
Qed.

Lemma reaches_lookup_large orders trade :
  Api.reaches_lookup cfg orders trade = true -> Api.large cfg trade = true.
Proof.
  unfold Api.reaches_lookup, Api.large.
  destruct (String.eqb _ ""); [done|]. destruct (set_has _ _); [done|].
  done.
Qed.

(** The store after an alert holds the trade's id. *)
Lemma evictOldest_keeps_last key s :
  key ∉ s -> key ∈ Api.evictOldest (s ++ [key]).
Proof.
  intros Hnotin. unfold Api.evictOldest.
  destruct (Z.gtb_spec (Z.of_nat (length (s ++ [key]))) Api.MAX_STORED_ALERTS)
    as [Hgt|_]; [|set_solver].
  destruct s as [|first rest].
  - unfold Api.MAX_STORED_ALERTS in Hgt. simpl in Hgt. lia.
  - cbn [app]. unfold set_delete. apply list_elem_of_filter. split.
    + intros ->. apply Hnotin. by left.
    + set_solver.
Qed.

Lemma api_length_evictOldest s :
  Z.of_nat (length s) <= Api.MAX_STORED_ALERTS + 1 ->
  Z.of_nat (length (Api.evictOldest s)) <= Api.MAX_STORED_ALERTS.
Proof.
  intros H. unfold Api.evictOldest.
  destruct (Z.gtb_spec (Z.of_nat (length s)) Api.MAX_STORED_ALERTS); [|lia].
  destruct s as [|first rest];
    [unfold Api.MAX_STORED_ALERTS in *; simpl in *; lia|].
  pose proof (length_set_delete_head first rest). simpl in H. lia.
Qed.

Lemma api_NoDup_evictOldest s : NoDup s -> NoDup (Api.evictOldest s).
Proof.
  intros H. unfold Api.evictOldest. destruct (_ >? _); [|done].
  destruct s; [done|]. unfold set_delete. by apply NoDup_filter.
Qed.

Lemma NoDup_set_add key s : NoDup s -> NoDup (set_add key s).
Proof.
  intros H. unfold set_add. destruct (set_has key s) eqn:Hhas; [done|].
  apply set_has_false in Hhas. apply NoDup_app. repeat split; try done.
  - intros x Hx Hin. apply list_elem_of_singleton in Hin. by subst.
  - apply NoDup_singleton.
Qed.

(** The loop body over the trades never raises; what it does to the store
    and which calls it makes. *)
Lemma processTrade_total market trade s :
  exists o l s',
    Api.processTrade cfg env market trade s = (Ok o, s') /\
    Api.trace s' = rev l ++ Api.trace s /\
    (Api.orders_ok s -> Api.orders_ok s') /\
    Api.queried l = [] /\
    sublist (Api.looked_up l)
      (if Api.large cfg trade then [Api.userAddressOf trade] else []) /\
    Api.pauses l = map (fun _ => 100) (Api.looked_up l).
Proof.
  destruct (Api.reaches_lookup cfg (Api.alertedOrders s) trade) eqn:Hreach.
  - rewrite (processTrade_lookup _ _ _ Hreach).
    destruct (trade_calls_shape (Api.trace s) market trade) as (Hl & Hq & Hp).
    eexists _, _, _. split; [reflexivity|]. split; [reflexivity|].
    split; [|split; [exact Hq|split]].
    + intros [Hlen Hnd]. unfold Api.orders_ok. cbn [Api.alertedOrders].
      destruct (Api.isNew _); [|done]. split.
      * apply api_length_evictOldest.
        pose proof (length_set_add (Api.tradeIdOf trade) (Api.alertedOrders s)).
        lia.
      * by apply api_NoDup_evictOldest, NoDup_set_add.
    + rewrite Hl, (reaches_lookup_large _ _ Hreach). done.
    + by rewrite Hp, Hl.
  - destruct (processTrade_skip market trade s Hreach) as (o & Hrun & _).
    exists o, [], s. split; [done|]. split; [done|]. split; [done|].
    split; [done|]. split; [|done]. apply sublist_nil_l.
Qed.

Lemma has_null_spec {A} (l : list (option A)) :
  Api.has_null l = true <-> None ∈ l.
Proof.
  induction l as [|[a|] l IH]; simpl.
  - split; [done|by intros ?%elem_of_nil].
  - rewrite IH, elem_of_cons. split; [by right|by intros [|]].
  - split; [intros _; apply list_elem_of_here|done].
Qed.

Lemma length_objects {A} (l : list (option A)) :
  (length (Api.objects l) <= length l)%nat.
Proof. induction l as [|[a|] l IH]; simpl; lia. Qed.

(** The loop over the trades raises at the first [null] and nowhere else;
    what it does to the store and which calls it makes. *)
Lemma processTrades_run market trades s :
  exists r l s',
    Api.processTrades cfg env market trades s = (r, s') /\
    Api.trace s' = rev l ++ Api.trace s /\
    (Api.orders_ok s -> Api.orders_ok s') /\
    (r = Err <-> None ∈ trades) /\
    (forall outs, r = Ok outs -> length outs = length trades) /\
    Api.queried l = [] /\
    sublist (Api.looked_up l)
      (map Api.userAddressOf
         (filter (fun t => Api.large cfg t = true) (Api.before_null trades))) /\
    Api.pauses l = map (fun _ => 100) (Api.looked_up l).
Proof.
  revert s. induction trades as [|[trade|] rest IH]; intros s.
  - exists (Ok []), [], s. do 3 (split; [done|]).
    split; [split; [done|by intros ?%elem_of_nil]|].
    split; [by intros outs [= <-]|]. split; [done|]. split; [constructor|done].
  - destruct (processTrade_total market trade s)
      as (o & l1 & s1 & Hrun1 & Ht1 & Hok1 & Hq1 & Hl1 & Hp1).
    destruct (IH s1)
      as (r & l2 & s2 & Hrun2 & Ht2 & Hok2 & Herr & Hlen & Hq2 & Hl2 & Hp2).
    exists (match r with Ok os => Ok (o :: os) | Err => Err end), (l1 ++ l2), s2.
    split.
    { cbn [Api.processTrades]. unfold Api.bind at 1. rewrite Hrun1.
      unfold Api.bind at 1. rewrite Hrun2. by destruct r. }
    split. { by rewrite Ht2, Ht1, rev_app_distr, app_assoc. }
    split. { tauto. }
    split.
    { rewrite elem_of_cons, <- Herr. destruct r; split; try done.
      by intros [|]. by right. }
    split.
    { intros outs Hr. destruct r as [os|]; [|done]. injection Hr as <-.
      simpl. by rewrite (Hlen os). }
    split. { by rewrite queried_app, Hq1, Hq2. }
    split.
    { rewrite looked_up_app. cbn [Api.before_null].
      destruct (Api.large cfg trade) eqn:Hlarge.
      - rewrite filter_cons_True by done. cbn [map].
        change (Api.userAddressOf trade :: ?l)
          with ([Api.userAddressOf trade] ++ l).
        by apply sublist_app.
      - rewrite filter_cons_False by (by rewrite Hlarge).
        apply sublist_nil_r in Hl1. by rewrite Hl1. }
    by rewrite pauses_app, looked_up_app, map_app, Hp1, Hp2.
  - exists Err, [], s. do 3 (split; [done|]).
    split; [split; [intros _; apply list_elem_of_here|done]|].
    split; [done|]. split; [done|]. split; [constructor|done].
Qed.

(** The loop body over the markets never raises: what is thrown inside is
    caught.  It ends in the [catch] branch for a [null] market, and
    otherwise only when the trades answered cannot be read. *)
Lemma processMarket_run market s :
  exists o l s',
    Api.processMarket cfg env market s = (Ok o, s') /\
    Api.trace s' = rev l ++ Api.trace s /\
    (Api.orders_ok s -> Api.orders_ok s') /\
    (market = None -> o = Api.MarketError) /\
    (forall m, market = Some m -> Api.conditionIdOf m = "" ->
               o = Api.NoConditionId) /\
    (o = Api.MarketError ->
     market = None \/
     exists c reply, Api.TradesGet c (Ok reply) ∈ l /\ Api.unreadable reply = true) /\
    Api.queried l =
      filter (fun c => c <> "") (map Api.conditionIdOf (Api.objects [market])).
Proof.
  destruct market as [market|]; cycle 1.
  { exists Api.MarketError, [], s. do 3 (split; [done|]). split; [done|].
    split; [done|]. split; [by left|done]. }
  unfold Api.processMarket. fold (Api.conditionIdOf market).
  change (Api.objects [Some market]) with [market]. cbn [map].
  destruct (String.eqb_spec (Api.conditionIdOf market) "") as [Heq|Hneq].
  { exists Api.NoConditionId, [], s. do 3 (split; [done|]). split; [done|].
    split; [done|]. split; [done|].
    by rewrite filter_cons_False by (intros H; by apply H). }
  rewrite filter_cons_True by done.
  unfold Api.try_catch, Api.bind at 1. rewrite getMarketTrades_run.
  set (r := Api.clob_trades env (Api.trace s) (Api.conditionIdOf market)).
  set (s0 := Api.records [Api.TradesGet (Api.conditionIdOf market) r] s).
  destruct (Api.replyOf r) as [trades|] eqn:Hreply.
  - destruct (processTrades_run market trades s0)
      as (rt & l & s' & Hrun & Ht & Hok & Herr & _ & Hq & _).
    unfold Api.bind at 1. rewrite Hrun. destruct rt as [os|].
    + unfold Api.bind, Api.sleep, Api.ret.
      exists (Api.Scanned os),
        ([Api.TradesGet (Api.conditionIdOf market) r] ++ l ++ [Api.Sleep 500]),
        (Api.record (Api.Sleep 500) s').
      split; [done|]. split.
      { cbn [Api.record Api.trace]. rewrite Ht. subst s0.
        cbn [Api.records Api.trace].
        rewrite !rev_app_distr. cbn [rev app]. by rewrite <- !app_assoc. }
      split; [exact Hok|]. split; [done|].
      split; [by intros m [= <-]|]. split; [done|].
      rewrite !queried_app, Hq. done.
    + unfold Api.ret.
      exists Api.MarketError,
        ([Api.TradesGet (Api.conditionIdOf market) r] ++ l), s'.
      split; [done|]. split.
      { rewrite Ht. subst s0. cbn [Api.records Api.trace].
        rewrite !rev_app_distr. cbn [rev app]. by rewrite <- !app_assoc. }
      split; [exact Hok|]. split; [done|].
      split; [by intros m [= <-]|]. split.
      { intros _. right. exists (Api.conditionIdOf market), (Api.Items trades).
        split.
        - destruct r as [reply|]; simpl in Hreply.
          + subst reply. apply elem_of_app. left. apply list_elem_of_here.
          + exfalso. injection Hreply as <-. destruct Herr as [Herr _].
            specialize (Herr eq_refl). by apply elem_of_nil in Herr.
        - simpl. apply has_null_spec. by apply Herr. }
      rewrite !queried_app, Hq. done.
  - unfold Api.throw, Api.ret.
    exists Api.MarketError, [Api.TradesGet (Api.conditionIdOf market) r], s0.
    split; [done|]. split; [done|]. split; [done|]. split; [done|].
    split; [by intros m [= <-]|]. split; [|done].
    intros _. right. exists (Api.conditionIdOf market), Api.NotArray.
    split; [|done].
    destruct r as [reply|]; simpl in Hreply; [|done].
    subst reply. apply list_elem_of_here.
Qed.

Lemma objects_cons {A} (x : option A) (l : list (option A)) :
  Api.objects (x :: l) = Api.objects [x] ++ Api.objects l.
Proof. by destruct x. Qed.

Lemma processMarkets_run markets s :
  exists outs l s',
    Api.processMarkets cfg env markets s = (Ok outs, s') /\
    Api.trace s' = rev l ++ Api.trace s /\
    (Api.orders_ok s -> Api.orders_ok s') /\
    length outs = length markets /\
    (forall i, markets !! i = Some None -> outs !! i = Some Api.MarketError) /\
    (forall i m, markets !! i = Some (Some m) -> Api.conditionIdOf m = "" ->
                 outs !! i = Some Api.NoConditionId) /\
    (Api.MarketError ∈ outs ->
     None ∈ markets \/
     exists c reply, Api.TradesGet c (Ok reply) ∈ l /\ Api.unreadable reply = true) /\
    Api.queried l =
      filter (fun c => c <> "") (map Api.conditionIdOf (Api.objects markets)).
Proof.
  revert s. induction markets as [|market rest IH]; intros s.
  - exists [], [], s. do 4 (split; [done|]). split; [done|]. split; [done|].
    split; [by intros ?%elem_of_nil|done].
  - destruct (processMarket_run market s)
      as (o & l1 & s1 & Hrun1 & Ht1 & Hok1 & Hnull1 & Hno1 & Herr1 & Hq1).
    destruct (IH s1)
      as (os & l2 & s2 & Hrun2 & Ht2 & Hok2 & Hlen & Hnull2 & Hno2 & Herr2 & Hq2).
    exists (o :: os), (l1 ++ l2), s2.
    split.
    { cbn [Api.processMarkets]. unfold Api.bind at 1. rewrite Hrun1.
      unfold Api.bind at 1. rewrite Hrun2. reflexivity. }
    split. { by rewrite Ht2, Ht1, rev_app_distr, app_assoc. }
    split. { tauto. }
    split. { simpl. by rewrite Hlen. }
    split.
    { intros [|i]; simpl; [|by apply Hnull2].
      intros [= ->]. by rewrite Hnull1. }
    split.
    { intros [|i] m; simpl; [|by apply Hno2].
      intros [= ->] Hc. by rewrite (Hno1 m). }
    split.
    { intros [Heq|Hin]%elem_of_cons.
      - destruct (Herr1 (eq_sym Heq)) as [->|(c & reply & Hin & Hbad)].
        + left. apply list_elem_of_here.
        + right. exists c, reply. split; [|done]. apply elem_of_app. by left.
      - destruct (Herr2 Hin) as [Hnone|(c & reply & Hin' & Hbad)].
        + left. by apply list_elem_of_further.
        + right. exists c, reply. split; [|done]. apply elem_of_app. by right. }
    rewrite queried_app, Hq1, Hq2, (objects_cons market rest), map_app.
    by rewrite filter_app.
Qed.

(** A scan raises when the listing answered is no array, and only then. *)
Lemma monitorMarkets_run s :
  let reply := Api.replyOf (Api.gamma_markets env (Api.trace s)) in
  let markets := take 20 (Api.itemsOf reply) in
  exists r l s',
    Api.monitorMarkets cfg env s = (r, s') /\
    Api.trace s' = rev l ++ Api.trace s /\
    (Api.orders_ok s -> Api.orders_ok s') /\
    (r = Err <-> reply = Api.NotArray) /\
    (forall outs, r = Ok outs ->
       length outs = length markets /\
       (forall i, markets !! i = Some None ->
                  outs !! i = Some Api.MarketError) /\
       (forall i m, markets !! i = Some (Some m) ->
                    Api.conditionIdOf m = "" ->
                    outs !! i = Some Api.NoConditionId) /\
       (Api.MarketError ∈ outs ->
        None ∈ markets \/
        exists c reply, Api.TradesGet c (Ok reply) ∈ l /\
                        Api.unreadable reply = true)) /\
    Api.queried l =
      filter (fun c => c <> "") (map Api.conditionIdOf (Api.objects markets)).
Proof.
  cbv zeta.
  unfold Api.monitorMarkets, Api.bind at 1. rewrite getActiveMarkets_run.
  set (r := Api.gamma_markets env (Api.trace s)).
  destruct (Api.replyOf r) as [markets|] eqn:Hreply; cbn [Api.itemsOf].
  - destruct (processMarkets_run (take 20 markets)
                (Api.records [Api.MarketsGet r] s))
      as (os & l & s' & Hrun & Ht & Hok & Hlen & Hnull & Hno & Herr & Hq).
    exists (Ok os), ([Api.MarketsGet r] ++ l), s'.
    split; [done|]. split.
    { rewrite Ht. cbn [Api.records Api.trace].
      rewrite !rev_app_distr. cbn [rev app]. by rewrite <- !app_assoc. }
    split; [exact Hok|]. split; [done|].
    split.
    { intros outs [= <-]. split; [done|]. split; [done|]. split; [done|].
      intros Hin. destruct (Herr Hin) as [|(c & reply & Hin' & Hbad)];
        [by left|].
      right. exists c, reply. split; [|done]. apply elem_of_app. by right. }
    by rewrite queried_app, Hq.
  - exists Err, [Api.MarketsGet r], (Api.records [Api.MarketsGet r] s).
    split; [done|]. split; [done|]. split; [done|]. split; [done|].
    split; [done|]. done.
Qed.

(** X16. A scan raises when the listing of the markets answers something
    that is no array ([markets.slice] is called outside every [try]), and
    only then; a request that fails counts as an empty array, here and for
    the trades.  Otherwise it leaves one outcome for each of the first 20
    elements listed: the [catch] branch for a [null] element, and for
    another element only when the trades answered are no array or hold a
    [null]; the skip for an object without condition id.  It asks for the
    trades of exactly those objects among the first 20 elements that have
    a condition id, in their order, so for at most 20 markets. *)
Theorem scan_queries_first_twenty s :
  let reply := Api.replyOf (Api.gamma_markets env (Api.trace s)) in
  let markets := take 20 (Api.itemsOf reply) in
  exists r s',
    Api.monitorMarkets cfg env s = (r, s') /\
    (r = Err <-> reply = Api.NotArray) /\
    (forall outs, r = Ok outs ->
       length outs = length markets /\
       (forall i, markets !! i = Some None ->
                  outs !! i = Some Api.MarketError) /\
       (forall i m, markets !! i = Some (Some m) ->
                    Api.conditionIdOf m = "" ->
                    outs !! i = Some Api.NoConditionId) /\
       (Api.MarketError ∈ outs ->
        None ∈ markets \/
        exists c reply, Api.TradesGet c (Ok reply) ∈ Api.calls_during s s' /\
                        Api.unreadable reply = true)) /\
    Api.queried (Api.calls_during s s') =
      filter (fun c => c <> "") (map Api.conditionIdOf (Api.objects markets)) /\
    (length (Api.queried (Api.calls_during s s')) <= 20)%nat.
Proof.
  cbv zeta.
  destruct (monitorMarkets_run s)
    as (r & l & s' & Hrun & Ht & _ & Herr & Houts & Hq).
  exists r, s'. rewrite (api_calls_during_trace _ _ _ Ht).
  split; [done|]. split; [done|]. split; [done|]. split; [done|].
  rewrite Hq.
  etransitivity; [apply length_filter|].
  rewrite length_map.
  etransitivity; [apply length_objects|].
  rewrite length_take. lia.
Qed.

(** X17. A scan, whether it returns or raises, keeps the store of alerted
    trade ids within [MAX_STORED_ALERTS] = 10000 entries and free of
    repetition, so that [/health] and [/status] never report more than
    10000 tracked alerts. *)
Theorem alerted_orders_stay_bounded s r s' :
  Api.alertsTracked s <= Api.MAX_STORED_ALERTS ->
  NoDup (Api.alertedOrders s) ->
  Api.monitorMarkets cfg env s = (r, s') ->
  Api.alertsTracked s' <= 10000 /\ NoDup (Api.alertedOrders s').
Proof.
  intros Hlen Hnd Hrun.
  destruct (monitorMarkets_run s) as (r' & l & s'' & Hrun' & _ & Hok & _).
  rewrite Hrun in Hrun'. injection Hrun' as _ <-.
  by apply Hok.
Qed.

(** X18. The lookup of the account fails open: for a trade that gets past
    the three skips, a user request that fails, or that answers with no
    record or with a record without creation time, ends in an alert.  The
    trade's id is then in the store, no age is computed ([checkAccountAge]
    returns before it reads the clock), and what is posted, when a webhook
    is configured, is one embed with the account age
    "Unknown (No creation date)". *)
Theorem unknown_account_alerts market trade s :
  Api.reaches_lookup cfg (Api.alertedOrders s) trade = true ->
  Api.reads_clock
    (Api.userDataOf (Api.gamma_user env (Api.trace s) (Api.userAddressOf trade)))
  = false ->
  exists s',
    Api.processTrade cfg env market trade s
    = (Ok (Api.Alerted (Api.tradeIdOf trade)), s') /\
    set_has (Api.tradeIdOf trade) (Api.alertedOrders s') = true /\
    Api.looked_up (Api.calls_during s s') = [Api.userAddressOf trade] /\
    map Api.embedAccountAge (Api.posted (Api.calls_during s s'))
    = (if String.eqb (DISCORD_WEBHOOK cfg) "" then [] else [Api.NoCreationDate]) /\
    Forall (fun e => forall ms, e <> Api.DateNow ms) (Api.calls_during s s').
Proof.
  intros Hreach Hclock. rewrite (processTrade_lookup _ _ _ Hreach).
  assert (Hage : Api.age_of cfg env (Api.trace s) trade
                 = {| Api.isNew := true; Api.description := Api.NoCreationDate |}).
  { unfold Api.age_of, Api.lookup_of, Api.accountAgeOf.
    unfold Api.reads_clock in Hclock.
    destruct (Api.userDataOf _) as [u|]; [|done]. by rewrite Hclock. }
  rewrite Hage. cbn [Api.isNew].
  eexists. split; [reflexivity|].
  rewrite api_calls_during_trace
    with (l := Api.trade_calls cfg env (Api.trace s) market trade)
    by reflexivity.
  cbn [Api.alertedOrders].
  split.
  { apply set_has_true.
    assert (Hfresh : Api.tradeIdOf trade ∉ Api.alertedOrders s).
    { apply set_has_false. unfold Api.reaches_lookup in Hreach.
      destruct (set_has _ _); [|done].
      by rewrite andb_false_r in Hreach. }
    rewrite (set_add_fresh _ _ Hfresh). by apply evictOldest_keeps_last. }
  split; [apply trade_calls_shape|].
  unfold Api.trade_calls, Api.age_calls. fold (Api.lookup_of env (Api.trace s) trade) in Hclock.
  rewrite Hclock, Hage. cbn [Api.isNew Api.description app rev].
  unfold Api.post_calls. destruct (String.eqb (DISCORD_WEBHOOK cfg) "").
  - split; [done|]. repeat constructor; done.
  - split; [done|]. repeat constructor; done.
Qed.

(** X19. The loop over the trades of a market raises when one of the
    trades is [null] (reading its id throws), and only then; the trades
    behind the [null] are not looked at.  The user records asked for are,
    in order, those of some of the large trades in front of the first
    [null] (trades with an id, an amount, the product of the doubles
    [price] and [size], that is not below [MIN_BET_AMOUNT], and a user
    address), at most one request per such trade; every request is followed
    by one pause of 100 ms and no pause is taken otherwise. *)
Theorem lookups_only_for_large_trades market trades s :
  exists r s',
    Api.processTrades cfg env market trades s = (r, s') /\
    (r = Err <-> None ∈ trades) /\
    (forall outs, r = Ok outs -> length outs = length trades) /\
    sublist (Api.looked_up (Api.calls_during s s'))
      (map Api.userAddressOf
         (filter (fun t => Api.large cfg t = true)
            (Api.before_null trades))) /\
    Api.pauses (Api.calls_during s s')
    = map (fun _ => 100) (Api.looked_up (Api.calls_during s s')).
Proof.
  destruct (processTrades_run market trades s)
    as (r & l & s' & Hrun & Ht & _ & Herr & Hlen & _ & Hl & Hp).
  exists r, s'. by rewrite (api_calls_during_trace _ _ _ Ht).
Qed.

End ApiScan.

(** X20. A trade that was alerted is skipped when it is met again, under any
    market and whatever the requests would answer: no call is made and the
    store is left as it is. *)
Theorem alerted_trade_skipped_next cfg env market trade s s' env' market' :
  Api.processTrade cfg env market trade s
  = (Ok (Api.Alerted (Api.tradeIdOf trade)), s') ->
  Api.processTrade cfg env' market' trade s' = (Ok Api.SkippedById, s').
Proof.
  intros Hrun.
  destruct (Api.reaches_lookup cfg (Api.alertedOrders s) trade) eqn:Hreach.
  - rewrite (processTrade_lookup _ _ _ _ _ Hreach) in Hrun.
    destruct (Api.isNew _); [|done].
    injection Hrun as <-. unfold Api.processTrade.
    fold (Api.tradeIdOf trade). cbn [Api.alertedOrders].
    assert (Hfresh : Api.tradeIdOf trade ∉ Api.alertedOrders s).
    { apply set_has_false. unfold Api.reaches_lookup in Hreach.
      destruct (set_has _ _); [|done].
      by rewrite andb_false_r in Hreach. }
    assert (Hhas : set_has (Api.tradeIdOf trade)
              (Api.evictOldest (set_add (Api.tradeIdOf trade) (Api.alertedOrders s)))
            = true).
    { apply set_has_true. rewrite (set_add_fresh _ _ Hfresh).
      by apply evictOldest_keeps_last. }
    rewrite Hhas. by rewrite orb_true_r.
  - destruct (processTrade_skip cfg env market trade s Hreach) as (o & Hrun' & Hne).
    rewrite Hrun in Hrun'. injection Hrun' as <- _. by destruct (Hne (Api.tradeIdOf trade)).
Qed.

(** X21. A trade of an account found not new is not remembered: the store
    is unchanged, and meeting the trade again asks for the user record
    again, whatever the new answer leads to. *)
Theorem old_account_checked_again cfg env market trade s s' env' market' :
  Api.processTrade cfg env market trade s = (Ok Api.NotNew, s') ->
  Api.alertedOrders s' = Api.alertedOrders s /\
  exists o s'',
    Api.processTrade cfg env' market' trade s' = (Ok o, s'') /\
    Api.looked_up (Api.calls_during s' s'') = [Api.userAddressOf trade].
Proof.
  intros Hrun.
  destruct (Api.reaches_lookup cfg (Api.alertedOrders s) trade) eqn:Hreach.
  - rewrite (processTrade_lookup _ _ _ _ _ Hreach) in Hrun.
    destruct (Api.isNew _); [done|].
    injection Hrun as <-. cbn [Api.alertedOrders]. split; [done|].
    eexists _, _. split.
    + apply processTrade_lookup. exact Hreach.
    + erewrite api_calls_during_trace by reflexivity.
      apply trade_calls_shape.
  - exfalso. revert Hrun Hreach.
    unfold Api.reaches_lookup, Api.processTrade.
    fold (Api.tradeIdOf trade). fold (Api.userAddressOf trade).
    destruct (String.eqb (Api.tradeIdOf trade) ""); [done|].
    destruct (set_has _ _); [done|]. cbn [orb].
    destruct (Api.lt _ _); [done|].
    destruct (String.eqb (Api.userAddressOf trade) ""); done.
Qed.


(** X17 at a scan that alerts one trade into the empty store. *)
Lemma alerted_orders_stay_bounded_witness :
  let run := Api.monitorMarkets Api.webhook_cfg Api.unknown_user_env
               Api.initial_state in
  Api.alertsTracked Api.initial_state <= Api.MAX_STORED_ALERTS /\
  NoDup (Api.alertedOrders Api.initial_state) /\
  run.1 = Ok [Api.Scanned [Api.Alerted "t1"]] /\
  Api.alertsTracked run.2 <= 10000 /\ NoDup (Api.alertedOrders run.2).
Proof.
  cbv zeta.
  assert (H1 : Api.alertsTracked Api.initial_state <= Api.MAX_STORED_ALERTS)
    by (unfold Api.MAX_STORED_ALERTS, Api.alertsTracked; simpl; lia).
  assert (H2 : NoDup (Api.alertedOrders Api.initial_state)) by constructor.
  split; [exact H1|]. split; [exact H2|]. split; [reflexivity|].
  exact (alerted_orders_stay_bounded Api.webhook_cfg Api.unknown_user_env
           Api.initial_state _ _ H1 H2 eq_refl).
Defined.

(** X18 at a trade of $20,000 whose user request fails. *)
Lemma unknown_account_alerts_witness :
  Api.reaches_lookup Api.webhook_cfg (Api.alertedOrders Api.initial_state)
    Api.big_trade = true /\
  Api.reads_clock
    (Api.userDataOf
       (Api.gamma_user Api.unknown_user_env (Api.trace Api.initial_state)
          (Api.userAddressOf Api.big_trade))) = false /\
  exists s',
    Api.processTrade Api.webhook_cfg Api.unknown_user_env Api.some_market
      Api.big_trade Api.initial_state
    = (Ok (Api.Alerted (Api.tradeIdOf Api.big_trade)), s') /\
    set_has (Api.tradeIdOf Api.big_trade) (Api.alertedOrders s') = true /\
    Api.looked_up (Api.calls_during Api.initial_state s')
    = [Api.userAddressOf Api.big_trade] /\
    map Api.embedAccountAge (Api.posted (Api.calls_during Api.initial_state s'))
    = (if String.eqb (DISCORD_WEBHOOK Api.webhook_cfg) "" then []
       else [Api.NoCreationDate]) /\
    Forall (fun e => forall ms, e <> Api.DateNow ms)
      (Api.calls_during Api.initial_state s').
Proof.
  split; [reflexivity|]. split; [reflexivity|].
  apply (unknown_account_alerts Api.webhook_cfg Api.unknown_user_env
           Api.some_market Api.big_trade Api.initial_state); reflexivity.
Defined.

(** X20 at the same trade, met again when the account has become known. *)
Lemma alerted_trade_skipped_next_witness :
  let run := Api.processTrade Api.webhook_cfg Api.unknown_user_env
               Api.some_market Api.big_trade Api.initial_state in
  run = (Ok (Api.Alerted (Api.tradeIdOf Api.big_trade)), run.2) /\
  Api.processTrade Api.webhook_cfg Api.old_user_env Api.some_market
    Api.big_trade run.2
  = (Ok Api.SkippedById, run.2).
Proof.
  cbv zeta. split; [reflexivity|].
  apply (alerted_trade_skipped_next Api.webhook_cfg Api.unknown_user_env
           Api.some_market Api.big_trade Api.initial_state).
  reflexivity.
Defined.

(** X21 at a trade of $20,000 by an account of September 2020. *)
Lemma old_account_checked_again_witness :
  let run := Api.processTrade Api.webhook_cfg Api.old_user_env
               Api.some_market Api.big_trade Api.initial_state in
  run = (Ok Api.NotNew, run.2) /\
  Api.alertedOrders run.2 = Api.alertedOrders Api.initial_state /\
  exists o s'',
    Api.processTrade Api.webhook_cfg Api.unknown_user_env Api.some_market
      Api.big_trade run.2 = (Ok o, s'') /\
    Api.looked_up (Api.calls_during run.2 s'')
    = [Api.userAddressOf Api.big_trade].
Proof.
  cbv zeta. split; [reflexivity|].
  apply (old_account_checked_again Api.webhook_cfg Api.old_user_env
           Api.some_market Api.big_trade Api.initial_state).
  reflexivity.
Defined.

(** The threshold is met in doubles: the product of the doubles nearest to
    0.066357 and 150700.001507 is below 10000 as a rational and is the
    double 10000, so that the trade is large. *)
Lemma edge_trade_is_large :
  Api.mul (Api.price Api.edge_trade) (Api.size Api.edge_trade)
  = Api.double 10000 0 /\
  Qlt_bool
    (Api.valueOf false 4781525767574784 (-56)
     * Api.valueOf false 5178012623837726 (-35)) (10000 # 1) = true /\
  Api.large Api.webhook_cfg Api.edge_trade = true.
Proof. by vm_compute. Qed.

(** A scan of a listing with a [null] and of trades with a [null]: both
    markets end in the [catch] branch, the second after the alert for the
    trade in front of the [null]; the trade behind it is not looked at. *)
Lemma scan_of_ragged_listing :
  let run := Api.monitorMarkets Api.webhook_cfg Api.ragged_env
               Api.initial_state in
  let calls := Api.calls_during Api.initial_state run.2 in
  run.1 = Ok [Api.MarketError; Api.NoConditionId; Api.MarketError] /\
  Api.queried calls = ["0xc1"] /\
  Api.looked_up calls = ["0xabc"] /\
  map Api.embedAmount (Api.posted calls) = [Api.double 10000 0] /\
  Api.pauses calls = [100] /\
  Api.alertedOrders run.2 = ["t3"].
Proof. by vm_compute. Qed.

(** A scan of a listing that is no array raises, after the one request. *)
Lemma scan_of_broken_listing :
  let run := Api.monitorMarkets Api.webhook_cfg Api.broken_env
               Api.initial_state in
  run.1 = Err /\
  Api.calls_during Api.initial_state run.2
  = [Api.MarketsGet (Ok Api.NotArray)].
Proof. by vm_compute. Qed.

(** ** The first edition: the position shown *)

Lemma digit_starts_no_word c r :
  Api.is_digit c = true ->
  String.prefix "yes" (String (lower_ascii c) r) = false /\
  String.prefix "no" (String (lower_ascii c) r) = false.
Proof.
  destruct c as [[] [] [] [] [] [] [] []]; intros H; try discriminate H;
    split; reflexivity.
Qed.

Lemma includes_digits s :
  Api.all_digits s = true ->
  Api.includes "yes" (toLowerCase s) = false /\
  Api.includes "no" (toLowerCase s) = false.
Proof.
  induction s as [|c r IH]; [done|].
  cbn [Api.all_digits]. intros [Hc Hr]%andb_prop.
  destruct (IH Hr) as [IHy IHn].
  destruct (digit_starts_no_word c (toLowerCase r) Hc) as [Hy Hn].
  cbn [toLowerCase Api.includes]. by rewrite Hy, Hn.
Qed.

(** X22. A trade without outcome text, whose outcome is read off the asset
    id, is shown with the position UNKNOWN when the asset id is a token id
    written in decimal digits; only the ids "1" and "0" give YES and NO. *)
Theorem position_of_token_id trade :
  Api.outcome trade = "" ->
  Api.all_digits (Api.asset_id trade) = true ->
  Api.positionOf trade =
  if String.eqb (Api.asset_id trade) "1" then Api.YES
  else if String.eqb (Api.asset_id trade) "0" then Api.NO
  else Api.UNKNOWN.
Proof.
  intros Hout Hdigits. unfold Api.positionOf, or_str. rewrite Hout.
  cbn [String.eqb]. destruct (includes_digits _ Hdigits) as [-> ->]. done.
Qed.

(** X22 at a trade that carries a 77-digit token id. *)
Lemma position_of_token_id_witness :
  Api.outcome Api.token_trade = "" /\
  Api.all_digits (Api.asset_id Api.token_trade) = true /\
  Api.positionOf Api.token_trade = Api.UNKNOWN.
Proof.
  split; [reflexivity|]. split; [reflexivity|].
  exact (position_of_token_id Api.token_trade eq_refl eq_refl).
Defined.
